(** * f3dasm: the experiment ledger and its job-state engine

    A shallow embedding of [f3dasm/_src/design/experimentdata.py] and
    [f3dasm/_src/experimentdata/_io.py].  Python objects that are mutated in
    place become explicit state, exceptions become an outcome of the
    computation, and the [while True] loops are cut by a fuel argument whose
    exhaustion is a separate outcome ([OutOfFuel]); the theorems show that
    enough fuel is always available.  The records that the code writes to
    its logger are modelled where a property speaks of them
    ([save_object]) and left out elsewhere.  Several drivers of the cluster
    mode on the files of one ledger are interleaved call by call: what
    runs under the file lock is one step. *)

From Stdlib Require Import ZArith String Ascii List Lia.
From Stdlib Require QArith.QArith_base QArith.Qround.
From stdpp Require Import base tactics option numbers list strings gmap.

Open Scope string_scope.
Open Scope list_scope.

(** ** Python exceptions and effectful computations *)

(** The subclasses of Python's [Exception] that occur in the modelled code.
    [RuntimeError] stands for any other subclass of [Exception] raised by
    user code (an evaluator body).  Conditions that derive from
    [BaseException] only (interpreter exit, keyboard interrupt) are not
    modelled: [except Exception] does not see them. *)
Inductive Exception :=
  | NoOpenJobsError
  | KeyError
  | AttributeError
  | TypeError (msg : string)
  | ValueError (msg : string)
  | FileNotFoundError (msg : string)
  | ZeroDivisionError
  | RuntimeError (msg : string).

#[global] Instance Exception_eq_dec : EqDecision Exception.
Proof. solve_decision. Defined.

(** What running a piece of code gives: a value, a raised exception, or the
    exhaustion of the fuel that bounds the loops of the model. *)
Inductive outcome (A : Type) :=
  | Return (a : A)
  | Raise (e : Exception)
  | OutOfFuel.
Arguments Return {A} a.
Arguments Raise {A} e.
Arguments OutOfFuel {A}.

(** A computation over a mutable state [S].  The state is returned next to
    every outcome: what Python code has written before it raises stays
    written. *)
Definition M (S A : Type) : Type := S → outcome A * S.

Definition ret {S A} (a : A) : M S A := λ s, (Return a, s).
Definition raise {S A} (e : Exception) : M S A := λ s, (Raise e, s).
Definition lift {S A} (o : outcome A) : M S A := λ s, (o, s).
(** A call of a function of a collaborator, which returns or raises. *)
Definition call {S A} (r : Exception + A) : M S A :=
  λ s, (match r with inl e => Raise e | inr a => Return a end, s).
Definition get {S} : M S S := λ s, (Return s, s).
Definition put {S} (s : S) : M S unit := λ _, (Return tt, s).
Definition modify {S} (f : S → S) : M S unit := λ s, (Return tt, f s).

Definition bind {S A B} (m : M S A) (k : A → M S B) : M S B :=
  λ s, match m s with
       | (Return a, s') => k a s'
       | (Raise e, s') => (Raise e, s')
       | (OutOfFuel, s') => (OutOfFuel, s')
       end.

(** [try: m  except <the exceptions on which h is defined>: h e]. *)
Definition try_except {S A} (m : M S A) (h : Exception → option (M S A)) : M S A :=
  λ s, match m s with
       | (Raise e, s') =>
           match h e with
           | Some handler => handler s'
           | None => (Raise e, s')
           end
       | r => r
       end.

Declare Scope py_scope.
Delimit Scope py_scope with py.
Notation "'let!' x ':=' m 'in' k" := (bind m (λ x, k))
  (at level 10, x pattern, m at level 100, k at level 200) : py_scope.
Notation "m '>>' k" := (bind m (λ _, k))
  (at level 65, right associativity) : py_scope.
Open Scope py_scope.

(** Code without a state of its own: [x ← m; k] on outcomes. *)
#[global] Instance outcome_ret : MRet outcome := λ A a, Return a.
#[global] Instance outcome_bind : MBind outcome := λ A B k m,
  match m with
  | Return a => k a
  | Raise e => Raise e
  | OutOfFuel => OutOfFuel
  end.

(** [try: m  except FileNotFoundError: handler]. *)
Definition except_FileNotFoundError {A} (m : outcome A) (handler : outcome A) : outcome A :=
  match m with
  | Raise (FileNotFoundError _) => handler
  | r => r
  end.

(** [for x in xs: body x], stopping at the first exception. *)
Fixpoint for_each {S A} (xs : list A) (body : A → M S unit) : M S unit :=
  match xs with
  | [] => ret tt
  | x :: xs' => body x >> for_each xs' body
  end.

(** [except NoOpenJobsError] and [except Exception]. *)
Definition except_NoOpenJobsError {S A} (k : M S A) : Exception → option (M S A) :=
  λ e, match e with NoOpenJobsError => Some k | _ => None end.
Definition except_Exception {S A} (k : Exception → M S A) : Exception → option (M S A) :=
  λ e, Some (k e).

(** ** Values, the record store and the job queue *)

(** A cell of a table: unset (pandas' NaN), a number or a string.  Numbers
    are carried around and compared, never computed with, so integers stand
    for them. *)
Inductive value :=
  | NaN
  | Num (z : Z)
  | Str (s : string).

#[global] Instance value_eq_dec : EqDecision value.
Proof. solve_decision. Defined.

Inductive Status := OPEN | IN_PROGRESS | FINISHED | ERROR.

#[global] Instance Status_eq_dec : EqDecision Status.
Proof. solve_decision. Defined.

(** Python's [l[start:]] for a possibly negative [start]. *)
Definition slice_from {A} (start : Z) (l : list A) : list A :=
  let n := Z.of_nat (length l) in
  let start' := if (start <? 0)%Z then Z.max (start + n) 0 else Z.min start n in
  drop (Z.to_nat start') l.

(** The rows of [l] whose position (counted from [i]) is not in [indices]. *)
Fixpoint remove_at {A} (indices : list nat) (i : nat) (l : list A) : list A :=
  match l with
  | [] => []
  | x :: l' =>
      if bool_decide (i ∈ indices) then remove_at indices (S i) l'
      else x :: remove_at indices (S i) l'
  end.

(** The position of the first element equal to [x]. *)
Definition index_of {A} `{EqDecision A} (x : A) (l : list A) : option nat :=
  fst <$> list_find (λ y, y = x) l.

(** [dict.get(key, default)] on an association list. *)
Fixpoint assoc {A B} `{EqDecision A} (k : A) (l : list (A * B)) : option B :=
  match l with
  | [] => None
  | (k', v) :: l' => if decide (k' = k) then Some v else assoc k l'
  end.

Module _Data.
(** Modelled from the spec: the class [_Data] of [_data.py] (the Record
    Store) is not part of the sources at hand.  A store is a list of
    unique column names and one list of cells per row; a row is
    identified by its position. *)
Record t := mk { names : list string; data : list (list value) }.

#[global] Instance eq_dec : EqDecision t.
Proof. solve_decision. Defined.

(** [_Data()]. *)
Definition empty : t := mk [] [].

Definition len (d : t) : nat := length (data d).

Definition indices (d : t) : list nat := seq 0 (len d).

(** Modelled from the spec: [from_indices], rows without any column. *)
Definition from_indices (idx : list nat) : t := mk [] (replicate (length idx) []).

(** Modelled from the spec: [is_empty], the store holds no cell. *)
Definition is_empty (d : t) : bool :=
  bool_decide (names d = []) || bool_decide (data d = []).

(** Modelled from the spec: [get_data_dict(index)] "returns the full row
    as a name→value mapping"; a position without a row is a [KeyError]. *)
Definition get_data_dict (d : t) (index : nat) : outcome (list (string * value)) :=
  match data d !! index with
  | Some row => Return (zip (names d) row)
  | None => Raise KeyError
  end.

(** Modelled from the spec: [set_data(index, value, column)] is a "point
    update; fails with KeyError-class error if column absent".  Without a
    column the whole row takes the value (this is how [set_error] leaves
    the sentinel).  The spec names no other failure and does not say what
    a point update does at a position without a row: the model leaves the
    store as it is there.  The theorems about values that are written are
    about rows that exist. *)
Definition set_data (d : t) (index : nat) (v : value) (column : option string)
  : outcome t :=
  match column with
  | None => Return (mk (names d) (alter (map (λ _, v)) index (data d)))
  | Some c =>
      match index_of c (names d) with
      | Some j => Return (mk (names d) (alter (<[j := v]>) index (data d)))
      | None => Raise KeyError
      end
  end.

(** Modelled from the spec: [add_empty_rows(n)] "appends n rows with all
    columns unset". *)
Definition add_empty_rows (d : t) (n : nat) : t :=
  mk (names d) (data d ++ replicate n (replicate (length (names d)) NaN)).

(** Modelled from the spec: [remove(indices)] "drops rows at given
    indices, reindexes remaining rows to be contiguous from 0". *)
Definition remove (d : t) (idx : list nat) : t :=
  mk (names d) (remove_at idx 0 (data d)).

(** One row of a store laid out along the columns [ns]; a column the row
    does not have is unset. *)
Definition realign (ns : list string) (from : list string) (row : list value) : list value :=
  map (λ n, default NaN (assoc n (zip from row))) ns.

(** Modelled from the spec: [combine_with(other)] (the [+] of two stores)
    is a "row-wise concatenation", the columns reconciled "by
    union-with-unset-fill". *)
Definition combine_with (d other : t) : t :=
  let ns := names d ++ filter (λ n, n ∉ names d) (names other) in
  mk ns (map (realign ns (names d)) (data d) ++ map (realign ns (names other)) (data other)).

(** Modelled from the spec: [add_column(name)], a new column, unset in
    every row. *)
Definition add_column (d : t) (name : string) : t :=
  mk (names d ++ [name]) (map (λ row, row ++ [NaN]) (data d)).

(** Rows are identified by position: there is nothing to reindex. *)
Definition reset_index (d : t) : t := d.
End _Data.

Module _JobQueue.
(** Modelled from the spec: the class [_JobQueue] of [_jobqueue.py] (the
    Job Ledger) is not part of the sources at hand: "exactly one status
    tag per row". *)
Abbreviation t := (list Status).

(** Modelled from the spec: [get_open_job()] "returns the lowest-index
    row currently OPEN; fails with NoOpenJobs when none exists". *)
Definition get_open_job (jobs : t) : outcome nat :=
  match index_of OPEN jobs with
  | Some i => Return i
  | None => Raise NoOpenJobsError
  end.

(** Modelled from the spec: marking "simply overwrites status
    (last-writer-wins)". *)
Definition mark (jobs : t) (index : nat) (status : Status) : t :=
  <[index := status]> jobs.
Definition mark_as_in_progress (jobs : t) (index : nat) : t := mark jobs index IN_PROGRESS.
Definition mark_as_finished (jobs : t) (index : nat) : t := mark jobs index FINISHED.
Definition mark_as_error (jobs : t) (index : nat) : t := mark jobs index ERROR.

(** [mark_as_finished] of an iterable of indices. *)
Definition mark_all_as_finished (jobs : t) (idx : list nat) : t :=
  foldl mark_as_finished jobs idx.

(** Modelled from the spec: [mark_all_open] "resets every row to OPEN". *)
Definition mark_all_open (jobs : t) : t := map (λ _, OPEN) jobs.

(** Modelled from the spec: [is_all_finished()] is "true iff no row is
    OPEN or IN_PROGRESS". *)
Definition is_all_finished (jobs : t) : bool :=
  forallb (λ s, bool_decide (s = FINISHED ∨ s = ERROR)) jobs.

(** Modelled from the spec: [from_data(data, value)], one entry per row of
    [data], all with the status [value]. *)
Definition from_data (d : _Data.t) (value : Status) : t :=
  replicate (_Data.len d) value.

(** Modelled from the spec: [add(number_of_jobs, status)], new entries at
    the end. *)
Definition add (jobs : t) (number_of_jobs : nat) (status : Status) : t :=
  jobs ++ replicate number_of_jobs status.

Definition remove (jobs : t) (idx : list nat) : t := remove_at idx 0 jobs.

(** The [+] of two queues: "row-concatenates ..., preserving relative
    order (self rows first)". *)
Definition combine_with (jobs other : t) : t := jobs ++ other.

Definition reset_index (jobs : t) : t := jobs.
End _JobQueue.

Module ExperimentSample.
(** Modelled from the spec: the class [ExperimentSample] of
    [experimentsample.py] is not part of the sources at hand: "a
    single-row view (input values + currently-unset outputs)" that knows
    the row it was taken from. *)
Record t := mk {
  dict_input : list (string * value);
  dict_output : list (string * value);
  _jobnumber : nat
}.

#[global] Instance eq_dec : EqDecision t.
Proof. solve_decision. Defined.

(** The properties [job_number] and [output_data]. *)
Definition job_number (s : t) : nat := _jobnumber s.
Definition output_data (s : t) : list (string * value) := dict_output s.
End ExperimentSample.

(** The protocol [_DataGenerator]: [run(experiment_sample, **kwargs)] gives
    back a sample ([inr]) or raises ([inl]).  The keyword arguments are
    fixed during a sweep and are part of the function. *)
Definition _DataGenerator : Type := ExperimentSample.t → Exception + ExperimentSample.t.

(** The class [Parameter] and its four kinds. *)
Inductive Parameter_ :=
  | ContinuousParameter
  | DiscreteParameter
  | CategoricalParameter
  | ConstantParameter.

#[global] Instance Parameter_eq_dec : EqDecision Parameter_.
Proof. solve_decision. Defined.

Module Domain.
(** Modelled from the spec: the class [Domain] of [domain.py] is not part
    of the sources at hand: "an ordered mapping from input-column name to
    a parameter specification (continuous/discrete/categorical/constant)",
    opaque to the ledger. *)
Abbreviation t := (list (string * Parameter_)).

(** [Domain()]. *)
Definition empty : t := [].

Definition names (d : t) : list string := d.*1.
End Domain.

(** ** Files *)

(** What a file of a persisted ledger holds.  Serialising a table, a queue
    or a schema and parsing it back are taken to be inverse to each other
    (spec: "reload must restore exact status per row"), so a file is
    modelled by the object written to it. *)
Inductive file :=
  | DataFile (d : _Data.t)
  | JobsFile (j : _JobQueue.t)
  | DomainFile (d : Domain.t).

Abbreviation filesystem := (gmap string file).

(** Modelled from the spec: [_Data.store(path)] and [_Data.from_file(path)];
    the helper is not part of the sources at hand.  A missing file is a
    [FileNotFoundError]; a file that does not hold a table does not parse. *)
Definition _Data_store (d : _Data.t) (path : string) (fs : filesystem) : filesystem :=
  <[path := DataFile d]> fs.
Definition _Data_from_file (fs : filesystem) (path : string) : outcome _Data.t :=
  match fs !! path with
  | Some (DataFile d) => Return d
  | Some _ => Raise (ValueError path)
  | None => Raise (FileNotFoundError path)
  end.

(** Modelled from the spec: [_Data.from_csv(path)], a table read from the
    file at [path]. *)
Definition _Data_from_csv (fs : filesystem) (path : string) : outcome _Data.t :=
  _Data_from_file fs path.

(** Modelled from the spec: [_JobQueue.store(path)] and
    [_JobQueue.from_file(path)]. *)
Definition _JobQueue_store (j : _JobQueue.t) (path : string) (fs : filesystem) : filesystem :=
  <[path := JobsFile j]> fs.
Definition _JobQueue_from_file (fs : filesystem) (path : string) : outcome _JobQueue.t :=
  match fs !! path with
  | Some (JobsFile j) => Return j
  | Some _ => Raise (ValueError path)
  | None => Raise (FileNotFoundError path)
  end.

(** Modelled from the spec: [Domain.store(path)] and
    [Domain.from_file(path)]. *)
Definition Domain_store (d : Domain.t) (path : string) (fs : filesystem) : filesystem :=
  <[path := DomainFile d]> fs.
Definition Domain_from_file (fs : filesystem) (path : string) : outcome Domain.t :=
  match fs !! path with
  | Some (DomainFile d) => Return d
  | Some _ => Raise (ValueError path)
  | None => Raise (FileNotFoundError path)
  end.

(** [pathlib]: the suffix of the last component of a path, and [a / b].
    In [a / b] an absolute [b] replaces [a], the directory [.] (which the
    empty string also names) adds nothing, and no separator follows a
    separator. *)
Fixpoint last_dot (name : string) : option string :=
  match name with
  | EmptyString => None
  | String c rest =>
      match last_dot rest with
      | Some suffix => Some suffix
      | None => if Ascii.eqb c "." then Some name else None
      end
  end.
Fixpoint last_component (path : string) : string :=
  match path with
  | EmptyString => EmptyString
  | String c rest =>
      if existsb (Ascii.eqb "/") (list_ascii_of_string rest) then last_component rest
      else if Ascii.eqb c "/" then rest else path
  end.
Definition Path_suffix (path : string) : string :=
  let name := last_component path in
  match last_dot name with
  | Some suffix =>
      if String.eqb suffix name || String.eqb suffix "." then "" else suffix
  | None => ""
  end.
Fixpoint ends_with_slash (a : string) : bool :=
  match a with
  | EmptyString => false
  | String c EmptyString => Ascii.eqb c "/"
  | String _ rest => ends_with_slash rest
  end.
Definition Path_div (a b : string) : string :=
  match b with
  | String "/" _ => b
  | _ =>
      if String.eqb a EmptyString || String.eqb a "." then b
      else if ends_with_slash a then a +:+ b
      else a +:+ "/" +:+ b
  end.

(** [str.lower] on ASCII text. *)
Definition ascii_lower (c : ascii) : ascii :=
  let n := nat_of_ascii c in
  if (65 <=? n)%nat && (n <=? 90)%nat then ascii_of_nat (n + 32) else c.
Fixpoint lower (s : string) : string :=
  match s with
  | EmptyString => EmptyString
  | String c rest => String (ascii_lower c) (lower rest)
  end.

(** The sentinel that [set_error] leaves in the output of a failed row. *)
Definition ERROR_SENTINEL : value := Str "ERROR".

Module ExperimentData.
Record t := mk {
  filename : string;
  input_data : _Data.t;
  output_data : _Data.t;
  domain : Domain.t;
  jobs : _JobQueue.t
}.

#[global] Instance eq_dec : EqDecision t.
Proof. solve_decision. Defined.

Definition set_filename (v : string) (self : t) : t :=
  mk v (input_data self) (output_data self) (domain self) (jobs self).
Definition set_input_data (v : _Data.t) (self : t) : t :=
  mk (filename self) v (output_data self) (domain self) (jobs self).
Definition set_output_data (v : _Data.t) (self : t) : t :=
  mk (filename self) (input_data self) v (domain self) (jobs self).
Definition set_jobs (v : _JobQueue.t) (self : t) : t :=
  mk (filename self) (input_data self) (output_data self) (domain self) v.

Definition __len__ (self : t) : nat := _Data.len (input_data self).

Definition __eq__ (self __o : t) : bool :=
  forallb id [ bool_decide (input_data self = input_data __o);
               bool_decide (output_data self = output_data __o);
               bool_decide (jobs self = jobs __o);
               bool_decide (domain self = domain __o) ].

(** *** Single rows *)

Definition get_experiment_sample (index : nat) : M t ExperimentSample.t :=
  let! self := get in
  let! dict_input := lift (_Data.get_data_dict (input_data self) index) in
  let! dict_output := lift (_Data.get_data_dict (output_data self) index) in
  ret (ExperimentSample.mk dict_input dict_output index).

(** The body of the loop of [set_experiment_sample]. *)
Definition write_output (j : nat) : string * value → M t unit :=
  λ '(column, value),
    let! self := get in
    let! out := lift (_Data.set_data (output_data self) j value (Some column)) in
    put (set_output_data out self).

Definition set_experiment_sample (experiment_sample : ExperimentSample.t) : M t unit :=
  for_each (ExperimentSample.output_data experiment_sample)
    (write_output (ExperimentSample.job_number experiment_sample)) >>
  modify (λ self, set_jobs
    (_JobQueue.mark_as_finished (jobs self) (ExperimentSample._jobnumber experiment_sample))
    self).

Definition access_open_job_data : M t ExperimentSample.t :=
  let! self := get in
  let! job_index := lift (_JobQueue.get_open_job (jobs self)) in
  modify (λ self, set_jobs (_JobQueue.mark_as_in_progress (jobs self) job_index) self) >>
  get_experiment_sample job_index.

(** *** Jobs *)

Definition set_error (index : nat) : M t unit :=
  modify (λ self, set_jobs (_JobQueue.mark_as_error (jobs self) index) self) >>
  let! self := get in
  let! out := lift (_Data.set_data (output_data self) index ERROR_SENTINEL None) in
  put (set_output_data out self).

Definition mark_all_open : M t unit :=
  modify (λ self, set_jobs (_JobQueue.mark_all_open (jobs self)) self).

(** *** Run data generation *)

(** The first [try] of both sweeps: claim the next open row; [None] is the
    [break] on [NoOpenJobsError]. *)
Definition claim_or_break : M t (option ExperimentSample.t) :=
  try_except (let! experiment_sample := access_open_job_data in
              ret (Some experiment_sample))
             (except_NoOpenJobsError (ret None)).

(** One turn of the loop of [_run_sequential] after the claim: evaluate,
    commit, and on any exception fail the row. *)
Definition evaluate_and_commit (data_generator : _DataGenerator)
    (experiment_sample : ExperimentSample.t) : M t unit :=
  try_except
    (let! _experiment_sample := call (data_generator experiment_sample) in
     set_experiment_sample _experiment_sample)
    (except_Exception (λ e, set_error (ExperimentSample._jobnumber experiment_sample))).

Fixpoint _run_sequential (fuel : nat) (data_generator : _DataGenerator) : M t unit :=
  match fuel with
  | O => lift OutOfFuel
  | S fuel' =>
      let! claimed := claim_or_break in
      match claimed with
      | None => ret tt
      | Some experiment_sample =>
          evaluate_and_commit data_generator experiment_sample >>
          _run_sequential fuel' data_generator
      end
  end.

(** The first loop of [_run_multiprocessing]: "Get all the jobs". *)
Fixpoint get_all_the_jobs (fuel : nat) : M t (list ExperimentSample.t) :=
  match fuel with
  | O => lift OutOfFuel
  | S fuel' =>
      let! claimed := claim_or_break in
      match claimed with
      | None => ret []
      | Some experiment_sample =>
          let! options := get_all_the_jobs fuel' in
          ret (experiment_sample :: options)
      end
  end.

(** [pool.starmap(f, options)]: every call runs in a worker on a copy of
    its argument; the results come back in the order of [options], and
    when a call has raised, [starmap] raises in the parent instead of
    returning.  Which of several exceptions is re-raised depends on
    timing; the model takes the one of the lowest position. *)
Fixpoint starmap {A B} (f : A → Exception + B) (options : list A) : Exception + list B :=
  match options with
  | [] => inr []
  | o :: options' =>
      match f o, starmap f options' with
      | inr b, inr bs => inr (b :: bs)
      | inr _, inl e => inl e
      | inl e, _ => inl e
      end
  end.

Definition _run_multiprocessing (fuel : nat) (data_generator : _DataGenerator) : M t unit :=
  let! options := get_all_the_jobs fuel in
  let! _experiment_samples := call (starmap data_generator options) in
  for_each _experiment_samples set_experiment_sample.

(** *** Construction *)

(** [DataTypes = Union[pd.DataFrame, np.ndarray, Path, str, _Data]], and
    [of_other] for an argument of any other type.  A [_Data] wraps a
    DataFrame, so a DataFrame is given by the store it becomes. *)
Inductive DataTypes :=
  | of_Data (d : _Data.t)
  | of_DataFrame (df : _Data.t)
  | of_ndarray (a : list (list value))
  | of_Path (p : string)
  | of_str (p : string)
  | of_other (type_name : string).

(** The [domain] argument: a [Domain], a path, or anything else. *)
Inductive DomainTypes :=
  | of_Domain (d : Domain.t)
  | of_domain_Path (p : string)
  | of_domain_other (type_name : string).

(** What the sources at hand call and neither they nor the spec describe:
    [_Data.from_numpy], [Domain.from_data], [_Data.from_domain] of an
    argument that is not a [Domain], and [get_original_cwd()] of hydra
    (the directory the program was started in, or a [ValueError] when
    hydra is not initialised).  They are parameters of the ledger, and
    each of them may raise. *)
Class Helpers := {
  _Data_from_numpy : list (list value) → outcome _Data.t;
  Domain_from_data : _Data.t → outcome Domain.t;
  _Data_from_domain_other : option DomainTypes → outcome _Data.t;
  get_original_cwd : outcome string
}.

Section Ledger.
Context `{Helpers}.

(** Modelled from the spec: [_Data.from_domain(domain)], a store with
    the columns of the schema and no row. *)
Definition _Data_from_domain (domain : option DomainTypes) : outcome _Data.t :=
  match domain with
  | Some (of_Domain d) => Return (_Data.mk (Domain.names d) [])
  | other => _Data_from_domain_other other
  end.

Definition _construct_data (fs : filesystem) (data : option DataTypes) : outcome _Data.t :=
  match data with
  | None => Return _Data.empty
  | Some (of_Data d) => Return d
  | Some (of_DataFrame df) => Return df
  | Some (of_Path p) =>
      if String.eqb (Path_suffix p) ".csv" then _Data_from_csv fs p
      else _Data_from_file fs p
  | Some (of_str p) => Raise AttributeError (* [data.suffix] of a [str] *)
  | Some (of_ndarray a) => _Data_from_numpy a
  | Some (of_other type_name) => Raise (TypeError type_name)
  end.

Definition _construct_domain (fs : filesystem) (input_data : _Data.t)
    (domain : option DomainTypes) : outcome Domain.t :=
  match domain with
  | Some (of_Domain d) => Return d
  | Some (of_domain_Path p) => Domain_from_file fs p
  | None =>
      if _Data.is_empty input_data then Return Domain.empty
      else Domain_from_data input_data
  | Some (of_domain_other type_name) => Raise (TypeError type_name)
  end.

Definition __init__ (fs : filesystem) (domain : option DomainTypes)
    (input_data output_data : option DataTypes) (jobs : option string)
    (filename : string) : outcome t :=
  input_data ← _construct_data fs input_data;
  output_data ← _construct_data fs output_data;
  let '(output_data, job_value) :=
    if _Data.is_empty output_data
    then (_Data.from_indices (_Data.indices input_data), OPEN)
    else (output_data, FINISHED) in
  domain' ← _construct_domain fs input_data domain;
  input_data ← (if _Data.is_empty input_data then _Data_from_domain domain
                else Return input_data);
  _ ← match jobs with
      | Some path => _JobQueue_from_file fs path
      | None => Return []
      end;
  Return (mk filename input_data output_data domain'
             (_JobQueue.from_data input_data job_value)).

Definition _from_object (fs : filesystem) (input_data output_data : _Data.t)
    (jobs : _JobQueue.t) (domain : Domain.t) (filename : string) : outcome t :=
  experimentdata ← __init__ fs (Some (of_Domain domain)) None None None filename;
  Return (set_jobs jobs (set_output_data output_data
            (set_input_data input_data experimentdata))).

(** *** Files of a ledger *)

(** The optional text stream [text_io] is left out: the tables are read
    from their paths. *)
Definition _from_file_attempt (fs : filesystem) (filename : string) : outcome t :=
  except_FileNotFoundError
    (domain ← Domain_from_file fs (filename +:+ "_domain");
     experimentdata ← __init__ fs (Some (of_Domain domain)) None None None filename;
     input_data ← _Data_from_file fs (filename +:+ "_data");
     let experimentdata := set_input_data input_data experimentdata in
     output_data ← except_FileNotFoundError
                     (_Data_from_file fs (filename +:+ "_output"))
                     (Return (_Data.from_indices
                                (_Data.indices (ExperimentData.input_data experimentdata))));
     let experimentdata := set_output_data output_data experimentdata in
     jobs ← _JobQueue_from_file fs (filename +:+ "_jobs");
     Return (set_jobs jobs experimentdata))
    (Raise (FileNotFoundError ("Cannot find the file " +:+ filename +:+ "_data.csv."))).

Definition from_file (fs : filesystem) (filename : string) : outcome t :=
  except_FileNotFoundError
    (_from_file_attempt fs filename)
    (filename_with_path ←
       match get_original_cwd with
       | Raise (ValueError _) =>
           Raise (FileNotFoundError ("Cannot find the file " +:+ filename +:+ " !"))
       | Return cwd => Return (Path_div cwd filename)
       | other => other
       end;
     _from_file_attempt fs filename_with_path).

Definition store (self : t) (filename : option string) (fs : filesystem) : filesystem :=
  let filename := default (ExperimentData.filename self) filename in
  Domain_store (domain self) (filename +:+ "_domain")
    (_JobQueue_store (jobs self) (filename +:+ "_jobs")
      (_Data_store (output_data self) (filename +:+ "_output")
        (_Data_store (input_data self) (filename +:+ "_data") fs))).

(** The decorator [_access_file]: under the file lock, reload the ledger,
    run the operation on the reloaded object and write it back.  The
    lock itself has no effect in a single process.  When the operation
    raises, nothing is written. *)
Definition _access_file {A} (operation : M t A) (self : t) : M filesystem A :=
  λ fs,
    match from_file fs (filename self) with
    | Return self' =>
        match operation self' with
        | (Return value, self'') =>
            (Return value, store self'' (Some (filename self'')) fs)
        | (Raise e, _) => (Raise e, fs)
        | (OutOfFuel, _) => (OutOfFuel, fs)
        end
    | Raise e => (Raise e, fs)
    | OutOfFuel => (OutOfFuel, fs)
    end.

Definition write_experiment_sample (experiment_sample : ExperimentSample.t) :=
  _access_file (set_experiment_sample experiment_sample).
Definition get_open_job_data := _access_file access_open_job_data.
Definition write_error (index : nat) := _access_file (set_error index).
Definition is_all_finished :=
  _access_file (let! self := get in ret (_JobQueue.is_all_finished (jobs self))).

Fixpoint _run_cluster_loop (fuel : nat) (data_generator : _DataGenerator)
    (self : t) : M filesystem unit :=
  match fuel with
  | O => lift OutOfFuel
  | S fuel' =>
      let! claimed :=
        try_except (let! experiment_sample := get_open_job_data self in
                    ret (Some experiment_sample))
                   (except_NoOpenJobsError (ret None)) in
      match claimed with
      | None => ret tt
      | Some experiment_sample =>
          try_except
            (let! _experiment_sample := call (data_generator experiment_sample) in
             write_experiment_sample _experiment_sample self)
            (except_Exception (λ e,
               write_error (ExperimentSample._jobnumber experiment_sample) self)) >>
          _run_cluster_loop fuel' data_generator self
      end
  end.

(** [_run_cluster] rebinds its local name [self] to the ledger it loads:
    the object of the caller is not touched, the results are in the
    files.  The lock file that is unlinked at the end is not part of
    the model. *)
Definition _run_cluster (fuel : nat) (data_generator : _DataGenerator)
    (self : t) : M filesystem unit :=
  let! self :=
    (λ fs, match from_file fs (filename self) with
           | Raise (FileNotFoundError _) => (Return self, store self None fs)
           | r => (r, fs)
           end) in
  _run_cluster_loop fuel data_generator self >>
  let! _ := (λ fs, (from_file fs (filename self), fs)) in
  ret tt.

(** [run]: the ledger in memory and the files are both in reach. *)
Definition on_self {A} (m : M t A) : M (t * filesystem) A :=
  λ '(self, fs), let '(r, self') := m self in (r, (self', fs)).
Definition on_files {A} (m : t → M filesystem A) : M (t * filesystem) A :=
  λ '(self, fs), let '(r, fs') := m self fs in (r, (self, fs')).

Definition run (fuel : nat) (data_generator : _DataGenerator) (mode : string)
  : M (t * filesystem) unit :=
  if String.eqb (lower mode) "sequential" then
    on_self (_run_sequential fuel data_generator)
  else if String.eqb (lower mode) "parallel" then
    on_self (_run_multiprocessing fuel data_generator)
  else if String.eqb (lower mode) "cluster" then
    on_files (_run_cluster fuel data_generator)
  else raise (ValueError "Invalid parallelization mode specified.").

(** *** Append or remove data *)

Definition reset_index (self : t) : t :=
  set_jobs (_JobQueue.reset_index (jobs self))
    (set_output_data (_Data.reset_index (output_data self))
      (set_input_data (_Data.reset_index (input_data self)) self)).

(** [add_experiments] of an [ExperimentData]. *)
Definition add_experiments (experiment_sample : t) : M t unit :=
  let experiment_sample := reset_index experiment_sample in
  modify (λ self, set_input_data
    (_Data.combine_with (input_data self) (input_data experiment_sample)) self) >>
  modify (λ self, set_output_data
    (_Data.combine_with (output_data self) (output_data experiment_sample)) self) >>
  modify (λ self, set_jobs
    (_JobQueue.combine_with (jobs self) (jobs experiment_sample)) self).

Definition remove_rows_bottom (number_of_rows : Z) : M t unit :=
  if (number_of_rows =? 0)%Z then ret tt
  else
    let! self := get in
    let indices := slice_from (- number_of_rows) (_Data.indices (input_data self)) in
    modify (λ self, set_input_data (_Data.remove (input_data self) indices) self) >>
    modify (λ self, set_output_data (_Data.remove (output_data self) indices) self) >>
    modify (λ self, set_jobs (_JobQueue.remove (jobs self) indices) self).

(** *** Further methods of the class *)

Definition add_new_output_column (name : string) : M t unit :=
  modify (λ self, set_output_data (_Data.add_column (output_data self) name) self).

(** [__add__] of two ledgers: the ledger of the caller is left as it is,
    the sum is a new object.  (The sum with an [ExperimentSample] needs
    the stores of a sample, which the sources at hand do not show.) *)
Definition __add__ (fs : filesystem) (self other : t) : outcome t :=
  if bool_decide (domain self ≠ domain other)
  then Raise (ValueError "Cannot add ExperimentData objects with different domains")
  else _from_object fs
         (_Data.combine_with (input_data self) (input_data other))
         (_Data.combine_with (output_data self) (output_data other))
         (_JobQueue.combine_with (jobs self) (jobs other))
         (domain self) (filename self).

(** [from_dataframe]; [Domain.from_dataframe], which infers a schema from
    a frame or raises, is a parameter. *)
Definition from_dataframe (Domain_from_dataframe : _Data.t → outcome Domain.t)
    (fs : filesystem) (dataframe_input : _Data.t) (dataframe_output : option _Data.t)
    (domain : option Domain.t) (filename : string) : outcome t :=
  domain ← match domain with
           | None => Domain_from_dataframe dataframe_input
           | Some domain => Return domain
           end;
  experimentdata ← __init__ fs (Some (of_Domain domain)) None None None filename;
  let experimentdata := set_input_data dataframe_input experimentdata in
  let '(experimentdata, value) :=
    match dataframe_output with
    | Some dataframe_output => (set_output_data dataframe_output experimentdata, FINISHED)
    | None =>
        (set_output_data
           (_Data.from_indices (_Data.indices (input_data experimentdata)))
           experimentdata, OPEN)
    end in
  Return (set_jobs (_JobQueue.from_data (input_data experimentdata) value) experimentdata).
End Ledger.

(** *** The loop of [_run_cluster], one call under the file lock at a time *)

(** Where a driver is in the loop of [_run_cluster]: before
    [get_open_job_data], with a claimed sample before
    [data_generator.run] and [write_experiment_sample], in the handler
    before [write_error], or out of the loop (after the [break], or with
    an exception that nothing catches). *)
Inductive position :=
  | claiming
  | evaluating (experiment_sample : ExperimentSample.t)
  | failing (index : nat)
  | ended (r : outcome unit).

Section Drivers.
Context `{Helpers}.

(** One step of a driver: what it does from one acquisition of the file
    lock to the next.  The call under [_access_file] runs while the lock
    is held, so nothing of another driver happens within it; the
    evaluator reads and writes no file of the ledger. *)
Definition cluster_step (data_generator : _DataGenerator) (self : t) (at_ : position)
    (fs : filesystem) : position * filesystem :=
  match at_ with
  | claiming =>
      match get_open_job_data self fs with
      | (Return experiment_sample, fs') => (evaluating experiment_sample, fs')
      | (Raise NoOpenJobsError, fs') => (ended (Return tt), fs')
      | (Raise e, fs') => (ended (Raise e), fs')
      | (OutOfFuel, fs') => (ended OutOfFuel, fs')
      end
  | evaluating experiment_sample =>
      match data_generator experiment_sample with
      | inr _experiment_sample =>
          match write_experiment_sample _experiment_sample self fs with
          | (Return _, fs') => (claiming, fs')
          | (Raise _, fs') => (failing (ExperimentSample._jobnumber experiment_sample), fs')
          | (OutOfFuel, fs') => (ended OutOfFuel, fs')
          end
      | inl _ => (failing (ExperimentSample._jobnumber experiment_sample), fs)
      end
  | failing index =>
      match write_error index self fs with
      | (Return _, fs') => (claiming, fs')
      | (Raise e, fs') => (ended (Raise e), fs')
      | (OutOfFuel, fs') => (ended OutOfFuel, fs')
      end
  | ended r => (ended r, fs)
  end.

(** A driver alone: its steps one after the other. *)
Fixpoint steps_alone (n : nat) (data_generator : _DataGenerator) (self : t) (at_ : position)
    (fs : filesystem) : position * filesystem :=
  match n with
  | O => (at_, fs)
  | S n' =>
      let '(at', fs') := cluster_step data_generator self at_ fs in
      steps_alone n' data_generator self at' fs'
  end.

(** A driver: the object it has loaded and its position. *)
Record driver := mk_driver { driver_self : t; driver_at : position }.

(** Several drivers on the files of one ledger, and the rows that have
    been claimed so far, in the order of the claims. *)
Record system := mk_system {
  shared_files : filesystem;
  drivers : list driver;
  claims : list nat
}.

(** The driver [p] gets the lock and takes its next step. *)
Definition turn (data_generator : _DataGenerator) (p : nat) (s : system) : system :=
  match drivers s !! p with
  | None => s
  | Some d =>
      let '(at', fs') :=
        cluster_step data_generator (driver_self d) (driver_at d) (shared_files s) in
      mk_system fs' (<[p := mk_driver (driver_self d) at']> (drivers s))
        (match driver_at d, at' with
         | claiming, evaluating experiment_sample =>
             claims s ++ [ExperimentSample._jobnumber experiment_sample]
         | _, _ => claims s
         end)
  end.

(** The drivers take the lock in the order of [schedule]. *)
Definition interleave (data_generator : _DataGenerator) (schedule : list nat) (s : system)
  : system :=
  foldl (λ s p, turn data_generator p s) s schedule.

(** Drivers that enter the loop on the files [fs]. *)
Definition start (fs : filesystem) (selves : list t) : system :=
  mk_system fs (map (λ self, mk_driver self claiming) selves) [].
End Drivers.
End ExperimentData.

(** [iterations // population + (iterations % population > 0)]: Python's
    floor division and remainder are [Z.div] and [Z.modulo]; a zero divisor
    raises. *)
Definition _number_of_updates (iterations population : Z) : outcome Z :=
  if (population =? 0)%Z then Raise ZeroDivisionError
  else Return (iterations / population
               + (if (iterations mod population >? 0) then 1 else 0))%Z.

Definition _number_of_overiterations (iterations population : Z) : outcome Z :=
  if (population =? 0)%Z then Raise ZeroDivisionError
  else
    let overiterations := (iterations mod population)%Z in
    if (overiterations =? 0)%Z then Return overiterations
    else Return (population - overiterations)%Z.

(** [range(n)]. *)
Definition range (n : Z) : list nat := seq 0 (Z.to_nat n).

(** The protocol [_Optimizer], over the state [O] of the optimizer object.
    Each method may change that state and may raise.  The optimizer keeps
    the ledger that [set_x0] and [set_data] hand to it; the ledger does
    not change between these calls and the next [update_step], so the
    model hands over the ledger as it is at the call ([reset] runs after
    the trim, which the optimizer of the model does not see).  An
    optimizer that writes to the ledger behind the back of [_iterate] is
    outside the model. *)
Class _Optimizer (O : Type) := {
  population : O → Z;
  type : O → string;
  set_x0 : ExperimentData.t → M O unit;
  _check_number_of_datapoints : M O unit;
  _construct_model : _DataGenerator → M O unit;
  update_step : _DataGenerator → M O ExperimentData.t;
  set_data : ExperimentData.t → M O unit;
  reset : M O unit
}.

Section Iterate.
Context `{ExperimentData.Helpers} {O : Type} `{_Optimizer O}.

(** The state of [_iterate]: the ledger, the files and the optimizer. *)
Definition on_ledger {A} (m : M (ExperimentData.t * filesystem) A)
  : M (ExperimentData.t * filesystem * O) A :=
  λ '(ledger, optimizer), let '(r, ledger') := m ledger in (r, (ledger', optimizer)).
Definition on_optimizer {A} (m : M O A) : M (ExperimentData.t * filesystem * O) A :=
  λ '(ledger, optimizer), let '(r, optimizer') := m optimizer in (r, (ledger, optimizer')).
Definition the_ledger : M (ExperimentData.t * filesystem * O) ExperimentData.t :=
  λ s, (Return s.1.1, s).
Definition the_population : M (ExperimentData.t * filesystem * O) Z :=
  λ s, (Return (population s.2), s).

(** One turn of the loop of [_iterate]. *)
Definition update_round (fuel : nat) (data_generator : _DataGenerator)
  : M (ExperimentData.t * filesystem * O) unit :=
  let! new_samples := on_optimizer (update_step data_generator) in
  on_ledger (ExperimentData.on_self (ExperimentData.add_experiments new_samples)) >>
  on_ledger (ExperimentData.run fuel data_generator "sequential") >>
  let! self := the_ledger in
  on_optimizer (set_data self).

Definition _iterate (fuel : nat) (data_generator : _DataGenerator) (iterations : Z)
  : M (ExperimentData.t * filesystem * O) unit :=
  let! self := the_ledger in
  on_optimizer (set_x0 self) >>
  on_optimizer _check_number_of_datapoints >>
  on_optimizer (_construct_model data_generator) >>
  let! population := the_population in
  let! updates := lift (_number_of_updates iterations population) in
  for_each (range updates) (λ _, update_round fuel data_generator) >>
  let! population := the_population in
  let! overiterations := lift (_number_of_overiterations iterations population) in
  on_ledger (ExperimentData.on_self (ExperimentData.remove_rows_bottom overiterations)) >>
  on_optimizer reset.
End Iterate.

(** ** Saving objects: [_io.py] *)

Module IO.
(** The class of a Python object.  The five classes that the module
    registers are constructors of their own; [class_ name base] is any
    other class, with the class it derives from. *)
Inductive pytype :=
  | object_
  | np_ndarray
  | pd_DataFrame
  | pd_Series
  | xr_DataArray
  | xr_Dataset
  | class_ (name : string) (base : pytype).

#[global] Instance pytype_eq_dec : EqDecision pytype.
Proof. solve_decision. Defined.

Definition type_name (ty : pytype) : string :=
  match ty with
  | object_ => "object"
  | np_ndarray => "numpy.ndarray"
  | pd_DataFrame => "pandas.core.frame.DataFrame"
  | pd_Series => "pandas.core.series.Series"
  | xr_DataArray => "xarray.core.dataarray.DataArray"
  | xr_Dataset => "xarray.core.dataset.Dataset"
  | class_ name _ => name
  end.

(** An object: its class ([type(object)]) and its content, opaque here. *)
Record pyobject := { type_of : pytype; content : string }.

(** The subclasses of [_Store]; [CustomStore] is a storage class of the
    caller. *)
Inductive Store :=
  | PickleStore
  | NumpyStore
  | PandasStore
  | XarrayStore
  | CustomStore (suffix : string).

#[global] Instance Store_eq_dec : EqDecision Store.
Proof. solve_decision. Defined.

Definition suffix (store_type : Store) : string :=
  match store_type with
  | PickleStore => ".pkl"
  | NumpyStore => ".npy"
  | PandasStore => ".csv"
  | XarrayStore => ".nc"
  | CustomStore suffix => suffix
  end.

Definition STORE_TYPE_MAPPING : list (pytype * Store) :=
  [ (np_ndarray, NumpyStore);
    (pd_DataFrame, PandasStore);
    (pd_Series, PandasStore);
    (xr_DataArray, XarrayStore);
    (xr_Dataset, XarrayStore) ].

(** [path.with_suffix(suffix)] of [pathlib]. *)
Definition Path_with_suffix (path suffix : string) : string :=
  substring 0 (String.length path - String.length (Path_suffix path)) path +:+ suffix.

(** The world of [save_object]: the files, each holding an object as one
    storage class has written it, and the records of the logger. *)
Record world := mk_world {
  files : gmap string (Store * pyobject);
  log : list (string * string)
}.

Definition logger_debug (msg : string) : M world unit :=
  modify (λ w, mk_world (files w) (log w ++ [("DEBUG", msg)])).

(** A storage object [store_type(object, path)] and its method [store].
    Writing with pickle, numpy, pandas and xarray is taken to succeed. *)
Record storage_object := mk_storage {
  storage_type : Store;
  storage_object_ : pyobject;
  storage_path : string
}.

Definition storage_store (storage : storage_object) : M world unit :=
  modify (λ w, mk_world
    (<[Path_with_suffix (storage_path storage) (suffix (storage_type storage))
       := (storage_type storage, storage_object_ storage)]> (files w))
    (log w)).

Definition not_supported (object_type : pytype) : string :=
  "Object type <class '" +:+ type_name object_type +:+ "'> is not natively supported. "
  +:+ "The default pickle storage method will be used.".

(** [save_object] returns the suffix of the storage method; with an
    explicit [store_method] it builds the storage object and returns
    [None] without storing. *)
Definition save_object (object : pyobject) (path experimentdata_directory : string)
    (store_method : option Store) : M world (option string) :=
  let _path := Path_div experimentdata_directory path in
  match store_method with
  | Some store_method =>
      let storage := mk_storage store_method object _path in
      ret None
  | None =>
      let object_type := type_of object in
      let! storage :=
        match assoc object_type STORE_TYPE_MAPPING with
        | None =>
            let storage := mk_storage PickleStore object _path in
            logger_debug (not_supported object_type) >> ret storage
        | Some store_type => ret (mk_storage store_type object _path)
        end in
      storage_store storage >>
      ret (Some (suffix (storage_type storage)))
  end.

(** [load()] of a storage object reads the file at
    [path.with_suffix(suffix)]; a missing file is a [FileNotFoundError].
    What a storage class makes of a file that it, or another class, has
    written is the business of pickle, numpy, pandas and xarray: it is the
    parameter [read_back]. *)
Definition storage_load (read_back : Store → Store * pyobject → Exception + pyobject)
    (store_type : Store) (path : string) : M world pyobject :=
  let! w := get in
  match files w !! Path_with_suffix path (suffix store_type) with
  | Some written => call (read_back store_type written)
  | None => raise (FileNotFoundError (Path_with_suffix path (suffix store_type)))
  end.

(** [next((store_type for store_type in STORE_TYPE_MAPPING.values()
    if store_type.suffix == item_suffix), PickleStore)]. *)
Definition matched_store_type (item_suffix : string) : Store :=
  default PickleStore
    (head (filter (λ store_type, suffix store_type = item_suffix) (STORE_TYPE_MAPPING.*2))).

(** [load_object]; a caller that leaves [store_method] out passes
    [Some PickleStore], the default.  A class is never false, so the
    branch that raises "No matching store type" is not reached and is
    left out. *)
Definition load_object (read_back : Store → Store * pyobject → Exception + pyobject)
    (path experimentdata_directory : string) (store_method : option Store)
  : M world (option pyobject) :=
  let _path := Path_div experimentdata_directory path in
  match store_method with
  | Some store_method =>
      let! object := storage_load read_back store_method _path in
      ret (Some object)
  | None =>
      let! w := get in
      if bool_decide (is_Some (files w !! _path)) then
        let item_suffix := Path_suffix _path in
        let! object := storage_load read_back (matched_store_type item_suffix) _path in
        ret (Some object)
      else ret None
  end.
End IO.

(** * The vocabulary of the properties *)

Import ExperimentData.

(** The three structures of a ledger have one entry per row. *)
Definition consistent (self : ExperimentData.t) : Prop :=
  length (_Data.data (input_data self)) = length (jobs self) ∧
  length (_Data.data (output_data self)) = length (jobs self).

(** The number of rows that wait for a claim: it bounds the sweeps. *)
Definition open_rows (jobs : _JobQueue.t) : nat :=
  length (filter (λ s, s = OPEN) jobs).

Arguments open_rows : simpl never.

(** The view of row [index] that [get_experiment_sample] builds. *)
Definition row_view (self : ExperimentData.t) (index : nat) : option ExperimentSample.t :=
  input_row ← _Data.data (input_data self) !! index;
  output_row ← _Data.data (output_data self) !! index;
  Some (ExperimentSample.mk (zip (_Data.names (input_data self)) input_row)
                            (zip (_Data.names (output_data self)) output_row) index).

(** An evaluator that gives back a view of the row it was given. *)
Definition returns_its_row (data_generator : _DataGenerator) : Prop :=
  ∀ s s', data_generator s = inr s' →
          ExperimentSample._jobnumber s' = ExperimentSample._jobnumber s.

(** What a sweep has done to the rows of [self] when it ends in [self']. *)
Definition swept (data_generator : _DataGenerator) (self self' : ExperimentData.t) : Prop :=
  (∀ i, jobs self !! i = Some OPEN →
     (jobs self' !! i = Some FINISHED ∨ jobs self' !! i = Some ERROR) ∧
     ∀ s e, row_view self i = Some s → data_generator s = inl e →
       jobs self' !! i = Some ERROR ∧
       _Data.data (output_data self') !! i
         = map (λ _, ERROR_SENTINEL) <$> _Data.data (output_data self) !! i) ∧
  (∀ i st, jobs self !! i = Some st → st ≠ OPEN →
     jobs self' !! i = Some st ∧
     _Data.data (output_data self') !! i = _Data.data (output_data self) !! i).

(** An optimizer with population [P] whose methods return normally and
    whose [update_step] proposes exactly [P] rows each time. *)
Record cooperative {O : Type} `{_Optimizer O} (P : Z) : Prop := {
  coop_population : ∀ o, population o = P;
  coop_set_x0 : ∀ self o, ∃ o', set_x0 self o = (Return tt, o');
  coop_check : ∀ o, ∃ o', _check_number_of_datapoints o = (Return tt, o');
  coop_construct_model : ∀ dg o, ∃ o', _construct_model dg o = (Return tt, o');
  coop_update_step : ∀ dg o, ∃ new_samples o',
    update_step dg o = (Return new_samples, o') ∧
    consistent new_samples ∧
    Z.of_nat (length (jobs new_samples)) = P;
  coop_set_data : ∀ self o, ∃ o', set_data self o = (Return tt, o');
  coop_reset : ∀ o, ∃ o', reset o = (Return tt, o')
}.

(** The registered classes as the module documents them: arrays to numpy,
    frames and series to pandas, data arrays and data sets to xarray. *)
Definition registered_strategy (ty : IO.pytype) : option IO.Store :=
  match ty with
  | IO.np_ndarray => Some IO.NumpyStore
  | IO.pd_DataFrame | IO.pd_Series => Some IO.PandasStore
  | IO.xr_DataArray | IO.xr_Dataset => Some IO.XarrayStore
  | IO.object_ | IO.class_ _ _ => None
  end.

(** ** Concrete ledgers, an evaluator and an optimizer *)

(** Helpers that do the least: a frame without column names for an array,
    a continuous parameter for every column, no store and no working
    directory where the sources at hand say nothing. *)
Definition plain_helpers : Helpers := {|
  _Data_from_numpy a := Return (_Data.mk [] a);
  Domain_from_data d := Return (map (λ n, (n, ContinuousParameter)) (_Data.names d));
  _Data_from_domain_other _ := Raise (TypeError "domain");
  get_original_cwd := Raise (ValueError "hydra")
|}.

Definition ledger_of (statuses : _JobQueue.t) : ExperimentData.t :=
  ExperimentData.mk "experimentdata"
    (_Data.mk ["x"] (imap (λ i _, [Num (Z.of_nat i)]) statuses))
    (_Data.mk ["y"] (map (λ _, [NaN]) statuses))
    [("x", ContinuousParameter)]
    statuses.

(** An evaluator that fails on row 0 and puts 7 into the output [y] of
    every other row. *)
Definition fails_on_row_0 : _DataGenerator :=
  λ s, if bool_decide (ExperimentSample._jobnumber s = 0%nat)
       then inl (RuntimeError "row 0")
       else inr (ExperimentSample.mk (ExperimentSample.dict_input s) [("y", Num 7)]
                   (ExperimentSample._jobnumber s)).

(** An evaluator that answers every row with a view of row 5. *)
Definition answers_row_5 : _DataGenerator :=
  λ s, inr (ExperimentSample.mk (ExperimentSample.dict_input s) [("y", Num 7)] 5).

(** An optimizer with population 3 that counts its rounds and proposes
    three open rows in each. *)
Definition three_rows : ExperimentData.t := ledger_of [OPEN; OPEN; OPEN].

#[local] Instance counting_optimizer : _Optimizer nat := {|
  population _ := 3%Z;
  type _ := "counting";
  set_x0 _ := ret tt;
  _check_number_of_datapoints := ret tt;
  _construct_model _ := ret tt;
  update_step _ := λ rounds, (Return three_rows, S rounds);
  set_data _ := ret tt;
  reset := put 0%nat
|}.

Definition settled_ledger : ExperimentData.t :=
  ExperimentData.mk "experimentdata"
    (_Data.mk ["x0"; "x1"] [[Num 1; Num 2]; [Num 3; Num 4]; [Num 5; Num 6]])
    (_Data.mk ["y"] [[Num 10]; [Str "ERROR"]; [NaN]])
    [("x0", ContinuousParameter); ("x1", ContinuousParameter)]
    [FINISHED; ERROR; IN_PROGRESS].


(** ** The claims that the code does not bear out, as they are stated *)

(** The sweep as it is claimed: for every evaluator and every ledger it
    returns normally, every row that was OPEN is FINISHED or ERROR, and no
    row at all is IN_PROGRESS. *)
Definition sequential_sweep_settles_every_ledger : Prop :=
  ∀ (H : Helpers) (data_generator : _DataGenerator) (self : ExperimentData.t)
    (fs : filesystem),
    consistent self →
    ∃ self',
      (∀ fuel, (open_rows (jobs self) < fuel)%nat →
         run (H := H) fuel data_generator "sequential" (self, fs)
         = (Return tt, (self', fs))) ∧
      (∀ i, jobs self !! i = Some OPEN →
         jobs self' !! i = Some FINISHED ∨ jobs self' !! i = Some ERROR) ∧
      IN_PROGRESS ∉ jobs self'.

(** The load as it is claimed: without the [_output] file it succeeds and
    every row of the loaded ledger is OPEN. *)
Definition missing_output_means_all_open : Prop :=
  ∀ (H : Helpers) (L : ExperimentData.t) (name : string) (fs : filesystem),
    ∃ L',
      _from_file_attempt (H := H)
        (delete (name +:+ "_output") (store L (Some name) fs)) name
      = Return L' ∧
      Forall (λ s, s = OPEN) (jobs L').

(** The construction as it is claimed: the rows are OPEN when no output
    data is supplied and FINISHED when output data is supplied. *)
Definition supplied_output_means_finished : Prop :=
  ∀ (H : Helpers) (fs : filesystem) (domain : option DomainTypes)
    (input_data output_data : option DataTypes) (jobs : option string) (filename : string)
    (self : ExperimentData.t),
    __init__ (H := H) fs domain input_data output_data jobs filename = Return self →
    ExperimentData.jobs self =
    replicate (__len__ self) (if output_data is None then OPEN else FINISHED).

(** ** Several drivers on the files of one ledger *)

(** The row that a driver holds: claimed and not yet settled. *)
Definition held (at_ : position) : option nat :=
  match at_ with
  | evaluating experiment_sample => Some (ExperimentSample._jobnumber experiment_sample)
  | failing index => Some index
  | claiming | ended _ => None
  end.

(** The calls under the lock that a position stands before, at most. *)
Definition weight (at_ : position) : nat :=
  match at_ with
  | evaluating _ => 3
  | failing _ => 2
  | claiming => 1
  | ended _ => 0
  end.

(** What the drivers, the statuses [now] in the files and the claims so
    far have to do with the statuses [before] the drivers started. *)
Record coordinated (before now : _JobQueue.t) (ds : list driver) (cl : list nat) : Prop := {
  co_length : length now = length before;
  co_kept : ∀ i st, before !! i = Some st → st ≠ OPEN → now !! i = Some st;
  co_held : ∀ p d i, ds !! p = Some d → held (driver_at d) = Some i →
                     now !! i = Some IN_PROGRESS ∧ before !! i = Some OPEN;
  co_exclusive : ∀ p q d d' i, ds !! p = Some d → ds !! q = Some d' →
                               held (driver_at d) = Some i → held (driver_at d') = Some i →
                               p = q;
  co_holder : ∀ i, before !! i = Some OPEN → now !! i = Some IN_PROGRESS →
                   ∃ p d, ds !! p = Some d ∧ held (driver_at d) = Some i;
  co_ended : ∀ p d r, ds !! p = Some d → driver_at d = ended r →
                      r = Return tt ∧ ∀ i, now !! i ≠ Some OPEN;
  co_once : NoDup cl;
  co_claims : ∀ i, i ∈ cl ↔ before !! i = Some OPEN ∧ now !! i ≠ Some OPEN
}.

(** The files hold the ledger [Lc], under the file name of the ledger [L]
    that the drivers started on, and the drivers are coordinated. *)
Record invariant `{Helpers} (L Lc : ExperimentData.t) (s : system) : Prop := {
  inv_files : from_file (shared_files s) (filename L) = Return Lc;
  inv_filename : filename Lc = filename L;
  inv_consistent : consistent Lc;
  inv_selves : ∀ p d, drivers s !! p = Some d → filename (driver_self d) = filename L;
  inv_coordinated : coordinated (jobs L) (jobs Lc) (drivers s) (claims s)
}.

(** The calls under the lock that are still to come, at most. *)
Definition calls_left (now : _JobQueue.t) (ds : list driver) : nat :=
  3 * open_rows now + sum_list (weight ∘ driver_at <$> ds).

(** The ledger with row [i] marked and another output store. *)
Definition marked (i : nat) (st : Status) (out : _Data.t) (Lc : ExperimentData.t)
  : ExperimentData.t :=
  set_jobs (<[i := st]> (jobs Lc)) (set_output_data out Lc).

(** The number of turns that the driver [p] gets in a schedule. *)
Definition turns_of (p : nat) (schedule : list nat) : nat :=
  length (filter (λ q, q = p) schedule).

(** ** The vocabulary of the further properties *)

(** What a turn of a sweep leaves of a claimed row: the committed sample,
    or the failed row when the evaluator or the commit raises. *)
Definition committed_or_failed (data_generator : _DataGenerator)
    (s : ExperimentSample.t) (self : ExperimentData.t) : ExperimentData.t :=
  match data_generator s with
  | inl _ => (set_error (ExperimentSample._jobnumber s) self).2
  | inr s' =>
      match set_experiment_sample s' self with
      | (Return _, self') => self'
      | _ => (set_error (ExperimentSample._jobnumber s) self).2
      end
  end.

(** The status of a row after all open rows have been claimed. *)
Definition claim_status (s : Status) : Status :=
  if decide (s = OPEN) then IN_PROGRESS else s.

(** The positions of the OPEN rows, lowest first, counted from [k]. *)
Fixpoint open_indices (jobs : _JobQueue.t) (k : nat) : list nat :=
  match jobs with
  | [] => []
  | s :: jobs' =>
      if decide (s = OPEN) then k :: open_indices jobs' (S k) else open_indices jobs' (S k)
  end.

(** The views of the OPEN rows, lowest row first. *)
Definition open_views (self : ExperimentData.t) : list ExperimentSample.t :=
  omap (row_view self) (open_indices (jobs self) 0).

(** The status of a row after all open rows have been committed. *)
Definition finish_status (s : Status) : Status :=
  if decide (s = OPEN) then FINISHED else s.

(** The output store of [self] has a column for every output of [s]. *)
Definition has_columns_for (self : ExperimentData.t) (s : ExperimentSample.t) : Prop :=
  ∀ column, column ∈ (ExperimentSample.output_data s).*1 →
            column ∈ _Data.names (output_data self).

(** The number of rows that [remove_rows_bottom] leaves of [n]. *)
Definition rows_kept (number_of_rows : Z) (n : nat) : nat :=
  if (number_of_rows <? 0)%Z then Nat.min (Z.to_nat (- number_of_rows)) n
  else (n - Z.to_nat number_of_rows)%nat.

(** The first [n] rows of a ledger. *)
Definition first_rows (n : nat) (self : ExperimentData.t) : ExperimentData.t :=
  ExperimentData.mk (filename self)
    (_Data.mk (_Data.names (input_data self)) (take n (_Data.data (input_data self))))
    (_Data.mk (_Data.names (output_data self)) (take n (_Data.data (output_data self))))
    (domain self)
    (take n (jobs self)).

(** Helpers of a program that hydra has started in [/home/user]. *)
Definition hydra_helpers : Helpers := {|
  _Data_from_numpy a := Return (_Data.mk [] a);
  Domain_from_data d := Return (map (λ n, (n, ContinuousParameter)) (_Data.names d));
  _Data_from_domain_other _ := Raise (TypeError "domain");
  get_original_cwd := Return "/home/user"
|}.

(** An optimizer with population 2 that keeps the ledger it is given and
    checks, as [Optimizer._check_number_of_datapoints] does, that the
    ledger has at least as many rows as the population. *)
Definition checking_optimizer : _Optimizer ExperimentData.t := {|
  population _ := 2%Z;
  type _ := "checking";
  set_x0 experiment_data := put experiment_data;
  _check_number_of_datapoints :=
    let! data := get in
    if (Z.of_nat (__len__ data) <? 2)%Z
    then raise (ValueError "There are too few datapoints available for update step!")
    else ret tt;
  _construct_model _ := ret tt;
  update_step _ := ret three_rows;
  set_data data := put data;
  reset := ret tt
|}.

(** An optimizer with population 0 that proposes no row. *)
Definition idle_optimizer : _Optimizer unit := {|
  population _ := 0%Z;
  type _ := "idle";
  set_x0 _ := ret tt;
  _check_number_of_datapoints := ret tt;
  _construct_model _ := ret tt;
  update_step _ := ret (ledger_of []);
  set_data _ := ret tt;
  reset := ret tt
|}.

(** An array to save, and storage classes that read back what was
    written. *)
Definition an_array : IO.pyobject := {| IO.type_of := IO.np_ndarray; IO.content := "[1 2 3]" |}.

Definition reads_what_was_written : IO.Store → IO.Store * IO.pyobject → Exception + IO.pyobject :=
  λ _ written, inr written.2.

(** A ledger whose output store has no column yet: row 0 has failed, row 1
    is open. *)
Definition ledger_without_outputs : ExperimentData.t :=
  ExperimentData.mk "experimentdata"
    (_Data.mk ["x"] [[Num 0]; [Num 1]])
    (_Data.mk [] [[]; []])
    [("x", ContinuousParameter)]
    [ERROR; OPEN].

(** ** The invariant of the file lock, as it is stated *)

(** The invariant as it is claimed: whatever the ledger in the files,
    whatever the evaluator and the schedule, when all drivers have left
    the loop every row that was OPEN is FINISHED or ERROR and no row is
    IN_PROGRESS. *)
Definition drivers_settle_every_ledger : Prop :=
  ∀ (H : Helpers) (data_generator : _DataGenerator) (L : ExperimentData.t)
    (fs : filesystem) (selves : list ExperimentData.t) (schedule : list nat),
    from_file (H := H) fs (filename L) = Return L → consistent L →
    Forall (λ self, filename self = filename L) selves → selves ≠ [] →
    Forall (λ d, ∃ r, driver_at d = ended r)
      (drivers (interleave (H := H) data_generator schedule (start fs selves))) →
    ∃ L',
      from_file (H := H)
        (shared_files (interleave (H := H) data_generator schedule (start fs selves)))
        (filename L) = Return L' ∧
      (∀ i, jobs L !! i = Some OPEN →
            jobs L' !! i = Some FINISHED ∨ jobs L' !! i = Some ERROR) ∧
      IN_PROGRESS ∉ jobs L'.

(** * Properties *)

(** ** The job queue *)

Lemma index_of_None {A} `{EqDecision A} (x : A) (l : list A) :
  index_of x l = None ↔ x ∉ l.
Proof.
  unfold index_of. rewrite fmap_None, list_find_None, Forall_forall.
  split.
  - intros Hall Hin. exact (Hall x Hin eq_refl).
  - intros Hnot y Hy ->. exact (Hnot Hy).
Qed.

Lemma index_of_Some {A} `{EqDecision A} (x : A) (l : list A) (i : nat) :
  index_of x l = Some i ↔ l !! i = Some x ∧ ∀ j, (j < i)%nat → l !! j ≠ Some x.
Proof.
  unfold index_of. rewrite fmap_Some. split.
  - intros [[i' y] [Hfind ->]]. apply list_find_Some in Hfind as (Hl & -> & Hlow).
    split; [exact Hl|]. intros j Hj Hlj. exact (Hlow j x Hlj Hj eq_refl).
  - intros [Hl Hlow]. exists (i, x). split; [|reflexivity].
    apply list_find_Some. split; [exact Hl|]. split; [reflexivity|].
    intros j y Hlj Hj ->. exact (Hlow j Hj Hlj).
Qed.

Lemma get_open_job_exhausted (jobs : _JobQueue.t) :
  OPEN ∉ jobs → _JobQueue.get_open_job jobs = Raise NoOpenJobsError.
Proof.
  intros Hnone. unfold _JobQueue.get_open_job.
  apply index_of_None in Hnone. rewrite Hnone. reflexivity.
Qed.

Lemma get_open_job_lowest (jobs : _JobQueue.t) (i : nat) :
  _JobQueue.get_open_job jobs = Return i ↔
  jobs !! i = Some OPEN ∧ ∀ j, (j < i)%nat → jobs !! j ≠ Some OPEN.
Proof.
  unfold _JobQueue.get_open_job. rewrite <- index_of_Some.
  destruct (index_of OPEN jobs); split; congruence.
Qed.

(** ** Claiming on an exhausted ledger *)

Lemma access_open_job_data_no_open (self : ExperimentData.t) :
  OPEN ∉ jobs self →
  access_open_job_data self = (Raise NoOpenJobsError, self).
Proof.
  intros Hnone. unfold access_open_job_data, bind, get, lift.
  rewrite (get_open_job_exhausted _ Hnone). reflexivity.
Qed.

(** C4.  On a ledger without an OPEN row, [access_open_job_data] raises
    [NoOpenJobsError], and the ledger after the failed claim is the ledger
    before it: input store, output store, job statuses, schema and file
    name. *)
Theorem access_open_job_data_exhausted (self : ExperimentData.t) :
  OPEN ∉ jobs self →
  access_open_job_data self = (Raise NoOpenJobsError, self).
Proof. exact (access_open_job_data_no_open self). Qed.

Lemma access_open_job_data_exhausted_witness :
  access_open_job_data settled_ledger = (Raise NoOpenJobsError, settled_ledger).
Proof.
  apply (access_open_job_data_exhausted settled_ledger).
  apply (bool_decide_unpack _). vm_compute. reflexivity.
Defined.

(** ** Failing a row *)

(** C6.  [set_error] returns normally for every ledger and every index.
    Afterwards the status of the row is ERROR and every cell of its output
    row is the sentinel ["ERROR"]; the columns of the output store and
    everything else in the ledger are as before (for an index without a
    row nothing changes). *)
Theorem set_error_never_raises (self : ExperimentData.t) (index : nat) :
  ∃ self',
    set_error index self = (Return tt, self') ∧
    (∀ j, jobs self' !! j =
          if decide (j = index) then (λ _, ERROR) <$> jobs self !! j
          else jobs self !! j) ∧
    (∀ j, _Data.data (output_data self') !! j =
          if decide (j = index)
          then map (λ _, ERROR_SENTINEL) <$> _Data.data (output_data self) !! j
          else _Data.data (output_data self) !! j) ∧
    _Data.names (output_data self') = _Data.names (output_data self) ∧
    input_data self' = input_data self ∧
    domain self' = domain self ∧
    filename self' = filename self.
Proof.
  eexists. split; [reflexivity|]. cbn.
  unfold _JobQueue.mark_as_error, _JobQueue.mark.
  repeat split.
  - intros j. destruct (decide (j = index)) as [->|Hne].
    + destruct (decide (index < length (jobs self))%nat) as [Hlt|Hge].
      * rewrite list_lookup_insert_eq by exact Hlt.
        destruct (lookup_lt_is_Some_2 _ _ Hlt) as [s ->]. reflexivity.
      * rewrite list_insert_ge by lia. rewrite lookup_ge_None_2 by lia. reflexivity.
    + apply list_lookup_insert_ne. congruence.
  - intros j. destruct (decide (j = index)) as [->|Hne].
    + apply list_lookup_alter_eq.
    + apply list_lookup_alter_ne. congruence.
Qed.

(** ** The sequential sweep *)

Lemma open_rows_cons (s : Status) (jobs : _JobQueue.t) :
  open_rows (s :: jobs) = ((if decide (s = OPEN) then 1 else 0) + open_rows jobs)%nat.
Proof.
  unfold open_rows. rewrite filter_cons. destruct (decide (s = OPEN)); reflexivity.
Qed.

Lemma open_rows_mark_le (jobs : _JobQueue.t) (i : nat) (s : Status) :
  s ≠ OPEN → (open_rows (<[i := s]> jobs) ≤ open_rows jobs)%nat.
Proof.
  intros Hs. revert i. induction jobs as [|s0 jobs IH]; intros [|i]; cbn; try lia.
  - rewrite !open_rows_cons. destruct (decide (s = OPEN)); [contradiction|].
    destruct (decide (s0 = OPEN)); lia.
  - rewrite !open_rows_cons. apply Nat.add_le_mono_l, IH.
Qed.

Lemma open_rows_claim (jobs : _JobQueue.t) (i : nat) (s : Status) :
  jobs !! i = Some OPEN → s ≠ OPEN →
  (S (open_rows (<[i := s]> jobs)) = open_rows jobs)%nat.
Proof.
  intros Hi Hs. revert i Hi. induction jobs as [|s0 jobs IH]; intros [|i] Hi; cbn in *;
    try discriminate.
  - injection Hi as ->. rewrite !open_rows_cons.
    destruct (decide (s = OPEN)); [contradiction|].
    destruct (decide (OPEN = OPEN)); [lia|contradiction].
  - rewrite !open_rows_cons, <- Nat.add_succ_r. f_equal. apply IH, Hi.
Qed.

Lemma open_rows_zero (jobs : _JobQueue.t) : open_rows jobs = 0%nat ↔ OPEN ∉ jobs.
Proof.
  induction jobs as [|s jobs IH].
  - split; [intros _; apply not_elem_of_nil | reflexivity].
  - rewrite open_rows_cons, not_elem_of_cons.
    destruct (decide (s = OPEN)) as [->|Hne].
    + split; [lia|]. intros [Hne _]. contradiction.
    + cbn. rewrite IH. split; [intros Hn; split; [congruence|exact Hn] | intros [_ Hn]; exact Hn].
Qed.

Lemma open_rows_le_length (jobs : _JobQueue.t) : (open_rows jobs ≤ length jobs)%nat.
Proof. unfold open_rows. apply length_filter. Qed.

Lemma get_experiment_sample_row_view (self : ExperimentData.t) (index : nat) :
  get_experiment_sample index self =
  (match row_view self index with Some s => Return s | None => Raise KeyError end, self).
Proof.
  unfold get_experiment_sample, row_view, _Data.get_data_dict, bind, get, lift, ret.
  destruct (_Data.data (input_data self) !! index); [|reflexivity].
  destruct (_Data.data (output_data self) !! index); reflexivity.
Qed.

Lemma row_view_is_Some (self : ExperimentData.t) (index : nat) :
  consistent self → (index < length (jobs self))%nat → is_Some (row_view self index).
Proof.
  intros [Hin Hout] Hlt. unfold row_view.
  destruct (lookup_lt_is_Some_2 (_Data.data (input_data self)) index) as [r1 ->]; [lia|].
  destruct (lookup_lt_is_Some_2 (_Data.data (output_data self)) index) as [r2 ->]; [lia|].
  cbn. eauto.
Qed.

Lemma row_view_jobnumber (self : ExperimentData.t) (index : nat) (s : ExperimentSample.t) :
  row_view self index = Some s → ExperimentSample._jobnumber s = index.
Proof.
  unfold row_view. intros Hs.
  destruct (_Data.data (input_data self) !! index); [|discriminate].
  destruct (_Data.data (output_data self) !! index); [|discriminate].
  cbn in Hs. injection Hs as <-. reflexivity.
Qed.

Lemma claim_or_break_exhausted (self : ExperimentData.t) :
  OPEN ∉ jobs self → claim_or_break self = (Return None, self).
Proof.
  intros Hnone. unfold claim_or_break, try_except, bind.
  rewrite (access_open_job_data_no_open _ Hnone). reflexivity.
Qed.

Lemma claim_or_break_claims (self : ExperimentData.t) (i : nat) :
  consistent self → _JobQueue.get_open_job (jobs self) = Return i →
  ∃ s, row_view self i = Some s ∧
       claim_or_break self =
       (Return (Some s), set_jobs (<[i := IN_PROGRESS]> (jobs self)) self).
Proof.
  intros Hc Hopen.
  assert (Hlt : (i < length (jobs self))%nat).
  { apply get_open_job_lowest in Hopen as [Hi _]. exact (lookup_lt_Some _ _ _ Hi). }
  destruct (row_view_is_Some self i Hc Hlt) as [s Hs]. exists s. split; [exact Hs|].
  unfold claim_or_break, try_except, access_open_job_data, bind, get, lift, modify.
  rewrite Hopen. rewrite get_experiment_sample_row_view.
  unfold _JobQueue.mark_as_in_progress, _JobQueue.mark.
  replace (row_view (set_jobs (<[i:=IN_PROGRESS]> (jobs self)) self) i) with (row_view self i)
    by reflexivity.
  rewrite Hs. reflexivity.
Qed.

Lemma bind_Return {S A B} (m : M S A) (k : A → M S B) (s s' : S) (a : A) :
  m s = (Return a, s') → bind m k s = k a s'.
Proof. intros Hm. unfold bind. rewrite Hm. reflexivity. Qed.

Lemma bind_Raise {S A B} (m : M S A) (k : A → M S B) (s s' : S) (e : Exception) :
  m s = (Raise e, s') → bind m k s = (Raise e, s').
Proof. intros Hm. unfold bind. rewrite Hm. reflexivity. Qed.

Lemma set_output_data_same (self : ExperimentData.t) :
  set_output_data (output_data self) self = self.
Proof. destruct self; reflexivity. Qed.

Lemma write_output_eq (j : nat) (column : string) (value : value) (self : ExperimentData.t) :
  write_output j (column, value) self =
  match index_of column (_Data.names (output_data self)) with
  | Some jc =>
      (Return tt,
       set_output_data
         (_Data.mk (_Data.names (output_data self))
            (alter (<[jc := value]>) j (_Data.data (output_data self)))) self)
  | None => (Raise KeyError, self)
  end.
Proof.
  unfold write_output, bind, get, lift, put, _Data.set_data.
  destruct (index_of column (_Data.names (output_data self))); reflexivity.
Qed.

(** The loop of [set_experiment_sample] over the outputs of a sample writes
    into row [j] of the output store only, and stops with a [KeyError] at
    the first column that the store does not have. *)
Lemma write_outputs_spec (j : nat) (items : list (string * value)) (self : ExperimentData.t) :
  ∃ out' r,
    for_each items (write_output j) self = (r, set_output_data out' self) ∧
    (r = Return tt ∨ r = Raise KeyError) ∧
    _Data.names out' = _Data.names (output_data self) ∧
    length (_Data.data out') = length (_Data.data (output_data self)) ∧
    ∀ k, k ≠ j → _Data.data out' !! k = _Data.data (output_data self) !! k.
Proof.
  revert self. induction items as [|[column value] items IH]; intros self.
  - exists (output_data self), (Return tt). cbn. unfold ret.
    rewrite set_output_data_same. auto.
  - cbn [for_each]. pose proof (write_output_eq j column value self) as Hstep.
    destruct (index_of column (_Data.names (output_data self))) as [jc|].
    + rewrite (bind_Return _ _ _ _ _ Hstep).
      set (out1 := _Data.mk _ _) in *.
      destruct (IH (set_output_data out1 self)) as (out' & r & Hrun & Hr & Hnames & Hlen & Hrows).
      exists out', r. rewrite Hrun. split; [destruct self; reflexivity|].
      split; [exact Hr|]. cbn in Hnames, Hlen, Hrows.
      split; [exact Hnames|]. split.
      * rewrite Hlen. apply length_alter.
      * intros k Hk. rewrite (Hrows k Hk). apply list_lookup_alter_ne. congruence.
    + rewrite (bind_Raise _ _ _ _ _ Hstep).
      exists (output_data self), (Raise KeyError). rewrite set_output_data_same. auto.
Qed.

Lemma set_experiment_sample_spec (s : ExperimentSample.t) (self : ExperimentData.t) :
  ∃ out',
    (set_experiment_sample s self =
       (Return tt, set_jobs (<[ExperimentSample._jobnumber s := FINISHED]> (jobs self))
                     (set_output_data out' self))
     ∨ set_experiment_sample s self = (Raise KeyError, set_output_data out' self)) ∧
    _Data.names out' = _Data.names (output_data self) ∧
    length (_Data.data out') = length (_Data.data (output_data self)) ∧
    ∀ k, k ≠ ExperimentSample._jobnumber s →
         _Data.data out' !! k = _Data.data (output_data self) !! k.
Proof.
  destruct (write_outputs_spec (ExperimentSample.job_number s)
              (ExperimentSample.output_data s) self)
    as (out' & r & Hrun & Hr & Hnames & Hlen & Hrows).
  exists out'. split; [|auto].
  change (set_experiment_sample s) with
    (for_each (ExperimentSample.output_data s) (write_output (ExperimentSample.job_number s)) >>
     modify (λ self, set_jobs
       (_JobQueue.mark_as_finished (jobs self) (ExperimentSample._jobnumber s)) self)).
  destruct Hr as [-> | ->]; [left | right].
  - rewrite (bind_Return _ _ _ _ _ Hrun). reflexivity.
  - rewrite (bind_Raise _ _ _ _ _ Hrun). reflexivity.
Qed.

(** The turn never raises.  It settles one row, the one of the returned
    sample or, after an exception, the claimed one, and leaves the inputs
    and the number of rows alone. *)
Lemma evaluate_and_commit_spec (data_generator : _DataGenerator)
    (s : ExperimentSample.t) (self : ExperimentData.t) :
  ∃ out' j st,
    evaluate_and_commit data_generator s self =
      (Return tt, set_jobs (<[j := st]> (jobs self)) (set_output_data out' self)) ∧
    (st = FINISHED ∨ st = ERROR) ∧
    _Data.names out' = _Data.names (output_data self) ∧
    length (_Data.data out') = length (_Data.data (output_data self)) ∧
    (j = ExperimentSample._jobnumber s ∨
     ∃ s', data_generator s = inr s' ∧ j = ExperimentSample._jobnumber s') ∧
    (∀ k, k ≠ ExperimentSample._jobnumber s →
          (∀ s', data_generator s = inr s' → k ≠ ExperimentSample._jobnumber s') →
          _Data.data out' !! k = _Data.data (output_data self) !! k) ∧
    (∀ e, data_generator s = inl e →
          j = ExperimentSample._jobnumber s ∧ st = ERROR ∧
          _Data.data out' !! j
            = map (λ _, ERROR_SENTINEL) <$> _Data.data (output_data self) !! j).
Proof.
  unfold evaluate_and_commit, try_except, bind, call.
  destruct (data_generator s) as [e|s'] eqn:Hrun.
  - cbn.
    exists (_Data.mk (_Data.names (output_data self))
              (alter (map (λ _, ERROR_SENTINEL)) (ExperimentSample._jobnumber s)
                 (_Data.data (output_data self)))),
      (ExperimentSample._jobnumber s), ERROR.
    split; [destruct self; reflexivity|]. split; [auto|]. split; [reflexivity|].
    split; [cbn; apply length_alter|]. split; [auto|]. split.
    + intros k Hk _. cbn. apply list_lookup_alter_ne. congruence.
    + intros e' _. split; [reflexivity|]. split; [reflexivity|].
      cbn. apply list_lookup_alter_eq.
  - destruct (set_experiment_sample_spec s' self) as (out1 & [Hok|Hko] & Hnames & Hlen & Hrows).
    + rewrite Hok. exists out1, (ExperimentSample._jobnumber s'), FINISHED.
      split; [reflexivity|]. split; [auto|]. split; [exact Hnames|]. split; [exact Hlen|].
      split; [right; eauto|]. split; [|discriminate].
      intros k _ Hk. apply Hrows, Hk. reflexivity.
    + rewrite Hko. cbn.
      exists (_Data.mk (_Data.names out1)
                (alter (map (λ _, ERROR_SENTINEL)) (ExperimentSample._jobnumber s)
                   (_Data.data out1))),
        (ExperimentSample._jobnumber s), ERROR.
      split; [destruct self; reflexivity|]. split; [auto|]. split; [exact Hnames|].
      split; [cbn; rewrite length_alter; exact Hlen|].
      split; [auto|]. split; [|discriminate].
      intros k Hk Hk'. cbn. rewrite list_lookup_alter_ne by congruence.
      apply Hrows, Hk'. reflexivity.
Qed.

Lemma _run_sequential_unfold (fuel : nat) (data_generator : _DataGenerator) :
  _run_sequential (S fuel) data_generator =
  (let! claimed := claim_or_break in
   match claimed with
   | None => ret tt
   | Some experiment_sample =>
       evaluate_and_commit data_generator experiment_sample >>
       _run_sequential fuel data_generator
   end).
Proof. reflexivity. Qed.

Lemma _run_sequential_spec (data_generator : _DataGenerator) (fuel : nat) :
  ∀ self : ExperimentData.t,
    consistent self → (open_rows (jobs self) < fuel)%nat →
    ∃ self',
      _run_sequential fuel data_generator self = (Return tt, self') ∧
      consistent self' ∧
      length (jobs self') = length (jobs self) ∧
      input_data self' = input_data self ∧
      (OPEN ∉ jobs self') ∧
      (returns_its_row data_generator → swept data_generator self self').
Proof.
  induction fuel as [|fuel IH]; intros self Hc Hfuel; [lia|].
  rewrite _run_sequential_unfold.
  destruct (_JobQueue.get_open_job (jobs self)) as [i|e|] eqn:Hopen.
  - (* a row is claimed *)
    destruct (claim_or_break_claims self i Hc Hopen) as (s & Hview & Hclaim).
    rewrite (bind_Return _ _ _ _ _ Hclaim).
    apply get_open_job_lowest in Hopen as [Hi _].
    set (self1 := set_jobs (<[i:=IN_PROGRESS]> (jobs self)) self) in *.
    destruct (evaluate_and_commit_spec data_generator s self1)
      as (out2 & j & st & Hturn & Hst & Hnames & Hlen & Hj & Hrows & Herr).
    rewrite (bind_Return _ _ _ _ _ Hturn).
    set (self2 := set_jobs (<[j:=st]> _) _) in *.
    assert (Hst' : st ≠ OPEN) by (destruct Hst; congruence).
    assert (Hc2 : consistent self2).
    { destruct Hc as [Hin Hout]. unfold consistent, self2, self1. cbn.
      rewrite !length_insert. split; [exact Hin|]. rewrite Hlen. exact Hout. }
    assert (Hfuel2 : (open_rows (jobs self2) < fuel)%nat).
    { unfold self2, self1. cbn.
      pose proof (open_rows_mark_le (<[i:=IN_PROGRESS]> (jobs self)) j st Hst') as Hle.
      assert (Hip : IN_PROGRESS ≠ OPEN) by discriminate.
      pose proof (open_rows_claim (jobs self) i IN_PROGRESS Hi Hip) as Hlt. lia. }
    destruct (IH self2 Hc2 Hfuel2) as (self' & Hrun & Hc' & Hlen' & Hin' & Hnone & Hswept).
    exists self'. split; [exact Hrun|]. split; [exact Hc'|].
    split; [rewrite Hlen'; cbn; rewrite !length_insert; reflexivity|].
    split; [exact Hin'|]. split; [exact Hnone|].
    intros Hrow. destruct (Hswept Hrow) as [Hopen' Hkept]. clear Hswept.
    pose proof (row_view_jobnumber _ _ _ Hview) as Hnum.
    assert (Hji : j = i).
    { destruct Hj as [-> | (s' & Hs' & ->)]; [exact Hnum|].
      rewrite (Hrow _ _ Hs'). exact Hnum. }
    subst j.
    assert (Hjobs2 : ∀ k, k ≠ i → jobs self2 !! k = jobs self !! k).
    { intros k Hk. cbn. rewrite !list_lookup_insert_ne by congruence. reflexivity. }
    assert (Hjobs2i : jobs self2 !! i = Some st).
    { cbn. apply list_lookup_insert_eq. rewrite length_insert.
      exact (lookup_lt_Some _ _ _ Hi). }
    assert (Hout2 : ∀ k, k ≠ i →
              _Data.data (output_data self2) !! k = _Data.data (output_data self) !! k).
    { intros k Hk. cbn. apply Hrows; [congruence|].
      intros s' Hs'. rewrite (Hrow _ _ Hs'). congruence. }
    assert (Hview2 : ∀ k, k ≠ i → row_view self2 k = row_view self k).
    { intros k Hk. unfold row_view. rewrite (Hout2 k Hk). cbn. rewrite Hnames. reflexivity. }
    split.
    + intros k Hk. destruct (decide (k = i)) as [->|Hne].
      * destruct (Hkept i st Hjobs2i Hst') as [Hst2 Hrow2]. split.
        { rewrite Hst2. destruct Hst as [-> | ->]; auto. }
        intros s0 e Hs0 He. rewrite Hview in Hs0. injection Hs0 as <-.
        destruct (Herr e He) as (_ & -> & Hsentinel).
        split; [exact Hst2|]. rewrite Hrow2. exact Hsentinel.
      * rewrite <- (Hjobs2 k Hne) in Hk. destruct (Hopen' k Hk) as [Hsettled Hfail].
        split; [exact Hsettled|]. intros s0 e Hs0 He.
        rewrite <- (Hview2 k Hne) in Hs0. destruct (Hfail s0 e Hs0 He) as [Hst2 Hrow2].
        split; [exact Hst2|]. rewrite Hrow2, (Hout2 k Hne). reflexivity.
    + intros k st0 Hk Hst0.
      assert (Hne : k ≠ i) by (intros ->; congruence).
      rewrite <- (Hjobs2 k Hne) in Hk. destruct (Hkept k st0 Hk Hst0) as [Hst2 Hrow2].
      split; [exact Hst2|]. rewrite Hrow2. apply Hout2, Hne.
  - (* no open row is left *)
    assert (Hnone : OPEN ∉ jobs self).
    { apply index_of_None. unfold _JobQueue.get_open_job in Hopen.
      destruct (index_of OPEN (jobs self)); [discriminate|reflexivity]. }
    rewrite (bind_Return _ _ _ _ _ (claim_or_break_exhausted self Hnone)).
    exists self. split; [reflexivity|]. split; [exact Hc|]. split; [reflexivity|].
    split; [reflexivity|]. split; [exact Hnone|]. intros _. split.
    + intros i Hi. exfalso. apply Hnone. exact (list_elem_of_lookup_2 _ _ _ Hi).
    + intros i st Hi _. auto.
  - unfold _JobQueue.get_open_job in Hopen. destruct (index_of OPEN (jobs self)); discriminate.
Qed.

(** ** The iteration controller *)

Lemma number_of_updates_ceiling (N P : Z) :
  (0 < P)%Z →
  _number_of_updates N P = Return (Qround.Qceiling (QArith_base.Qmake N (Z.to_pos P))).
Proof.
  intros HP. unfold _number_of_updates.
  destruct (Z.eqb_spec P 0) as [->|_]; [lia|]. f_equal.
  unfold Qround.Qceiling, Qround.Qfloor, QArith_base.Qopp. cbn.
  rewrite Z2Pos.id by exact HP.
  destruct (Z.gtb_spec (N mod P) 0); Z.div_mod_to_equations; nia.
Qed.

Lemma number_of_overiterations_eq (N P : Z) :
  (0 < P)%Z →
  _number_of_overiterations N P =
  Return (if (N mod P =? 0)%Z then 0 else P - N mod P)%Z.
Proof.
  intros HP. unfold _number_of_overiterations.
  destruct (Z.eqb_spec P 0) as [->|_]; [lia|].
  destruct (Z.eqb_spec (N mod P) 0) as [->|_]; reflexivity.
Qed.

Lemma updates_times_population (N P : Z) :
  (0 < P)%Z →
  ((N / P + (if (N mod P >? 0) then 1 else 0)) * P
   = N + (if (N mod P =? 0) then 0 else P - N mod P))%Z.
Proof.
  intros HP.
  destruct (Z.gtb_spec (N mod P) 0); destruct (Z.eqb_spec (N mod P) 0);
    Z.div_mod_to_equations; nia.
Qed.

Lemma remove_at_tail {A} (a k : nat) (l : list A) (i : nat) :
  (i + length l ≤ a + k)%nat → remove_at (seq a k) i l = take (a - i) l.
Proof.
  revert i. induction l as [|x l IH]; intros i Hlen; cbn [remove_at].
  - rewrite take_nil. reflexivity.
  - cbn [length] in Hlen. rewrite (IH (S i)) by lia.
    destruct (bool_decide_reflect (i ∈ seq a k)) as [Hin|Hout].
    + apply elem_of_seq in Hin. replace (a - S i)%nat with 0%nat by lia.
      replace (a - i)%nat with 0%nat by lia. reflexivity.
    + rewrite elem_of_seq in Hout.
      replace (a - i)%nat with (S (a - S i)) by lia. reflexivity.
Qed.

Lemma slice_from_tail (k : Z) (n : nat) :
  (0 < k ≤ Z.of_nat n)%Z →
  slice_from (- k) (seq 0 n) = seq (n - Z.to_nat k) (Z.to_nat k).
Proof.
  intros Hk. unfold slice_from. rewrite length_seq.
  destruct (Z.ltb_spec (- k) 0) as [_|?]; [|lia].
  rewrite drop_seq. f_equal; lia.
Qed.

Lemma remove_rows_bottom_spec (k : Z) (self : ExperimentData.t) :
  consistent self → (0 ≤ k ≤ Z.of_nat (length (jobs self)))%Z →
  ∃ self',
    remove_rows_bottom k self = (Return tt, self') ∧
    consistent self' ∧
    length (jobs self') = (length (jobs self) - Z.to_nat k)%nat.
Proof.
  intros [Hin Hout] Hk. unfold remove_rows_bottom.
  destruct (Z.eqb_spec k 0) as [->|Hk0].
  - exists self. split; [reflexivity|]. split; [split; assumption|]. cbn. lia.
  - eexists. split; [reflexivity|].
    unfold _Data.indices, _Data.len. rewrite Hin.
    rewrite slice_from_tail by lia.
    unfold consistent, _Data.remove, _JobQueue.remove. cbn.
    rewrite !remove_at_tail by lia. rewrite !length_take. lia.
Qed.

Lemma add_experiments_spec (batch self : ExperimentData.t) :
  consistent self → consistent batch →
  ∃ self',
    add_experiments batch self = (Return tt, self') ∧
    consistent self' ∧
    length (jobs self') = (length (jobs self) + length (jobs batch))%nat.
Proof.
  intros [Hin Hout] [Hbin Hbout]. eexists. split; [reflexivity|].
  unfold consistent, _Data.combine_with, _JobQueue.combine_with. cbn.
  unfold _Data.reset_index, _JobQueue.reset_index.
  rewrite !length_app, !length_map. lia.
Qed.

Lemma on_optimizer_Return `{ExperimentData.Helpers} {O A} (m : M O A)
    (ledger : ExperimentData.t * filesystem) (o o' : O) (a : A) :
  m o = (Return a, o') → on_optimizer m (ledger, o) = (Return a, (ledger, o')).
Proof. intros Hm. unfold on_optimizer. rewrite Hm. reflexivity. Qed.

Lemma on_ledger_Return `{ExperimentData.Helpers} {O A}
    (m : M (ExperimentData.t * filesystem) A)
    (ledger ledger' : ExperimentData.t * filesystem) (o : O) (a : A) :
  m ledger = (Return a, ledger') → on_ledger m (ledger, o) = (Return a, (ledger', o)).
Proof. intros Hm. unfold on_ledger. rewrite Hm. reflexivity. Qed.

Lemma on_self_Return {A} (m : M ExperimentData.t A) (self self' : ExperimentData.t)
    (fs : filesystem) (a : A) :
  m self = (Return a, self') → on_self m (self, fs) = (Return a, (self', fs)).
Proof. intros Hm. unfold on_self. rewrite Hm. reflexivity. Qed.

Lemma run_sequential `{ExperimentData.Helpers} (fuel : nat) (data_generator : _DataGenerator) :
  run fuel data_generator "sequential" = on_self (_run_sequential fuel data_generator).
Proof. reflexivity. Qed.

(** A loop whose every turn returns and carries an invariant from its
    position to the next returns, with the invariant at the length of the
    list. *)
Lemma for_each_invariant {S A} (I : nat → S → Prop) (xs : list A) (body : A → M S unit) :
  (∀ k x s, xs !! k = Some x → I k s → ∃ s', body x s = (Return tt, s') ∧ I (Datatypes.S k) s') →
  ∀ s, I 0%nat s → ∃ s', for_each xs body s = (Return tt, s') ∧ I (length xs) s'.
Proof.
  revert I. induction xs as [|x xs IH]; intros I Hbody s Hs.
  - exists s. split; [reflexivity|exact Hs].
  - destruct (Hbody 0%nat x s eq_refl Hs) as (s1 & Hx & Hs1).
    destruct (IH (λ k, I (Datatypes.S k)) (λ k y, Hbody (Datatypes.S k) y) s1 Hs1)
      as (s' & Hrest & Hs').
    exists s'. split; [|exact Hs']. cbn [for_each].
    rewrite (bind_Return _ _ _ _ _ Hx). exact Hrest.
Qed.

Lemma update_round_spec `{ExperimentData.Helpers} {O : Type} `{_Optimizer O}
    (P : Z) (fuel : nat) (dg : _DataGenerator)
    (self : ExperimentData.t) (fs : filesystem) (o : O) :
  cooperative P → consistent self →
  (length (jobs self) + Z.to_nat P < fuel)%nat →
  ∃ self' o',
    update_round fuel dg (self, fs, o) = (Return tt, (self', fs, o')) ∧
    consistent self' ∧
    length (jobs self') = (length (jobs self) + Z.to_nat P)%nat.
Proof.
  intros Hcoop Hc Hfuel. unfold update_round.
  destruct (coop_update_step P Hcoop dg o) as (batch & o1 & Hstep & Hbatch & HP).
  rewrite (bind_Return _ _ _ _ _ (on_optimizer_Return _ _ _ _ _ Hstep)).
  destruct (add_experiments_spec batch self Hc Hbatch) as (self1 & Hadd & Hc1 & Hlen1).
  rewrite (bind_Return _ _ _ _ _
             (on_ledger_Return _ _ _ _ _ (on_self_Return _ _ _ fs _ Hadd))).
  assert (Hopen : (open_rows (jobs self1) < fuel)%nat).
  { pose proof (open_rows_le_length (jobs self1)). lia. }
  destruct (_run_sequential_spec dg fuel self1 Hc1 Hopen)
    as (self2 & Hrun & Hc2 & Hlen2 & _).
  rewrite run_sequential.
  rewrite (bind_Return _ _ _ _ _
             (on_ledger_Return _ _ _ _ _ (on_self_Return _ _ _ fs _ Hrun))).
  unfold bind at 1, the_ledger. cbn [fst].
  destruct (coop_set_data P Hcoop self2 o1) as (o2 & Hset).
  rewrite (on_optimizer_Return _ _ _ _ _ Hset).
  exists self2, o2. split; [reflexivity|]. split; [exact Hc2|]. lia.
Qed.

(** C2.  For positive [N] and [P]: [_number_of_updates N P] is the ceiling
    of the quotient [N/P]; [_number_of_overiterations N P] is [P - N mod P]
    when [N mod P] is not zero and 0 otherwise; and [_iterate], run for [N]
    iterations with an optimizer that proposes exactly [P] rows in every
    round, returns with a ledger that has exactly [N] rows more than
    before. *)
Theorem iteration_reconciliation `{ExperimentData.Helpers} {O : Type} `{_Optimizer O}
    (N P : Z) (fuel : nat) (dg : _DataGenerator)
    (self : ExperimentData.t) (fs : filesystem) (optimizer : O) :
  (0 < N)%Z → (0 < P)%Z →
  cooperative P → consistent self →
  (length (jobs self) + Z.to_nat (N + P) ≤ fuel)%nat →
  _number_of_updates N P = Return (Qround.Qceiling (QArith_base.Qmake N (Z.to_pos P))) ∧
  _number_of_overiterations N P = Return (if (N mod P =? 0)%Z then 0 else P - N mod P)%Z ∧
  ∃ self' optimizer',
    _iterate fuel dg N (self, fs, optimizer) = (Return tt, (self', fs, optimizer')) ∧
    consistent self' ∧
    Z.of_nat (__len__ self') = (Z.of_nat (__len__ self) + N)%Z.
Proof.
  intros HN HP Hcoop Hc Hfuel.
  split; [exact (number_of_updates_ceiling N P HP)|].
  split; [exact (number_of_overiterations_eq N P HP)|].
  pose proof (updates_times_population N P HP) as Htotal.
  set (U := (N / P + (if (N mod P >? 0)%Z then 1 else 0))%Z) in *.
  set (over := (if (N mod P =? 0)%Z then 0 else P - N mod P)%Z) in *.
  assert (Hover : (0 ≤ over < P)%Z).
  { unfold over. destruct (Z.eqb_spec (N mod P) 0); [lia|].
    pose proof (Z.mod_pos_bound N P HP). lia. }
  assert (HU : (0 ≤ U)%Z) by nia.
  unfold _iterate.
  unfold bind at 1, the_ledger. cbn [fst].
  destruct (coop_set_x0 P Hcoop self optimizer) as (o1 & Hx0).
  rewrite (bind_Return _ _ _ _ _ (on_optimizer_Return _ _ _ _ _ Hx0)).
  destruct (coop_check P Hcoop o1) as (o2 & Hcheck).
  rewrite (bind_Return _ _ _ _ _ (on_optimizer_Return _ _ _ _ _ Hcheck)).
  destruct (coop_construct_model P Hcoop dg o2) as (o3 & Hmodel).
  rewrite (bind_Return _ _ _ _ _ (on_optimizer_Return _ _ _ _ _ Hmodel)).
  unfold bind at 1, the_population. cbn [snd].
  rewrite (coop_population P Hcoop).
  unfold bind at 1, lift. unfold _number_of_updates.
  destruct (Z.eqb_spec P 0) as [?|_]; [lia|]. fold U.
  (* the rounds *)
  destruct (for_each_invariant
              (λ k s, ∃ self_k o_k, s = (self_k, fs, o_k) ∧ consistent self_k ∧
                        length (jobs self_k) = (length (jobs self) + k * Z.to_nat P)%nat)
              (range U) (λ _, update_round fuel dg))
    with (s := (self, fs, o3)) as (s' & Hloop & self_U & o_U & -> & Hc_U & Hlen_U).
  { intros k x s Hk (self_k & o_k & -> & Hc_k & Hlen_k).
    apply lookup_lt_Some in Hk. unfold range in Hk. rewrite length_seq in Hk.
    destruct (update_round_spec P fuel dg self_k fs o_k Hcoop Hc_k)
      as (self_k' & o_k' & Hround & Hc_k' & Hlen_k'); [nia|].
    exists (self_k', fs, o_k'). split; [exact Hround|].
    exists self_k', o_k'. split; [reflexivity|]. split; [exact Hc_k'|]. lia. }
  { exists self, o3. split; [reflexivity|]. split; [exact Hc|]. lia. }
  rewrite (bind_Return _ _ _ _ _ Hloop).
  (* the trim *)
  unfold bind at 1, the_population. cbn [snd].
  rewrite (coop_population P Hcoop).
  unfold bind at 1, lift. rewrite (number_of_overiterations_eq N P HP). fold over.
  unfold range in Hlen_U. rewrite length_seq in Hlen_U.
  destruct (remove_rows_bottom_spec over self_U Hc_U) as (self' & Htrim & Hc' & Hlen'); [nia|].
  rewrite (bind_Return _ _ _ _ _
             (on_ledger_Return _ _ _ _ _ (on_self_Return _ _ _ fs _ Htrim))).
  destruct (coop_reset P Hcoop o_U) as (o' & Hreset).
  rewrite (on_optimizer_Return _ _ _ _ _ Hreset).
  exists self', o'. split; [reflexivity|]. split; [exact Hc'|].
  unfold __len__, _Data.len. destruct Hc as [-> _]. destruct Hc' as [-> _]. nia.
Qed.

Lemma counting_optimizer_cooperative : cooperative (O := nat) 3.
Proof.
  split; intros; try (eexists; reflexivity).
  exists three_rows, (S o). split; [reflexivity|]. split; [split; reflexivity|reflexivity].
Qed.

Lemma iteration_reconciliation_witness :
  _number_of_updates 10 3 = Return 4%Z ∧
  _number_of_overiterations 10 3 = Return 2%Z ∧
  ∃ self' optimizer',
    _iterate (H := plain_helpers) 20 fails_on_row_0 10
      (ledger_of [FINISHED; FINISHED; FINISHED], ∅, 0%nat)
    = (Return tt, (self', ∅, optimizer')) ∧
    Z.of_nat (__len__ self') = 13%Z.
Proof.
  destruct (iteration_reconciliation (H := plain_helpers) 10 3 20 fails_on_row_0
              (ledger_of [FINISHED; FINISHED; FINISHED]) ∅ 0%nat)
    as (Hupdates & Hover & self' & optimizer' & Hrun & _ & Hlen).
  - lia.
  - lia.
  - exact counting_optimizer_cooperative.
  - split; reflexivity.
  - vm_compute. lia.
  - split; [exact Hupdates|]. split; [exact Hover|].
    exists self', optimizer'. split; [exact Hrun|exact Hlen].
Defined.

(** ** The sequential sweep, as the caller of [run] sees it *)

(** A row that is IN_PROGRESS before the sweep (stranded by an earlier run)
    is not claimed and is IN_PROGRESS after it. *)
Lemma stranded_row_survives_sweep : ¬ sequential_sweep_settles_every_ledger.
Proof.
  intros Hclaim.
  destruct (Hclaim plain_helpers fails_on_row_0 (ledger_of [FINISHED; IN_PROGRESS; OPEN]) ∅)
    as (self' & Hrun & _ & Hnone).
  { split; reflexivity. }
  specialize (Hrun 2%nat). cbv beta in Hrun.
  assert (Hfuel : (open_rows (jobs (ledger_of [FINISHED; IN_PROGRESS; OPEN])) < 2)%nat)
    by (vm_compute; lia).
  specialize (Hrun Hfuel). vm_compute in Hrun.
  injection Hrun as <-. apply Hnone. vm_compute.
  apply list_elem_of_further, list_elem_of_here.
Qed.

(** The same happens to a claimed row when the evaluator answers with the
    view of another row of the ledger: the commit marks the row of the
    answer, and the claimed row stays IN_PROGRESS. *)
Example foreign_answer_strands_row :
  ∃ self',
    run (H := plain_helpers) 2 answers_row_5 "sequential"
      (ledger_of [OPEN; FINISHED; FINISHED; FINISHED; FINISHED; OPEN], ∅)
    = (Return tt, (self', ∅)) ∧
    jobs self' = [IN_PROGRESS; FINISHED; FINISHED; FINISHED; FINISHED; FINISHED].
Proof. eexists. split; vm_compute; reflexivity. Qed.

(** C1 (amended).  On a ledger with one entry per row in its three
    structures, and for an evaluator that answers with a view of the row it
    was given, the sweep of [run] in mode ["sequential"] returns normally
    whatever the evaluator raises.  Every row that was OPEN is FINISHED
    or ERROR afterwards; a row whose evaluation raised is ERROR and its
    output row holds the sentinel; every other row keeps its status, so a
    row is IN_PROGRESS afterwards only if it was IN_PROGRESS before; the
    files are not touched. *)
Theorem sequential_sweep `{ExperimentData.Helpers} (fuel : nat)
    (data_generator : _DataGenerator) (self : ExperimentData.t) (fs : filesystem) :
  consistent self →
  returns_its_row data_generator →
  (open_rows (jobs self) < fuel)%nat →
  ∃ self',
    run fuel data_generator "sequential" (self, fs) = (Return tt, (self', fs)) ∧
    (∀ i, jobs self !! i = Some OPEN →
       jobs self' !! i = Some FINISHED ∨ jobs self' !! i = Some ERROR) ∧
    (∀ i s e, jobs self !! i = Some OPEN → row_view self i = Some s →
       data_generator s = inl e →
       jobs self' !! i = Some ERROR ∧
       _Data.data (output_data self') !! i
         = map (λ _, ERROR_SENTINEL) <$> _Data.data (output_data self) !! i) ∧
    (∀ i st, jobs self !! i = Some st → st ≠ OPEN → jobs self' !! i = Some st) ∧
    (∀ i, jobs self' !! i = Some IN_PROGRESS → jobs self !! i = Some IN_PROGRESS).
Proof.
  intros Hc Hrow Hfuel.
  destruct (_run_sequential_spec data_generator fuel self Hc Hfuel)
    as (self' & Hrun & _ & Hlen & _ & _ & Hswept).
  destruct (Hswept Hrow) as [Hopen Hkept].
  exists self'. split; [rewrite run_sequential; apply on_self_Return, Hrun|].
  split; [intros i Hi; apply (Hopen i Hi)|].
  split; [intros i s e Hi Hs He; exact (proj2 (Hopen i Hi) s e Hs He)|].
  split; [intros i st Hi Hst; apply (Hkept i st Hi Hst)|].
  intros i Hi'.
  destruct (jobs self !! i) as [st|] eqn:Hi.
  - destruct (decide (st = OPEN)) as [->|Hst].
    + destruct (Hopen i Hi) as [[Hfin | Herr] _]; congruence.
    + destruct (Hkept i st Hi Hst) as [Hsame _]. congruence.
  - apply lookup_lt_Some in Hi'. apply lookup_ge_None in Hi. lia.
Qed.

Lemma sequential_sweep_witness :
  ∃ self',
    run (H := plain_helpers) 3 fails_on_row_0 "sequential" (ledger_of [OPEN; FINISHED; OPEN], ∅)
    = (Return tt, (self', ∅)) ∧
    jobs self' !! 0%nat = Some ERROR ∧
    jobs self' !! 2%nat = Some FINISHED.
Proof.
  destruct (sequential_sweep (H := plain_helpers) 3 fails_on_row_0
              (ledger_of [OPEN; FINISHED; OPEN]) ∅)
    as (self' & Hrun & Hsettled & Hfailed & Hkept & _).
  - split; reflexivity.
  - intros s s' Hs. unfold fails_on_row_0 in Hs.
    destruct (bool_decide _); [discriminate|]. injection Hs as <-. reflexivity.
  - vm_compute. lia.
  - exists self'. split; [exact Hrun|]. split.
    + eapply Hfailed; reflexivity.
    + pose proof Hrun as Hrun'. vm_compute in Hrun'. injection Hrun' as <-. reflexivity.
Defined.

(** ** The parallel sweep *)

(** C5.  With two open rows and an evaluator that fails on the first,
    [run] in mode ["parallel"] raises the exception of the evaluator to its
    caller and commits nothing: both rows stay IN_PROGRESS.  The sequential
    sweep of the same ledger returns and leaves the rows ERROR and
    FINISHED. *)
Theorem parallel_sweep_aborts_on_failure :
  run (H := plain_helpers) 3 fails_on_row_0 "parallel" (ledger_of [OPEN; OPEN], ∅)
  = (Raise (RuntimeError "row 0"), (ledger_of [IN_PROGRESS; IN_PROGRESS], ∅)) ∧
  jobs (run (H := plain_helpers) 3 fails_on_row_0 "sequential" (ledger_of [OPEN; OPEN], ∅)).2.1
  = [ERROR; FINISHED].
Proof. split; vm_compute; reflexivity. Qed.

(** ** Storing and loading *)

Lemma append_inj_r (s a b : string) : s +:+ a = s +:+ b → a = b.
Proof.
  induction s as [|c s IH]; cbn; [auto|]. intros Heq. injection Heq as Heq. auto.
Qed.

Lemma suffix_ne (s a b : string) : a ≠ b → s +:+ a ≠ s +:+ b.
Proof. intros Hne Heq. exact (Hne (append_inj_r s a b Heq)). Qed.

(** The ledger that [__init__] builds for [_from_file_attempt] before the
    stores are read. *)
Lemma init_from_domain `{ExperimentData.Helpers} (fs : filesystem) (d : Domain.t)
    (filename : string) :
  __init__ fs (Some (of_Domain d)) None None None filename =
  Return (ExperimentData.mk filename (_Data.mk (Domain.names d) []) (_Data.mk [] []) d []).
Proof. reflexivity. Qed.

(** The four files that [store] writes, read back one by one. *)
Lemma store_lookup `{ExperimentData.Helpers} (L : ExperimentData.t) (name : string)
    (fs : filesystem) :
  store L (Some name) fs !! (name +:+ "_domain") = Some (DomainFile (domain L)) ∧
  store L (Some name) fs !! (name +:+ "_jobs") = Some (JobsFile (jobs L)) ∧
  store L (Some name) fs !! (name +:+ "_output") = Some (DataFile (output_data L)) ∧
  store L (Some name) fs !! (name +:+ "_data") = Some (DataFile (input_data L)).
Proof.
  unfold store, Domain_store, _JobQueue_store, _Data_store. cbn [default].
  assert (H1 : name +:+ "_domain" ≠ name +:+ "_jobs") by (apply suffix_ne; discriminate).
  assert (H2 : name +:+ "_domain" ≠ name +:+ "_output") by (apply suffix_ne; discriminate).
  assert (H3 : name +:+ "_domain" ≠ name +:+ "_data") by (apply suffix_ne; discriminate).
  assert (H4 : name +:+ "_jobs" ≠ name +:+ "_output") by (apply suffix_ne; discriminate).
  assert (H5 : name +:+ "_jobs" ≠ name +:+ "_data") by (apply suffix_ne; discriminate).
  assert (H6 : name +:+ "_output" ≠ name +:+ "_data") by (apply suffix_ne; discriminate).
  repeat split; simplify_map_eq; reflexivity.
Qed.

Lemma _from_file_attempt_stored `{ExperimentData.Helpers} (L : ExperimentData.t)
    (name : string) (fs : filesystem) :
  _from_file_attempt (store L (Some name) fs) name = Return (set_filename name L).
Proof.
  destruct (store_lookup L name fs) as (Hdomain & Hjobs & Houtput & Hdata).
  unfold _from_file_attempt, Domain_from_file, _Data_from_file, _JobQueue_from_file.
  rewrite Hdomain. cbn [mbind outcome_bind].
  rewrite init_from_domain. cbn [mbind outcome_bind].
  rewrite Hdata. cbn [mbind outcome_bind].
  rewrite Houtput. cbn [mbind outcome_bind except_FileNotFoundError].
  rewrite Hjobs. destruct L; reflexivity.
Qed.

(** C3.  Loading what [store] has written gives a ledger that [__eq__]
    finds equal to the stored one, whatever was on the disk before and
    whether the file name is that of the ledger or is given to [store]: the
    input table, the output table, the job statuses and the schema are the
    stored ones. *)
Theorem store_from_file_roundtrip `{ExperimentData.Helpers} (L : ExperimentData.t)
    (filename : option string) (fs : filesystem) :
  ∃ L',
    from_file (store L filename fs) (default (ExperimentData.filename L) filename)
      = Return L' ∧
    __eq__ L' L = true ∧
    input_data L' = input_data L ∧
    output_data L' = output_data L ∧
    jobs L' = jobs L ∧
    domain L' = domain L.
Proof.
  set (name := default (ExperimentData.filename L) filename).
  exists (set_filename name L). split.
  - unfold from_file.
    replace (store L filename fs) with (store L (Some name) fs)
      by (destruct filename; reflexivity).
    rewrite _from_file_attempt_stored. reflexivity.
  - split; [|repeat split]. unfold __eq__. cbn.
    rewrite !bool_decide_eq_true_2 by reflexivity. reflexivity.
Qed.

(** ** Loading a ledger with a file missing *)

(** A ledger stored with a FINISHED row and loaded without its [_output]
    file has that row FINISHED, as its [_jobs] file says. *)
Lemma missing_output_keeps_statuses : ¬ missing_output_means_all_open.
Proof.
  intros Hclaim.
  destruct (Hclaim plain_helpers (ledger_of [FINISHED]) "experimentdata" ∅)
    as (L' & Hload & Hopen).
  vm_compute in Hload. injection Hload as <-.
  apply Forall_cons_1 in Hopen as [Hopen _]. discriminate.
Qed.

(** C7 (amended).  Of the files that [store] has written, the [_output]
    file may be missing: the load succeeds, the output store has one row
    without columns for every input row, and the job statuses are those of
    the [_jobs] file.  When the [_data] file is missing the load raises
    [FileNotFoundError]. *)
Theorem load_with_missing_file `{ExperimentData.Helpers} (L : ExperimentData.t)
    (name : string) (fs : filesystem) :
  _from_file_attempt (delete (name +:+ "_output") (store L (Some name) fs)) name
    = Return (ExperimentData.mk name (input_data L)
                (_Data.from_indices (_Data.indices (input_data L)))
                (domain L) (jobs L)) ∧
  _from_file_attempt (delete (name +:+ "_data") (store L (Some name) fs)) name
    = Raise (FileNotFoundError ("Cannot find the file " +:+ name +:+ "_data.csv.")).
Proof.
  destruct (store_lookup L name fs) as (Hdomain & Hjobs & Houtput & Hdata).
  assert (H2 : name +:+ "_output" ≠ name +:+ "_domain") by (apply suffix_ne; discriminate).
  assert (H3 : name +:+ "_data" ≠ name +:+ "_domain") by (apply suffix_ne; discriminate).
  assert (H4 : name +:+ "_output" ≠ name +:+ "_jobs") by (apply suffix_ne; discriminate).
  assert (H6 : name +:+ "_output" ≠ name +:+ "_data") by (apply suffix_ne; discriminate).
  unfold _from_file_attempt, Domain_from_file, _Data_from_file, _JobQueue_from_file.
  split.
  - rewrite (lookup_delete_ne _ (name +:+ "_output") (name +:+ "_domain")) by assumption.
    rewrite (lookup_delete_ne _ (name +:+ "_output") (name +:+ "_data")) by assumption.
    rewrite (lookup_delete_ne _ (name +:+ "_output") (name +:+ "_jobs")) by assumption.
    rewrite lookup_delete_eq.
    rewrite Hdomain. cbn [mbind outcome_bind].
    rewrite init_from_domain. cbn [mbind outcome_bind].
    rewrite Hdata. cbn [mbind outcome_bind except_FileNotFoundError].
    rewrite Hjobs. reflexivity.
  - rewrite (lookup_delete_ne _ (name +:+ "_data") (name +:+ "_domain")) by assumption.
    rewrite lookup_delete_eq.
    rewrite Hdomain. cbn [mbind outcome_bind].
    rewrite init_from_domain. reflexivity.
Qed.

(** ** Construction *)

(** An output store that is supplied and empty gives OPEN rows. *)
Lemma empty_output_means_open : ¬ supplied_output_means_finished.
Proof.
  intros Hclaim.
  specialize (Hclaim plain_helpers ∅ (Some (of_Domain [("x", ContinuousParameter)]))
                (Some (of_Data (_Data.mk ["x"] [[Num 1]])))
                (Some (of_Data _Data.empty)) None "experimentdata" _ eq_refl).
  vm_compute in Hclaim. discriminate.
Qed.

(** C10 (amended).  When a construction returns a ledger, the construction
    without the [jobs] argument returns the same ledger: the job queue is
    rebuilt from the input data, with one entry per input row, all OPEN
    when the output data is empty (as it is when none is supplied) and all
    FINISHED otherwise. *)
Theorem init_ignores_jobs `{ExperimentData.Helpers} (fs : filesystem)
    (domain : option DomainTypes) (input_data output_data : option DataTypes)
    (jobs : option string) (filename : string) (self : ExperimentData.t) :
  __init__ fs domain input_data output_data jobs filename = Return self →
  __init__ fs domain input_data output_data None filename = Return self ∧
  ∃ supplied,
    _construct_data fs output_data = Return supplied ∧
    (output_data = None → _Data.is_empty supplied = true) ∧
    ExperimentData.jobs self =
    replicate (__len__ self) (if _Data.is_empty supplied then OPEN else FINISHED).
Proof.
  unfold __init__. intros Hinit.
  destruct (_construct_data fs input_data) as [input| |]; try discriminate.
  destruct (_construct_data fs output_data) as [supplied| |] eqn:Hout; try discriminate.
  cbn [mbind outcome_bind] in *.
  assert (Hnone : output_data = None → _Data.is_empty supplied = true).
  { intros ->. cbn in Hout. injection Hout as <-. reflexivity. }
  destruct (_Data.is_empty supplied) eqn:Hempty;
    destruct (_construct_domain fs input domain) as [d| |];
    cbn [mbind outcome_bind] in *; try discriminate;
    destruct (if _Data.is_empty input then _Data_from_domain domain else Return input)
      as [input'| |];
    cbn [mbind outcome_bind] in *; try discriminate;
    destruct jobs as [path|];
    try (destruct (_JobQueue_from_file fs path) as [j| |]);
    cbn [mbind outcome_bind] in *; try discriminate;
    injection Hinit as <-;
    (split; [reflexivity|]);
    exists supplied; (split; [reflexivity|]); rewrite Hempty;
    (split; [exact Hnone|]); reflexivity.
Qed.

Lemma init_ignores_jobs_witness :
  __init__ (H := plain_helpers) {["queue" := JobsFile [ERROR; ERROR]]} None
    (Some (of_Data (_Data.mk ["x"] [[Num 1]; [Num 2]]))) None None "experimentdata"
  = Return (ExperimentData.mk "experimentdata" (_Data.mk ["x"] [[Num 1]; [Num 2]])
              (_Data.mk [] [[]; []]) [("x", ContinuousParameter)] [OPEN; OPEN]).
Proof.
  apply (init_ignores_jobs (H := plain_helpers) {["queue" := JobsFile [ERROR; ERROR]]} None
           (Some (of_Data (_Data.mk ["x"] [[Num 1]; [Num 2]]))) None (Some "queue")
           "experimentdata").
  vm_compute. reflexivity.
Defined.

(** ** Saving an object *)

(** C8.  Without a store method, [save_object] stores an object whose class
    is one of the five registered classes with the strategy registered for
    that class, and an object of any other class (also one that derives
    from a registered class) with [PickleStore], after one debug record in
    the log; in both cases it returns the suffix of the strategy
    normally. *)
Theorem save_object_strategy (object : IO.pyobject) (path experimentdata_directory : string)
    (w : IO.world) :
  IO.save_object object path experimentdata_directory None w =
  let _path := Path_div experimentdata_directory path in
  match registered_strategy (IO.type_of object) with
  | Some store_type =>
      (Return (Some (IO.suffix store_type)),
       IO.mk_world
         (<[IO.Path_with_suffix _path (IO.suffix store_type) := (store_type, object)]>
            (IO.files w))
         (IO.log w))
  | None =>
      (Return (Some ".pkl"),
       IO.mk_world
         (<[IO.Path_with_suffix _path ".pkl" := (IO.PickleStore, object)]> (IO.files w))
         (IO.log w ++ [("DEBUG", IO.not_supported (IO.type_of object))]))
  end.
Proof.
  unfold IO.save_object. destruct (IO.type_of object); reflexivity.
Qed.

(** * Further properties *)

(** ** The evaluator and the optimizer of the examples *)

Lemma fails_on_row_0_returns_its_row : returns_its_row fails_on_row_0.
Proof.
  intros s s' Hs. unfold fails_on_row_0 in Hs.
  destruct (bool_decide _); [discriminate|]. injection Hs as <-. reflexivity.
Qed.

Lemma idle_optimizer_cooperative : @cooperative unit idle_optimizer 0.
Proof.
  split; intros; try (eexists; reflexivity).
  exists (ledger_of []), o. split; [reflexivity|]. split; [split; reflexivity|reflexivity].
Qed.

Lemma fails_on_row_0_gives_y (s s' : ExperimentSample.t) (column : string) :
  fails_on_row_0 s = inr s' → column ∈ (ExperimentSample.output_data s').*1 → column = "y".
Proof.
  unfold fails_on_row_0. destruct (bool_decide _); [discriminate|].
  intros [= <-] Hcolumn. cbn in Hcolumn. apply list_elem_of_singleton in Hcolumn. exact Hcolumn.
Qed.

(** ** The frame of a commit *)

Lemma map_const_insert {A B} (b : B) (j : nat) (x : A) (row : list A) :
  map (λ _, b) (<[j := x]> row) = map (λ _, b) row.
Proof.
  revert j. induction row as [|y row IH]; intros [|j]; cbn; try reflexivity.
  f_equal. apply IH.
Qed.

Lemma alter_map_const_alter_insert {A} (b : A) (i jc : nat) (x : A) (rows : list (list A)) :
  alter (map (λ _, b)) i (alter (<[jc := x]>) i rows) = alter (map (λ _, b)) i rows.
Proof.
  rewrite list_alter_alter_eq. apply list_alter_ext; [|reflexivity].
  intros row _. cbn. apply map_const_insert.
Qed.

(** Whatever the loop of [set_experiment_sample] does, it changes the
    output store only, keeps its columns, and changes nothing that failing
    row [j] afterwards would not overwrite. *)
Lemma write_outputs_frame (j : nat) (v : value) (items : list (string * value))
    (self self' : ExperimentData.t) (r : outcome unit) :
  for_each items (write_output j) self = (r, self') →
  ∃ out',
    self' = set_output_data out' self ∧
    _Data.names out' = _Data.names (output_data self) ∧
    alter (map (λ _, v)) j (_Data.data out')
      = alter (map (λ _, v)) j (_Data.data (output_data self)).
Proof.
  revert self. induction items as [|[column value] items IH]; intros self Hrun.
  - cbn in Hrun. injection Hrun as _ <-. exists (output_data self).
    rewrite set_output_data_same. auto.
  - cbn [for_each] in Hrun. pose proof (write_output_eq j column value self) as Hstep.
    destruct (index_of column (_Data.names (output_data self))) as [jc|].
    + rewrite (bind_Return _ _ _ _ _ Hstep) in Hrun.
      destruct (IH _ Hrun) as (out' & -> & Hnames & Hdata). exists out'.
      split; [destruct self; reflexivity|]. split; [exact Hnames|].
      rewrite Hdata. cbn. apply alter_map_const_alter_insert.
    + rewrite (bind_Raise _ _ _ _ _ Hstep) in Hrun. injection Hrun as _ <-.
      exists (output_data self). rewrite set_output_data_same. auto.
Qed.

Lemma set_experiment_sample_outcomes (s : ExperimentSample.t) (self : ExperimentData.t) :
  (∃ out', set_experiment_sample s self =
           (Return tt, set_jobs (<[ExperimentSample._jobnumber s := FINISHED]> (jobs self))
                         (set_output_data out' self)))
  ∨ (∃ out', set_experiment_sample s self = (Raise KeyError, set_output_data out' self) ∧
             _Data.names out' = _Data.names (output_data self) ∧
             alter (map (λ _, ERROR_SENTINEL)) (ExperimentSample._jobnumber s) (_Data.data out')
               = alter (map (λ _, ERROR_SENTINEL)) (ExperimentSample._jobnumber s)
                   (_Data.data (output_data self))).
Proof.
  change (set_experiment_sample s) with
    (for_each (ExperimentSample.output_data s) (write_output (ExperimentSample.job_number s)) >>
     modify (λ self, set_jobs
       (_JobQueue.mark_as_finished (jobs self) (ExperimentSample._jobnumber s)) self)).
  destruct (for_each (ExperimentSample.output_data s)
              (write_output (ExperimentSample.job_number s)) self) as [r self'] eqn:Hrun.
  destruct (write_outputs_spec (ExperimentSample.job_number s)
              (ExperimentSample.output_data s) self) as (out0 & r0 & Hrun0 & Hr0 & _).
  destruct (write_outputs_frame _ ERROR_SENTINEL _ _ _ _ Hrun) as (out' & -> & Hnames & Hdata).
  rewrite Hrun in Hrun0. injection Hrun0 as -> _.
  destruct Hr0 as [-> | ->].
  - left. exists out'. rewrite (bind_Return _ _ _ _ _ Hrun). reflexivity.
  - right. exists out'. rewrite (bind_Raise _ _ _ _ _ Hrun). auto.
Qed.

(** With an evaluator that answers with its row, the sequential turn ends
    in the ledger that [committed_or_failed] describes: the cells that a
    failed commit has written are under the sentinel. *)
Lemma evaluate_and_commit_eq (data_generator : _DataGenerator)
    (s : ExperimentSample.t) (self : ExperimentData.t) :
  returns_its_row data_generator →
  evaluate_and_commit data_generator s self
  = (Return tt, committed_or_failed data_generator s self).
Proof.
  intros Hrow. unfold evaluate_and_commit, committed_or_failed, try_except, bind, call.
  destruct (data_generator s) as [e|s'] eqn:Hrun; [reflexivity|].
  pose proof (Hrow _ _ Hrun) as Hnum.
  destruct (set_experiment_sample_outcomes s' self)
    as [(out' & ->) | (out' & -> & Hnames & Hdata)]; [reflexivity|].
  cbn. f_equal. unfold set_output_data, set_jobs. cbn. rewrite Hnames.
  rewrite <- Hnum, Hdata. reflexivity.
Qed.
Lemma init_from_domain_any `{ExperimentData.Helpers} (fs : filesystem) (name : string) {A}
    (k : ExperimentData.t → outcome A) (m : outcome Domain.t) :
  (domain ← m; experimentdata ← __init__ fs (Some (of_Domain domain)) None None None name;
   k experimentdata)
  = (domain ← m;
     k (ExperimentData.mk name (_Data.mk (Domain.names domain) []) (_Data.mk [] []) domain [])).
Proof. destruct m; reflexivity. Qed.

(** ** One process under the file lock *)

Lemma _from_file_attempt_filename `{ExperimentData.Helpers} (fs : filesystem)
    (name : string) (L : ExperimentData.t) :
  _from_file_attempt fs name = Return L → filename L = name.
Proof.
  unfold _from_file_attempt. rewrite init_from_domain_any.
  destruct (Domain_from_file fs (name +:+ "_domain")) as [d|[]|]; cbn; try discriminate.
  destruct (_Data_from_file fs (name +:+ "_data")) as [i|[]|]; cbn; try discriminate.
  destruct (_Data_from_file fs (name +:+ "_output")) as [o|[]|]; cbn; try discriminate;
    destruct (_JobQueue_from_file fs (name +:+ "_jobs")) as [j|[]|]; cbn; try discriminate;
    intros [= <-]; reflexivity.
Qed.

Lemma from_file_filename `{ExperimentData.Helpers} (fs : filesystem) (name : string)
    (L : ExperimentData.t) :
  from_file fs name = Return L → from_file fs (filename L) = Return L.
Proof.
  unfold from_file at 1.
  destruct (_from_file_attempt fs name) as [L0|e|] eqn:Hfirst; cbn.
  - intros [= ->]. rewrite (_from_file_attempt_filename _ _ _ Hfirst).
    unfold from_file. rewrite Hfirst. reflexivity.
  - destruct e; cbn; try discriminate.
    destruct get_original_cwd as [cwd|[]|]; cbn; try discriminate.
    intros Hsecond. rewrite (_from_file_attempt_filename _ _ _ Hsecond).
    unfold from_file. rewrite Hsecond. reflexivity.
  - discriminate.
Qed.

Lemma set_filename_same (L : ExperimentData.t) : set_filename (filename L) L = L.
Proof. destruct L; reflexivity. Qed.

Lemma from_file_stored `{ExperimentData.Helpers} (L : ExperimentData.t) (fs : filesystem) :
  from_file (store L (Some (filename L)) fs) (filename L) = Return L.
Proof.
  unfold from_file. rewrite _from_file_attempt_stored, set_filename_same. reflexivity.
Qed.

(** [_access_file] on files that hold the ledger [L]: the operation runs on
    [L]; when it returns, its ledger is written, when it raises, nothing
    is. *)
Lemma _access_file_eq `{ExperimentData.Helpers} {A} (operation : M ExperimentData.t A)
    (self L : ExperimentData.t) (fs : filesystem) :
  from_file fs (filename self) = Return L →
  _access_file operation self fs =
  match operation L with
  | (Return value, L') => (Return value, store L' (Some (filename L')) fs)
  | (Raise e, _) => (Raise e, fs)
  | (OutOfFuel, _) => (OutOfFuel, fs)
  end.
Proof. intros Hload. unfold _access_file. rewrite Hload. reflexivity. Qed.

Lemma access_open_job_data_claims (self : ExperimentData.t) (i : nat) :
  consistent self → _JobQueue.get_open_job (jobs self) = Return i →
  ∃ s, row_view self i = Some s ∧
       access_open_job_data self =
       (Return s, set_jobs (<[i := IN_PROGRESS]> (jobs self)) self).
Proof.
  intros Hc Hopen.
  assert (Hlt : (i < length (jobs self))%nat).
  { apply get_open_job_lowest in Hopen as [Hi _]. exact (lookup_lt_Some _ _ _ Hi). }
  destruct (row_view_is_Some self i Hc Hlt) as [s Hs]. exists s. split; [exact Hs|].
  unfold access_open_job_data, bind, get, lift, modify.
  rewrite Hopen. rewrite get_experiment_sample_row_view.
  unfold _JobQueue.mark_as_in_progress, _JobQueue.mark.
  replace (row_view (set_jobs (<[i:=IN_PROGRESS]> (jobs self)) self) i) with (row_view self i)
    by reflexivity.
  rewrite Hs. reflexivity.
Qed.

Lemma set_error_eq (index : nat) (self : ExperimentData.t) :
  set_error index self = (Return tt, (set_error index self).2).
Proof. reflexivity. Qed.

Lemma committed_or_failed_shape (data_generator : _DataGenerator)
    (s : ExperimentSample.t) (self : ExperimentData.t) :
  returns_its_row data_generator → consistent self →
  filename (committed_or_failed data_generator s self) = filename self ∧
  consistent (committed_or_failed data_generator s self).
Proof.
  intros Hrow [Hin Hout].
  destruct (evaluate_and_commit_spec data_generator s self)
    as (out' & j & st & Hturn & _ & _ & Hlen & _).
  rewrite (evaluate_and_commit_eq _ _ _ Hrow) in Hturn. injection Hturn as ->.
  split; [reflexivity|]. unfold consistent. cbn. rewrite length_insert.
  split; [exact Hin|]. rewrite Hlen. exact Hout.
Qed.

(** The turn of the cluster loop on files that hold [L]: afterwards they
    hold what the sequential turn makes of [L]. *)
Lemma cluster_turn `{ExperimentData.Helpers} (data_generator : _DataGenerator)
    (s : ExperimentSample.t) (self L : ExperimentData.t) (fs : filesystem) :
  from_file fs (filename self) = Return L →
  try_except
    (let! _experiment_sample := call (data_generator s) in
     write_experiment_sample _experiment_sample self)
    (except_Exception (λ e, write_error (ExperimentSample._jobnumber s) self)) fs
  = (Return tt,
     store (committed_or_failed data_generator s L)
       (Some (filename (committed_or_failed data_generator s L))) fs).
Proof.
  intros Hload. unfold try_except, bind, call, committed_or_failed.
  unfold write_experiment_sample, write_error.
  destruct (data_generator s) as [e|s'].
  - cbn. rewrite (_access_file_eq _ _ _ _ Hload). reflexivity.
  - rewrite (_access_file_eq _ _ _ _ Hload).
    destruct (set_experiment_sample_outcomes s' L) as [(out' & ->) | (out' & -> & _)].
    + reflexivity.
    + cbn. rewrite (_access_file_eq _ _ _ _ Hload). reflexivity.
Qed.

Lemma _run_cluster_loop_simulates `{ExperimentData.Helpers} (data_generator : _DataGenerator)
    (self : ExperimentData.t) (fuel : nat) :
  returns_its_row data_generator →
  ∀ (L : ExperimentData.t) (fs : filesystem),
    from_file fs (filename self) = Return L → filename L = filename self → consistent L →
    ∃ fs',
      _run_cluster_loop fuel data_generator self fs
        = ((_run_sequential fuel data_generator L).1, fs') ∧
      from_file fs' (filename self) = Return (_run_sequential fuel data_generator L).2.
Proof.
  intros Hrow. induction fuel as [|fuel IH]; intros L fs Hload Hname Hc.
  - exists fs. split; [reflexivity|exact Hload].
  - rewrite _run_sequential_unfold. cbn [_run_cluster_loop].
    destruct (_JobQueue.get_open_job (jobs L)) as [i|e|] eqn:Hopen.
    + destruct (access_open_job_data_claims L i Hc Hopen) as (s & Hview & Hclaim).
      destruct (claim_or_break_claims L i Hc Hopen) as (s0 & Hview0 & Hclaim0).
      rewrite Hview in Hview0. injection Hview0 as <-.
      set (L1 := set_jobs (<[i:=IN_PROGRESS]> (jobs L)) L) in *.
      assert (Hc1 : consistent L1).
      { destruct Hc as [Hin Hout]. unfold consistent, L1. cbn. rewrite length_insert. auto. }
      assert (Hload1 : from_file (store L1 (Some (filename L1)) fs) (filename self) = Return L1).
      { rewrite <- Hname. apply (from_file_stored L1). }
      destruct (committed_or_failed_shape data_generator s L1 Hrow Hc1) as [Hname2 Hc2].
      set (L2 := committed_or_failed data_generator s L1) in *.
      assert (Hload2 : from_file (store L2 (Some (filename L2)) (store L1 (Some (filename L1)) fs))
                         (filename self) = Return L2).
      { rewrite <- Hname. change (filename L) with (filename L1). rewrite <- Hname2.
        apply from_file_stored. }
      destruct (IH L2 _ Hload2) as (fs' & Hloop & Hload'); [|exact Hc2|].
      { rewrite Hname2. exact Hname. }
      exists fs'. rewrite (bind_Return _ _ _ _ _ Hclaim0).
      rewrite (bind_Return _ _ _ _ _ (evaluate_and_commit_eq _ _ _ Hrow)).
      fold L2. split; [|exact Hload'].
      rewrite <- Hloop.
      assert (Hget : try_except
                (let! experiment_sample := get_open_job_data self in ret (Some experiment_sample))
                (except_NoOpenJobsError (ret None)) fs
              = (Return (Some s), store L1 (Some (filename L1)) fs)).
      { unfold try_except, bind, get_open_job_data.
        rewrite (_access_file_eq _ _ _ _ Hload), Hclaim. reflexivity. }
      rewrite (bind_Return _ _ _ _ _ Hget).
      rewrite (bind_Return _ _ _ _ _ (cluster_turn data_generator s self L1 _ Hload1)).
      reflexivity.
    + assert (Hnone : OPEN ∉ jobs L).
      { apply index_of_None. unfold _JobQueue.get_open_job in Hopen.
        destruct (index_of OPEN (jobs L)); [discriminate|reflexivity]. }
      rewrite (bind_Return _ _ _ _ _ (claim_or_break_exhausted L Hnone)).
      exists fs. split; [|exact Hload].
      unfold bind, try_except, get_open_job_data.
      rewrite (_access_file_eq _ _ _ _ Hload), (access_open_job_data_no_open L Hnone).
      reflexivity.
    + unfold _JobQueue.get_open_job in Hopen. destruct (index_of OPEN (jobs L)); discriminate.
Qed.

(** X1.  A cluster driver that finds the ledger [L] in the files of its
    ledger does to the files what the sequential sweep does to [L] in
    memory: it ends as that sweep ends, the files then hold the ledger
    that sweep produces, and the object of the caller is as before. *)
Theorem cluster_driver_sweeps_the_files `{ExperimentData.Helpers} (fuel : nat)
    (data_generator : _DataGenerator) (self L : ExperimentData.t) (fs : filesystem) :
  from_file fs (filename self) = Return L →
  consistent L →
  returns_its_row data_generator →
  ∃ fs',
    run fuel data_generator "cluster" (self, fs)
      = ((_run_sequential fuel data_generator L).1, (self, fs')) ∧
    from_file fs' (filename L) = Return (_run_sequential fuel data_generator L).2.
Proof.
  intros Hload Hc Hrow.
  pose proof (from_file_filename _ _ _ Hload) as HloadL.
  destruct (_run_cluster_loop_simulates data_generator L fuel Hrow L fs HloadL eq_refl Hc)
    as (fs' & Hloop & Hload').
  exists fs'. split; [|exact Hload'].
  change (run fuel data_generator "cluster" (self, fs))
    with (on_files (_run_cluster fuel data_generator) (self, fs)).
  unfold on_files, _run_cluster. unfold bind at 1. rewrite Hload.
  unfold bind at 1. rewrite Hloop.
  destruct (_run_sequential fuel data_generator L) as [[[]|e|] L']; cbn in *; try reflexivity.
  unfold bind. rewrite Hload'. reflexivity.
Qed.

Lemma cluster_driver_sweeps_the_files_witness :
  ∃ fs' L',
    run (H := plain_helpers) 3 fails_on_row_0 "cluster"
      (ledger_of [FINISHED; FINISHED], store (ledger_of [OPEN; OPEN]) None ∅)
    = (Return tt, (ledger_of [FINISHED; FINISHED], fs')) ∧
    from_file (H := plain_helpers) fs' "experimentdata" = Return L' ∧
    jobs L' = [ERROR; FINISHED].
Proof.
  destruct (cluster_driver_sweeps_the_files (H := plain_helpers) 3 fails_on_row_0
              (ledger_of [FINISHED; FINISHED]) (ledger_of [OPEN; OPEN])
              (store (ledger_of [OPEN; OPEN]) None ∅))
    as (fs' & Hrun & Hload).
  - vm_compute. reflexivity.
  - split; reflexivity.
  - exact fails_on_row_0_returns_its_row.
  - exists fs', (_run_sequential 3 fails_on_row_0 (ledger_of [OPEN; OPEN])).2.
    split; [exact Hrun|]. split; [exact Hload|reflexivity].
Defined.

(** X2.  A cluster driver that finds no files of its ledger stores the
    ledger first and then sweeps it in the files as the sequential sweep
    would in memory. *)
Theorem cluster_driver_stores_first `{ExperimentData.Helpers} (fuel : nat)
    (data_generator : _DataGenerator) (self : ExperimentData.t) (fs : filesystem)
    (msg : string) :
  from_file fs (filename self) = Raise (FileNotFoundError msg) →
  consistent self →
  returns_its_row data_generator →
  ∃ fs',
    run fuel data_generator "cluster" (self, fs)
      = ((_run_sequential fuel data_generator self).1, (self, fs')) ∧
    from_file fs' (filename self) = Return (_run_sequential fuel data_generator self).2.
Proof.
  intros Hmissing Hc Hrow.
  destruct (_run_cluster_loop_simulates data_generator self fuel Hrow self
              (store self None fs) (from_file_stored self fs) eq_refl Hc)
    as (fs' & Hloop & Hload').
  exists fs'. split; [|exact Hload'].
  change (run fuel data_generator "cluster" (self, fs))
    with (on_files (_run_cluster fuel data_generator) (self, fs)).
  unfold on_files, _run_cluster. unfold bind at 1. rewrite Hmissing.
  unfold bind at 1. rewrite Hloop.
  destruct (_run_sequential fuel data_generator self) as [[[]|e|] L']; cbn in *; try reflexivity.
  unfold bind. rewrite Hload'. reflexivity.
Qed.

Lemma cluster_driver_stores_first_witness :
  ∃ fs' L',
    run (H := plain_helpers) 3 fails_on_row_0 "cluster" (ledger_of [OPEN; OPEN], ∅)
    = (Return tt, (ledger_of [OPEN; OPEN], fs')) ∧
    from_file (H := plain_helpers) fs' "experimentdata" = Return L' ∧
    jobs L' = [ERROR; FINISHED].
Proof.
  destruct (cluster_driver_stores_first (H := plain_helpers) 3 fails_on_row_0
              (ledger_of [OPEN; OPEN]) ∅ "Cannot find the file experimentdata !")
    as (fs' & Hrun & Hload).
  - vm_compute. reflexivity.
  - split; reflexivity.
  - exact fails_on_row_0_returns_its_row.
  - exists fs', (_run_sequential 3 fails_on_row_0 (ledger_of [OPEN; OPEN])).2.
    split; [exact Hrun|]. split; [exact Hload|reflexivity].
Defined.

(** ** The parallel sweep *)

Lemma index_of_cons {A} `{EqDecision A} (x y : A) (l : list A) :
  index_of x (y :: l) = if decide (y = x) then Some 0%nat else S <$> index_of x l.
Proof.
  unfold index_of. cbn. destruct (decide (y = x)); [reflexivity|].
  destruct (list_find (λ y0, y0 = x) l) as [[i z]|]; reflexivity.
Qed.

Lemma open_indices_claim (jobs : _JobQueue.t) (i k : nat) :
  index_of OPEN jobs = Some i →
  open_indices jobs k = (k + i)%nat :: open_indices (<[i := IN_PROGRESS]> jobs) k.
Proof.
  revert i k. induction jobs as [|s jobs IH]; intros i k; [discriminate|].
  rewrite index_of_cons. cbn [open_indices]. destruct (decide (s = OPEN)) as [->|Hs].
  - intros [= <-]. cbn. rewrite Nat.add_0_r. reflexivity.
  - destruct (index_of OPEN jobs) as [i'|]; [|discriminate]. cbn. intros [= <-]. cbn.
    destruct (decide (s = OPEN)); [contradiction|].
    rewrite (IH i' (S k) eq_refl). f_equal. lia.
Qed.

Lemma open_indices_none (jobs : _JobQueue.t) (k : nat) :
  OPEN ∉ jobs → open_indices jobs k = [].
Proof.
  revert k. induction jobs as [|s jobs IH]; intros k Hnone; [reflexivity|].
  apply not_elem_of_cons in Hnone as [Hs Hnone]. cbn.
  destruct (decide (s = OPEN)); [congruence|]. apply IH, Hnone.
Qed.

Lemma elem_of_open_indices (jobs : _JobQueue.t) (k i : nat) :
  i ∈ open_indices jobs k ↔ (k ≤ i)%nat ∧ jobs !! (i - k)%nat = Some OPEN.
Proof.
  revert k. induction jobs as [|s jobs IH]; intros k; cbn [open_indices].
  - rewrite elem_of_nil, lookup_nil. split; [tauto|]. intros [_ ?]. discriminate.
  - assert (Hrest : i ∈ open_indices jobs (S k) ↔
                    (k < i)%nat ∧ (s :: jobs) !! (i - k)%nat = Some OPEN).
    { rewrite IH. split.
      - intros [Hle Hi]. split; [lia|].
        replace (i - k)%nat with (S (i - S k)) by lia. exact Hi.
      - intros [Hlt Hi]. split; [lia|].
        replace (i - k)%nat with (S (i - S k)) in Hi by lia. exact Hi. }
    destruct (decide (s = OPEN)) as [->|Hs].
    + rewrite elem_of_cons, Hrest. split.
      * intros [-> | [Hlt Hi]]; [|split; [lia|exact Hi]].
        split; [lia|]. rewrite Nat.sub_diag. reflexivity.
      * intros [Hle Hi]. destruct (decide (i = k)) as [->|Hne]; [left; reflexivity|].
        right. split; [lia|exact Hi].
    + rewrite Hrest. split.
      * intros [Hlt Hi]. split; [lia|exact Hi].
      * intros [Hle Hi]. split; [|exact Hi].
        destruct (decide (i = k)) as [->|Hne]; [|lia].
        rewrite Nat.sub_diag in Hi. cbn in Hi. congruence.
Qed.

Lemma claim_status_claim (jobs : _JobQueue.t) (i : nat) :
  jobs !! i = Some OPEN →
  map claim_status (<[i := IN_PROGRESS]> jobs) = map claim_status jobs.
Proof.
  intros Hi. change (map claim_status) with (fmap (M := list) claim_status).
  rewrite list_fmap_insert. apply list_insert_id.
  rewrite list_lookup_fmap, Hi. reflexivity.
Qed.

Lemma claim_status_none (jobs : _JobQueue.t) :
  OPEN ∉ jobs → map claim_status jobs = jobs.
Proof.
  induction jobs as [|s jobs IH]; intros Hnone; [reflexivity|].
  apply not_elem_of_cons in Hnone as [Hs Hnone]. cbn. rewrite (IH Hnone).
  unfold claim_status. destruct (decide (s = OPEN)); congruence.
Qed.

Lemma set_jobs_same (self : ExperimentData.t) : set_jobs (jobs self) self = self.
Proof. destruct self; reflexivity. Qed.

Lemma get_all_the_jobs_eq (fuel : nat) :
  ∀ self : ExperimentData.t,
    consistent self → (open_rows (jobs self) < fuel)%nat →
    get_all_the_jobs fuel self
    = (Return (open_views self), set_jobs (map claim_status (jobs self)) self).
Proof.
  induction fuel as [|fuel IH]; intros self Hc Hfuel; [lia|].
  cbn [get_all_the_jobs].
  destruct (_JobQueue.get_open_job (jobs self)) as [i|e|] eqn:Hopen.
  - destruct (claim_or_break_claims self i Hc Hopen) as (s & Hview & Hclaim).
    rewrite (bind_Return _ _ _ _ _ Hclaim).
    assert (Hindex : index_of OPEN (jobs self) = Some i).
    { unfold _JobQueue.get_open_job in Hopen.
      destruct (index_of OPEN (jobs self)); [congruence|discriminate]. }
    apply get_open_job_lowest in Hopen as [Hi _].
    set (self1 := set_jobs (<[i:=IN_PROGRESS]> (jobs self)) self).
    assert (Hc1 : consistent self1).
    { destruct Hc as [Hin Hout]. unfold consistent, self1. cbn. rewrite length_insert. auto. }
    assert (Hfuel1 : (open_rows (jobs self1) < fuel)%nat).
    { unfold self1. cbn.
      assert (Hip : IN_PROGRESS ≠ OPEN) by discriminate.
      pose proof (open_rows_claim (jobs self) i IN_PROGRESS Hi Hip). lia. }
    rewrite (bind_Return _ _ _ _ _ (IH self1 Hc1 Hfuel1)). unfold ret. f_equal.
    + f_equal. unfold open_views. rewrite (open_indices_claim _ _ 0%nat Hindex).
      cbn [omap list_omap plus]. rewrite Hview. reflexivity.
    + unfold self1. cbn. rewrite (claim_status_claim _ _ Hi). reflexivity.
  - assert (Hnone : OPEN ∉ jobs self).
    { apply index_of_None. unfold _JobQueue.get_open_job in Hopen.
      destruct (index_of OPEN (jobs self)); [discriminate|reflexivity]. }
    rewrite (bind_Return _ _ _ _ _ (claim_or_break_exhausted self Hnone)).
    unfold ret, open_views. rewrite (open_indices_none _ _ Hnone), (claim_status_none _ Hnone).
    rewrite set_jobs_same. reflexivity.
  - unfold _JobQueue.get_open_job in Hopen. destruct (index_of OPEN (jobs self)); discriminate.
Qed.

Lemma elem_of_open_views (self : ExperimentData.t) (s : ExperimentSample.t) :
  s ∈ open_views self ↔ ∃ i, jobs self !! i = Some OPEN ∧ row_view self i = Some s.
Proof.
  unfold open_views. rewrite list_elem_of_omap. split.
  - intros (i & Hi & Hs). apply elem_of_open_indices in Hi as [_ Hi].
    rewrite Nat.sub_0_r in Hi. eauto.
  - intros (i & Hi & Hs). exists i. split; [|exact Hs].
    apply elem_of_open_indices. rewrite Nat.sub_0_r. split; [lia|exact Hi].
Qed.

Lemma starmap_raises {A B} (f : A → Exception + B) (options : list A) :
  (∃ o e, o ∈ options ∧ f o = inl e) →
  ∃ o e, o ∈ options ∧ f o = inl e ∧ ExperimentData.starmap f options = inl e.
Proof.
  induction options as [|o options IH]; intros (o0 & e0 & Hin & Hf).
  - apply elem_of_nil in Hin. contradiction.
  - cbn. destruct (f o) as [e|b] eqn:Ho.
    + exists o, e. split; [apply list_elem_of_here|]. auto.
    + apply elem_of_cons in Hin as [-> | Hin]; [congruence|].
      destruct (IH (ex_intro _ o0 (ex_intro _ e0 (conj Hin Hf)))) as (o1 & e1 & Hin1 & Hf1 & ->).
      exists o1, e1. split; [apply list_elem_of_further, Hin1|]. auto.
Qed.

Lemma run_parallel `{ExperimentData.Helpers} (fuel : nat) (data_generator : _DataGenerator) :
  run fuel data_generator "parallel" = on_self (_run_multiprocessing fuel data_generator).
Proof. reflexivity. Qed.

Lemma open_views_jobnumbers (self : ExperimentData.t) :
  consistent self →
  ExperimentSample._jobnumber <$> open_views self = open_indices (jobs self) 0.
Proof.
  intros Hc. unfold open_views.
  assert (Hall : Forall (λ i, (i < length (jobs self))%nat) (open_indices (jobs self) 0)).
  { apply Forall_forall. intros i Hi. apply elem_of_open_indices in Hi as [_ Hi].
    rewrite Nat.sub_0_r in Hi. exact (lookup_lt_Some _ _ _ Hi). }
  induction Hall as [|i idxs Hi _ IH]; [reflexivity|].
  cbn. destruct (row_view_is_Some self i Hc Hi) as [s Hs]. rewrite Hs. cbn.
  rewrite (row_view_jobnumber _ _ _ Hs), IH. reflexivity.
Qed.

(** X3.  The first phase of the parallel sweep claims every OPEN row
    before anything is evaluated: it returns the views of exactly the OPEN
    rows, lowest row first, each OPEN row is IN_PROGRESS afterwards and
    nothing else in the ledger has changed. *)
Theorem parallel_sweep_claims_every_open_row (fuel : nat) (self : ExperimentData.t) :
  consistent self → (open_rows (jobs self) < fuel)%nat →
  ∃ options,
    get_all_the_jobs fuel self
      = (Return options, set_jobs (map claim_status (jobs self)) self) ∧
    ExperimentSample._jobnumber <$> options = open_indices (jobs self) 0 ∧
    ∀ s, s ∈ options ↔ ∃ i, jobs self !! i = Some OPEN ∧ row_view self i = Some s.
Proof.
  intros Hc Hfuel. exists (open_views self).
  split; [exact (get_all_the_jobs_eq fuel self Hc Hfuel)|].
  split; [exact (open_views_jobnumbers self Hc)|]. exact (elem_of_open_views self).
Qed.

Lemma parallel_sweep_claims_every_open_row_witness :
  ∃ options,
    get_all_the_jobs 3 (ledger_of [OPEN; FINISHED; OPEN])
      = (Return options, ledger_of [IN_PROGRESS; FINISHED; IN_PROGRESS]) ∧
    ExperimentSample._jobnumber <$> options = [0; 2]%nat.
Proof.
  destruct (parallel_sweep_claims_every_open_row 3 (ledger_of [OPEN; FINISHED; OPEN]))
    as (options & Hrun & Hnumbers & _).
  - split; reflexivity.
  - vm_compute. lia.
  - exists options. split; [exact Hrun|exact Hnumbers].
Defined.

(** X4.  When the evaluator raises on any OPEN row, the parallel sweep
    raises an exception of the evaluator to the caller of [run] and
    commits nothing: every row that was OPEN is IN_PROGRESS, and the
    stores and the files are as before. *)
Theorem parallel_sweep_commits_nothing_on_failure `{ExperimentData.Helpers} (fuel : nat)
    (data_generator : _DataGenerator) (self : ExperimentData.t) (fs : filesystem)
    (i : nat) (s : ExperimentSample.t) (e : Exception) :
  consistent self → (open_rows (jobs self) < fuel)%nat →
  jobs self !! i = Some OPEN → row_view self i = Some s → data_generator s = inl e →
  ∃ e' i' s',
    run fuel data_generator "parallel" (self, fs)
      = (Raise e', (set_jobs (map claim_status (jobs self)) self, fs)) ∧
    jobs self !! i' = Some OPEN ∧ row_view self i' = Some s' ∧ data_generator s' = inl e'.
Proof.
  intros Hc Hfuel Hi Hs He.
  destruct (starmap_raises data_generator (open_views self)) as (s' & e' & Hin & He' & Hmap).
  { exists s, e. split; [|exact He]. apply elem_of_open_views. eauto. }
  apply elem_of_open_views in Hin as (i' & Hi' & Hs').
  exists e', i', s'. split; [|auto].
  rewrite run_parallel. unfold on_self, _run_multiprocessing.
  rewrite (bind_Return _ _ _ _ _ (get_all_the_jobs_eq fuel self Hc Hfuel)).
  unfold bind, call. rewrite Hmap. reflexivity.
Qed.

Lemma parallel_sweep_commits_nothing_on_failure_witness :
  ∃ e,
    run (H := plain_helpers) 3 fails_on_row_0 "parallel" (ledger_of [OPEN; OPEN], ∅)
    = (Raise e, (ledger_of [IN_PROGRESS; IN_PROGRESS], ∅)).
Proof.
  destruct (parallel_sweep_commits_nothing_on_failure (H := plain_helpers) 3 fails_on_row_0
              (ledger_of [OPEN; OPEN]) ∅ 0
              (ExperimentSample.mk [("x", Num 0)] [("y", NaN)] 0) (RuntimeError "row 0"))
    as (e & _ & _ & Hrun & _).
  - split; reflexivity.
  - vm_compute. lia.
  - reflexivity.
  - reflexivity.
  - reflexivity.
  - exists e. exact Hrun.
Defined.

Lemma starmap_returns {A B} (f : A → Exception + B) (options : list A) :
  (∀ o, o ∈ options → ∃ b, f o = inr b) →
  ∃ bs, ExperimentData.starmap f options = inr bs ∧ Forall2 (λ o b, f o = inr b) options bs.
Proof.
  induction options as [|o options IH]; intros Hall.
  - exists []. split; [reflexivity|constructor].
  - destruct (Hall o (list_elem_of_here _ _)) as [b Hb].
    destruct IH as (bs & Hmap & Hbs).
    { intros o' Ho'. apply Hall, list_elem_of_further, Ho'. }
    exists (b :: bs). cbn. rewrite Hb, Hmap. split; [reflexivity|]. constructor; assumption.
Qed.

Lemma write_outputs_known (j : nat) (items : list (string * value)) (self : ExperimentData.t) :
  (∀ column, column ∈ items.*1 → column ∈ _Data.names (output_data self)) →
  ∃ out',
    for_each items (write_output j) self = (Return tt, set_output_data out' self) ∧
    _Data.names out' = _Data.names (output_data self) ∧
    length (_Data.data out') = length (_Data.data (output_data self)) ∧
    ∀ k, k ≠ j → _Data.data out' !! k = _Data.data (output_data self) !! k.
Proof.
  intros Hknown.
  destruct (write_outputs_spec j items self) as (out' & r & Hrun & Hr & Hrest).
  exists out'. split; [|exact Hrest]. destruct Hr as [-> | ->]; [exact Hrun|]. exfalso.
  clear Hrest. revert self Hknown out' Hrun.
  induction items as [|[column value] items IH]; intros self Hknown out' Hrun.
  - discriminate.
  - cbn [for_each] in Hrun. pose proof (write_output_eq j column value self) as Hstep.
    destruct (index_of column (_Data.names (output_data self))) as [jc|] eqn:Hcol.
    + rewrite (bind_Return _ _ _ _ _ Hstep) in Hrun.
      destruct (write_outputs_spec j items
                  (set_output_data
                     (_Data.mk (_Data.names (output_data self))
                        (alter (<[jc:=value]>) j (_Data.data (output_data self)))) self))
        as (out1 & r1 & Hrun1 & _).
      rewrite Hrun1 in Hrun. injection Hrun as -> _.
      eapply IH; [|exact Hrun1]. intros c Hc. cbn. apply Hknown. cbn.
      apply list_elem_of_further, Hc.
    + apply index_of_None in Hcol. apply Hcol, Hknown. cbn. apply list_elem_of_here.
Qed.

Lemma set_experiment_sample_known (s : ExperimentSample.t) (self : ExperimentData.t) :
  has_columns_for self s →
  ∃ out',
    set_experiment_sample s self =
      (Return tt, set_jobs (<[ExperimentSample._jobnumber s := FINISHED]> (jobs self))
                    (set_output_data out' self)) ∧
    _Data.names out' = _Data.names (output_data self) ∧
    length (_Data.data out') = length (_Data.data (output_data self)) ∧
    ∀ k, k ≠ ExperimentSample._jobnumber s →
         _Data.data out' !! k = _Data.data (output_data self) !! k.
Proof.
  intros Hknown.
  destruct (write_outputs_known (ExperimentSample.job_number s)
              (ExperimentSample.output_data s) self Hknown) as (out' & Hrun & Hrest).
  exists out'. split; [|exact Hrest].
  change (set_experiment_sample s) with
    (for_each (ExperimentSample.output_data s) (write_output (ExperimentSample.job_number s)) >>
     modify (λ self, set_jobs
       (_JobQueue.mark_as_finished (jobs self) (ExperimentSample._jobnumber s)) self)).
  rewrite (bind_Return _ _ _ _ _ Hrun). reflexivity.
Qed.

(** The second loop of the parallel sweep, when every commit finds its
    columns. *)
Lemma commit_all (samples : list ExperimentSample.t) :
  ∀ self : ExperimentData.t,
    Forall (λ s, ∀ column, column ∈ (ExperimentSample.output_data s).*1 →
                           column ∈ _Data.names (output_data self)) samples →
    ∃ out',
      for_each samples set_experiment_sample self
        = (Return tt,
           set_jobs (foldl (λ jobs i, <[i := FINISHED]> jobs) (jobs self)
                           (ExperimentSample._jobnumber <$> samples))
             (set_output_data out' self)) ∧
      _Data.names out' = _Data.names (output_data self) ∧
      length (_Data.data out') = length (_Data.data (output_data self)) ∧
      ∀ k, k ∉ ExperimentSample._jobnumber <$> samples →
           _Data.data out' !! k = _Data.data (output_data self) !! k.
Proof.
  induction samples as [|s samples IH]; intros self Hknown.
  - exists (output_data self). cbn. unfold ret.
    rewrite set_output_data_same, set_jobs_same. auto.
  - apply Forall_cons_1 in Hknown as [Hs Hknown].
    destruct (set_experiment_sample_known s self Hs) as (out1 & Hcommit & Hnames1 & Hlen1 & Hrows1).
    set (self1 := set_jobs _ _) in Hcommit.
    destruct (IH self1) as (out' & Hrest & Hnames & Hlen & Hrows).
    { unfold self1. cbn. rewrite Hnames1. exact Hknown. }
    exists out'. cbn [for_each]. rewrite (bind_Return _ _ _ _ _ Hcommit), Hrest.
    split; [destruct self; reflexivity|]. cbn in Hnames, Hlen, Hrows.
    split; [congruence|]. split; [congruence|].
    intros k Hk. cbn in Hk. apply not_elem_of_cons in Hk as [Hks Hk].
    rewrite (Hrows k Hk). apply Hrows1, Hks.
Qed.

Lemma finish_the_claimed (jobs pre : _JobQueue.t) :
  foldl (λ jobs i, <[i := FINISHED]> jobs) (pre ++ map claim_status jobs)
        (open_indices jobs (length pre))
  = pre ++ map finish_status jobs.
Proof.
  revert pre. induction jobs as [|s jobs IH]; intros pre; [reflexivity|].
  cbn [open_indices map]. unfold claim_status at 1, finish_status at 1.
  destruct (decide (s = OPEN)) as [->|Hs].
  - cbn [foldl]. rewrite insert_app_r_alt by lia. rewrite Nat.sub_diag. cbn.
    specialize (IH (pre ++ [FINISHED])). rewrite length_app, Nat.add_1_r in IH.
    rewrite <- !app_assoc in IH. exact IH.
  - specialize (IH (pre ++ [s])). rewrite length_app, Nat.add_1_r in IH.
    rewrite <- !app_assoc in IH. exact IH.
Qed.

(** X5.  When the evaluator returns on every OPEN row with a view of
    that row, and the output store has a column for every output, the
    parallel sweep returns normally, every row that was OPEN is FINISHED,
    and every other row keeps its status and its output row. *)
Theorem parallel_sweep_finishes_every_open_row `{ExperimentData.Helpers} (fuel : nat)
    (data_generator : _DataGenerator) (self : ExperimentData.t) (fs : filesystem) :
  consistent self → (open_rows (jobs self) < fuel)%nat →
  returns_its_row data_generator →
  (∀ s, s ∈ open_views self →
        ∃ s', data_generator s = inr s' ∧ has_columns_for self s') →
  ∃ self',
    run fuel data_generator "parallel" (self, fs) = (Return tt, (self', fs)) ∧
    jobs self' = map finish_status (jobs self) ∧
    input_data self' = input_data self ∧
    ∀ i st, jobs self !! i = Some st → st ≠ OPEN →
            _Data.data (output_data self') !! i = _Data.data (output_data self) !! i.
Proof.
  intros Hc Hfuel Hrow Hall.
  destruct (starmap_returns data_generator (open_views self)) as (samples & Hmap & Hsamples).
  { intros s Hs. destruct (Hall s Hs) as (s' & Hs' & _). eauto. }
  set (self1 := set_jobs (map claim_status (jobs self)) self).
  destruct (commit_all samples self1) as (out' & Hcommit & _ & _ & Hrows).
  { apply Forall_forall. intros s' Hs'.
    apply list_elem_of_lookup in Hs' as [k Hk].
    destruct (Forall2_lookup_r _ _ _ k s' Hsamples Hk) as (s & Hks & Hrun).
    destruct (Hall s (list_elem_of_lookup_2 _ _ _ Hks)) as (s'' & Hrun' & Hknown).
    rewrite Hrun in Hrun'. injection Hrun' as <-. exact Hknown. }
  assert (Hnumbers : ExperimentSample._jobnumber <$> samples = open_indices (jobs self) 0).
  { rewrite <- (open_views_jobnumbers self Hc).
    clear -Hsamples Hrow. induction Hsamples as [|s s' views samples Hs _ IH]; [reflexivity|].
    cbn. rewrite (Hrow _ _ Hs), IH. reflexivity. }
  rewrite Hnumbers in Hcommit, Hrows.
  eexists. split.
  - rewrite run_parallel. unfold on_self, _run_multiprocessing.
    rewrite (bind_Return _ _ _ _ _ (get_all_the_jobs_eq fuel self Hc Hfuel)).
    unfold bind at 1, call. rewrite Hmap. fold self1. rewrite Hcommit. reflexivity.
  - cbn. split; [exact (finish_the_claimed (jobs self) [])|]. split; [reflexivity|].
    intros i st Hi Hst. apply Hrows. rewrite elem_of_open_indices, Nat.sub_0_r.
    intros [_ Hopen]. congruence.
Qed.

Lemma parallel_sweep_finishes_every_open_row_witness :
  ∃ self',
    run (H := plain_helpers) 3 fails_on_row_0 "parallel" (ledger_of [ERROR; OPEN; OPEN], ∅)
    = (Return tt, (self', ∅)) ∧
    jobs self' = [ERROR; FINISHED; FINISHED].
Proof.
  destruct (parallel_sweep_finishes_every_open_row (H := plain_helpers) 3 fails_on_row_0
              (ledger_of [ERROR; OPEN; OPEN]) ∅)
    as (self' & Hrun & Hjobs & _).
  - split; reflexivity.
  - vm_compute. lia.
  - exact fails_on_row_0_returns_its_row.
  - intros s Hs. vm_compute in Hs.
    repeat (apply elem_of_cons in Hs as [->|Hs]);
      [eexists; split; [reflexivity|intros column Hcolumn; exact Hcolumn]..|inversion Hs].
  - exists self'. split; [exact Hrun|exact Hjobs].
Defined.

(** ** Sweeps of a ledger without open rows, and after [mark_all_open] *)

(** X6.  On a ledger without an OPEN row the sequential and the parallel
    sweep of [run] return at once, whatever the evaluator is: the ledger
    and the files are as before. *)
Theorem sweep_without_open_rows `{ExperimentData.Helpers} (fuel : nat)
    (data_generator : _DataGenerator) (self : ExperimentData.t) (fs : filesystem) :
  OPEN ∉ jobs self → (0 < fuel)%nat →
  run fuel data_generator "sequential" (self, fs) = (Return tt, (self, fs)) ∧
  run fuel data_generator "parallel" (self, fs) = (Return tt, (self, fs)).
Proof.
  intros Hnone Hfuel. destruct fuel as [|fuel]; [lia|]. split.
  - rewrite run_sequential. apply on_self_Return. rewrite _run_sequential_unfold.
    rewrite (bind_Return _ _ _ _ _ (claim_or_break_exhausted self Hnone)). reflexivity.
  - rewrite run_parallel. apply on_self_Return. unfold _run_multiprocessing.
    cbn [get_all_the_jobs].
    rewrite (bind_Return _ _ _ _ _
               (bind_Return _ _ _ _ _ (claim_or_break_exhausted self Hnone))).
    reflexivity.
Qed.

Lemma sweep_without_open_rows_witness :
  run (H := plain_helpers) 1 fails_on_row_0 "sequential" (settled_ledger, ∅)
    = (Return tt, (settled_ledger, ∅)) ∧
  run (H := plain_helpers) 1 fails_on_row_0 "parallel" (settled_ledger, ∅)
    = (Return tt, (settled_ledger, ∅)).
Proof.
  apply (sweep_without_open_rows (H := plain_helpers) 1 fails_on_row_0 settled_ledger ∅).
  - apply (bool_decide_unpack _). vm_compute. reflexivity.
  - lia.
Defined.

(** X7.  After [mark_all_open], the sequential sweep of [run] with an
    evaluator that answers with a view of the row it was given settles the
    whole ledger: every row is FINISHED or ERROR, so [is_all_finished] of
    the job queue holds. *)
Theorem sweep_after_mark_all_open `{ExperimentData.Helpers} (fuel : nat)
    (data_generator : _DataGenerator) (self : ExperimentData.t) (fs : filesystem) :
  consistent self → returns_its_row data_generator →
  (length (jobs self) < fuel)%nat →
  ∃ self',
    run fuel data_generator "sequential" ((mark_all_open self).2, fs)
      = (Return tt, (self', fs)) ∧
    length (jobs self') = length (jobs self) ∧
    Forall (λ st, st = FINISHED ∨ st = ERROR) (jobs self') ∧
    _JobQueue.is_all_finished (jobs self') = true.
Proof.
  intros [Hin Hout] Hrow Hfuel.
  set (self0 := (mark_all_open self).2).
  assert (Hjobs0 : jobs self0 = map (λ _, OPEN) (jobs self)) by reflexivity.
  destruct (_run_sequential_spec data_generator fuel self0)
    as (self' & Hrun & _ & Hlen & _ & _ & Hswept).
  { unfold consistent. rewrite Hjobs0, length_map. split; [exact Hin|exact Hout]. }
  { pose proof (open_rows_le_length (jobs self0)) as Hle.
    rewrite Hjobs0, length_map in Hle. rewrite Hjobs0. lia. }
  destruct (Hswept Hrow) as [Hopen _].
  rewrite Hjobs0, length_map in Hlen.
  assert (Hall : Forall (λ st, st = FINISHED ∨ st = ERROR) (jobs self')).
  { apply Forall_lookup. intros i st Hi.
    assert (Hi0 : jobs self0 !! i = Some OPEN).
    { rewrite Hjobs0, list_lookup_fmap.
      destruct (lookup_lt_is_Some_2 (jobs self) i) as [st0 ->]; [|reflexivity].
      apply lookup_lt_Some in Hi. lia. }
    destruct (Hopen i Hi0) as [[Hfin | Herr] _]; [left | right]; congruence. }
  exists self'. split; [rewrite run_sequential; apply on_self_Return, Hrun|].
  split; [exact Hlen|]. split; [exact Hall|].
  unfold _JobQueue.is_all_finished. apply forallb_forall. intros st Hst.
  apply bool_decide_eq_true_2. rewrite Forall_forall in Hall.
  apply Hall, list_elem_of_In, Hst.
Qed.

Lemma sweep_after_mark_all_open_witness :
  ∃ self',
    run (H := plain_helpers) 4 fails_on_row_0 "sequential"
      ((mark_all_open (ledger_of [FINISHED; IN_PROGRESS; ERROR])).2, ∅)
    = (Return tt, (self', ∅)) ∧
    _JobQueue.is_all_finished (jobs self') = true.
Proof.
  destruct (sweep_after_mark_all_open (H := plain_helpers) 4 fails_on_row_0
              (ledger_of [FINISHED; IN_PROGRESS; ERROR]) ∅)
    as (self' & Hrun & _ & _ & Hall).
  - split; reflexivity.
  - exact fails_on_row_0_returns_its_row.
  - vm_compute. lia.
  - exists self'. split; [exact Hrun|exact Hall].
Defined.

(** ** Committing a row whose columns are missing *)

Lemma write_outputs_unknown (j : nat) (items : list (string * value)) :
  ∀ self : ExperimentData.t,
    ¬ (∀ column, column ∈ items.*1 → column ∈ _Data.names (output_data self)) →
    ∃ out', for_each items (write_output j) self = (Raise KeyError, set_output_data out' self).
Proof.
  induction items as [|[column value] items IH]; intros self Hunknown.
  - exfalso. apply Hunknown. intros column Hin. cbn in Hin. inversion Hin.
  - cbn [for_each]. pose proof (write_output_eq j column value self) as Hstep.
    destruct (index_of column (_Data.names (output_data self))) as [jc|] eqn:Hcol.
    + rewrite (bind_Return _ _ _ _ _ Hstep).
      destruct (IH (set_output_data
                      (_Data.mk (_Data.names (output_data self))
                         (alter (<[jc:=value]>) j (_Data.data (output_data self)))) self))
        as (out' & Hrest).
      * intros Hknown. apply Hunknown. intros c Hc. cbn in Hc.
        apply elem_of_cons in Hc as [->|Hc]; [|exact (Hknown c Hc)].
        apply index_of_Some in Hcol as [Hcol _]. exact (list_elem_of_lookup_2 _ _ _ Hcol).
      * exists out'. rewrite Hrest. destruct self; reflexivity.
    + exists (output_data self). rewrite (bind_Raise _ _ _ _ _ Hstep).
      rewrite set_output_data_same. reflexivity.
Qed.

Lemma set_experiment_sample_unknown (s : ExperimentSample.t) (self : ExperimentData.t) :
  ¬ has_columns_for self s →
  ∃ out', set_experiment_sample s self = (Raise KeyError, set_output_data out' self).
Proof.
  intros Hunknown.
  destruct (write_outputs_unknown (ExperimentSample.job_number s)
              (ExperimentSample.output_data s) self Hunknown) as (out' & Hrun).
  exists out'.
  change (set_experiment_sample s) with
    (for_each (ExperimentSample.output_data s) (write_output (ExperimentSample.job_number s)) >>
     modify (λ self, set_jobs
       (_JobQueue.mark_as_finished (jobs self) (ExperimentSample._jobnumber s)) self)).
  rewrite (bind_Raise _ _ _ _ _ Hrun). reflexivity.
Qed.

(** ** The sequential sweep, row by row *)

(** The turn of the sequential sweep on the claimed row: the row is
    FINISHED when the evaluator returns and the commit finds its columns,
    and ERROR otherwise; no other row changes. *)
Lemma turn_settles (data_generator : _DataGenerator) (s : ExperimentSample.t)
    (self : ExperimentData.t) :
  returns_its_row data_generator →
  ∃ out' st,
    evaluate_and_commit data_generator s self =
      (Return tt, set_jobs (<[ExperimentSample._jobnumber s := st]> (jobs self))
                    (set_output_data out' self)) ∧
    _Data.names out' = _Data.names (output_data self) ∧
    length (_Data.data out') = length (_Data.data (output_data self)) ∧
    (∀ k, k ≠ ExperimentSample._jobnumber s →
          _Data.data out' !! k = _Data.data (output_data self) !! k) ∧
    (st = FINISHED ∨ st = ERROR) ∧
    (∀ s', data_generator s = inr s' →
           (has_columns_for self s' → st = FINISHED) ∧
           (¬ has_columns_for self s' → st = ERROR)).
Proof.
  intros Hrow. unfold evaluate_and_commit, try_except, bind, call.
  destruct (data_generator s) as [e|s'] eqn:Hrun.
  - cbn.
    exists (_Data.mk (_Data.names (output_data self))
              (alter (map (λ _, ERROR_SENTINEL)) (ExperimentSample._jobnumber s)
                 (_Data.data (output_data self)))), ERROR.
    split; [destruct self; reflexivity|]. split; [reflexivity|].
    split; [cbn; apply length_alter|]. split.
    + intros k Hk. cbn. apply list_lookup_alter_ne. congruence.
    + split; [auto|]. intros s' Hs'. discriminate.
  - pose proof (Hrow _ _ Hrun) as Hnumber.
    destruct (set_experiment_sample_spec s' self) as (out1 & [Hok|Hko] & Hnames & Hlen & Hrows).
    + rewrite Hok, Hnumber. exists out1, FINISHED.
      split; [reflexivity|]. split; [exact Hnames|]. split; [exact Hlen|].
      split; [intros k Hk; apply Hrows; congruence|]. split; [auto|].
      intros s'' [= <-]. split; [reflexivity|]. intros Hunknown.
      destruct (set_experiment_sample_unknown s' self Hunknown) as (out' & Hraise).
      rewrite Hraise in Hok. discriminate.
    + rewrite Hko. cbn.
      exists (_Data.mk (_Data.names out1)
                (alter (map (λ _, ERROR_SENTINEL)) (ExperimentSample._jobnumber s)
                   (_Data.data out1))), ERROR.
      split; [destruct self; reflexivity|]. split; [exact Hnames|].
      split; [cbn; rewrite length_alter; exact Hlen|]. split.
      * intros k Hk. cbn. rewrite list_lookup_alter_ne by congruence.
        apply Hrows. congruence.
      * split; [auto|]. intros s'' [= <-]. split; [|reflexivity]. intros Hknown.
        destruct (set_experiment_sample_known s' self Hknown) as (out' & Hreturn & _).
        rewrite Hreturn in Hko. discriminate.
Qed.

Lemma _run_sequential_rows (data_generator : _DataGenerator) (fuel : nat) :
  returns_its_row data_generator →
  ∀ self : ExperimentData.t,
    consistent self → (open_rows (jobs self) < fuel)%nat →
    ∃ self',
      _run_sequential fuel data_generator self = (Return tt, self') ∧
      _Data.names (output_data self') = _Data.names (output_data self) ∧
      (∀ i st, jobs self !! i = Some st → st ≠ OPEN → jobs self' !! i = Some st) ∧
      (∀ i s s', jobs self !! i = Some OPEN → row_view self i = Some s →
                 data_generator s = inr s' →
                 (has_columns_for self s' → jobs self' !! i = Some FINISHED) ∧
                 (¬ has_columns_for self s' → jobs self' !! i = Some ERROR)).
Proof.
  intros Hrow. induction fuel as [|fuel IH]; intros self Hc Hfuel; [lia|].
  rewrite _run_sequential_unfold.
  destruct (_JobQueue.get_open_job (jobs self)) as [i|e|] eqn:Hopen.
  - destruct (claim_or_break_claims self i Hc Hopen) as (s & Hview & Hclaim).
    rewrite (bind_Return _ _ _ _ _ Hclaim).
    apply get_open_job_lowest in Hopen as [Hi _].
    pose proof (row_view_jobnumber _ _ _ Hview) as Hnumber.
    set (self1 := set_jobs (<[i:=IN_PROGRESS]> (jobs self)) self) in *.
    destruct (turn_settles data_generator s self1 Hrow)
      as (out2 & st & Hturn & Hnames & Hlen & Hrows & Hst & Hcolumns).
    rewrite Hnumber in Hturn, Hrows.
    rewrite (bind_Return _ _ _ _ _ Hturn).
    set (self2 := set_jobs (<[i:=st]> _) _) in *.
    assert (Hst' : st ≠ OPEN) by (destruct Hst; congruence).
    assert (Hc2 : consistent self2).
    { destruct Hc as [Hin Hout]. unfold consistent, self2, self1. cbn.
      rewrite !length_insert. split; [exact Hin|]. rewrite Hlen. exact Hout. }
    assert (Hfuel2 : (open_rows (jobs self2) < fuel)%nat).
    { unfold self2, self1. cbn.
      pose proof (open_rows_mark_le (<[i:=IN_PROGRESS]> (jobs self)) i st Hst') as Hle.
      assert (Hip : IN_PROGRESS ≠ OPEN) by discriminate.
      pose proof (open_rows_claim (jobs self) i IN_PROGRESS Hi Hip) as Hlt. lia. }
    destruct (IH self2 Hc2 Hfuel2) as (self' & Hrun & Hnames' & Hkept & Hsettled).
    assert (Hjobs2 : ∀ k, k ≠ i → jobs self2 !! k = jobs self !! k).
    { intros k Hk. cbn. rewrite !list_lookup_insert_ne by congruence. reflexivity. }
    assert (Hjobs2i : jobs self2 !! i = Some st).
    { cbn. apply list_lookup_insert_eq. rewrite length_insert.
      exact (lookup_lt_Some _ _ _ Hi). }
    assert (Hview2 : ∀ k, k ≠ i → row_view self2 k = row_view self k).
    { intros k Hk. unfold row_view. cbn. rewrite (Hrows k Hk), Hnames. reflexivity. }
    assert (Hcolumns2 : ∀ s', has_columns_for self2 s' ↔ has_columns_for self s').
    { intros s'. unfold has_columns_for. cbn. rewrite Hnames. reflexivity. }
    exists self'. split; [exact Hrun|].
    split; [rewrite Hnames'; exact Hnames|]. split.
    + intros k st0 Hk Hst0.
      assert (Hne : k ≠ i) by (intros ->; congruence).
      rewrite <- (Hjobs2 k Hne) in Hk. exact (Hkept k st0 Hk Hst0).
    + intros k s0 s' Hk Hs0 Hs'. destruct (decide (k = i)) as [->|Hne].
      * rewrite Hview in Hs0. injection Hs0 as <-.
        rewrite (Hkept i st Hjobs2i Hst').
        destruct (Hcolumns s' Hs') as [Hknown Hunknown].
        split; intros Hcol; f_equal; [apply Hknown | apply Hunknown]; exact Hcol.
      * rewrite <- (Hjobs2 k Hne) in Hk. rewrite <- (Hview2 k Hne) in Hs0.
        destruct (Hsettled k s0 s' Hk Hs0 Hs') as [Hknown Hunknown].
        split; intros Hcol; [apply Hknown | apply Hunknown]; rewrite Hcolumns2; exact Hcol.
  - assert (Hnone : OPEN ∉ jobs self).
    { apply index_of_None. unfold _JobQueue.get_open_job in Hopen.
      destruct (index_of OPEN (jobs self)); [discriminate|reflexivity]. }
    rewrite (bind_Return _ _ _ _ _ (claim_or_break_exhausted self Hnone)).
    exists self. split; [reflexivity|]. split; [reflexivity|]. split; [auto|].
    intros i s s' Hi. exfalso. apply Hnone. exact (list_elem_of_lookup_2 _ _ _ Hi).
  - unfold _JobQueue.get_open_job in Hopen. destruct (index_of OPEN (jobs self)); discriminate.
Qed.

(** X24.  After [add_new_output_column(name)], the sequential sweep with
    an evaluator that answers with a view of its row and gives no output
    but [name] finishes every OPEN row on which the evaluator returns,
    whatever columns the output store had before. *)
Theorem sweep_after_add_new_output_column `{ExperimentData.Helpers} (fuel : nat)
    (data_generator : _DataGenerator) (name : string) (self : ExperimentData.t)
    (fs : filesystem) :
  consistent self →
  returns_its_row data_generator →
  (∀ s s' column, data_generator s = inr s' →
                  column ∈ (ExperimentSample.output_data s').*1 → column = name) →
  (open_rows (jobs self) < fuel)%nat →
  ∃ self',
    run fuel data_generator "sequential" ((add_new_output_column name self).2, fs)
      = (Return tt, (self', fs)) ∧
    ∀ i s s', jobs self !! i = Some OPEN →
              row_view (add_new_output_column name self).2 i = Some s →
              data_generator s = inr s' →
              jobs self' !! i = Some FINISHED.
Proof.
  intros [Hin Hout] Hrow Honly Hfuel.
  set (self0 := (add_new_output_column name self).2).
  destruct (_run_sequential_rows data_generator fuel Hrow self0)
    as (self' & Hrun & _ & _ & Hsettled).
  { unfold consistent, self0. cbn. rewrite length_map. split; [exact Hin|exact Hout]. }
  { exact Hfuel. }
  exists self'. split; [rewrite run_sequential; apply on_self_Return, Hrun|].
  intros i s s' Hi Hs Hs'. apply (Hsettled i s s' Hi Hs Hs').
  intros column Hcolumn. rewrite (Honly s s' column Hs' Hcolumn).
  unfold self0. cbn. apply elem_of_app. right. apply list_elem_of_here.
Qed.

Lemma sweep_after_add_new_output_column_witness :
  ∃ self',
    run (H := plain_helpers) 2 fails_on_row_0 "sequential"
      ((add_new_output_column "y" ledger_without_outputs).2, ∅)
    = (Return tt, (self', ∅)) ∧
    jobs self' !! 1%nat = Some FINISHED.
Proof.
  destruct (sweep_after_add_new_output_column (H := plain_helpers) 2 fails_on_row_0 "y"
              ledger_without_outputs ∅)
    as (self' & Hrun & Hsettled).
  - split; reflexivity.
  - exact fails_on_row_0_returns_its_row.
  - exact fails_on_row_0_gives_y.
  - vm_compute. lia.
  - exists self'. split; [exact Hrun|].
    apply (Hsettled 1%nat (ExperimentSample.mk [("x", Num 1)] [("y", NaN)] 1)
             (ExperimentSample.mk [("x", Num 1)] [("y", Num 7)] 1));
      reflexivity.
Defined.

(** ** Removing and appending rows *)

Lemma slice_from_seq (k : Z) (n : nat) :
  k ≠ 0%Z →
  slice_from (- k) (seq 0 n) = seq (rows_kept k n) (n - rows_kept k n).
Proof.
  intros Hk. unfold slice_from, rows_kept. rewrite length_seq, drop_seq.
  destruct (Z.ltb_spec (- k) 0); destruct (Z.ltb_spec k 0); try lia; f_equal; lia.
Qed.

Lemma rows_kept_le (k : Z) (n : nat) : (rows_kept k n ≤ n)%nat.
Proof. unfold rows_kept. destruct (k <? 0)%Z; lia. Qed.

Lemma first_rows_all (self : ExperimentData.t) :
  consistent self → first_rows (length (jobs self)) self = self.
Proof.
  intros [Hin Hout]. unfold first_rows.
  rewrite <- Hin at 1. rewrite <- Hout at 1. rewrite !firstn_all.
  destruct self as [? [] [] ? ?]; reflexivity.
Qed.

Lemma remove_rows_bottom_eq (k : Z) (self : ExperimentData.t) :
  consistent self →
  remove_rows_bottom k self
  = (Return tt, first_rows (rows_kept k (length (jobs self))) self).
Proof.
  intros Hc. pose proof Hc as [Hin Hout]. unfold remove_rows_bottom.
  destruct (Z.eqb_spec k 0) as [->|Hk].
  - unfold rows_kept. cbn. rewrite Nat.sub_0_r, (first_rows_all self Hc). reflexivity.
  - unfold bind, get, modify, _Data.indices, _Data.len. cbn. rewrite Hin.
    rewrite (slice_from_seq k _ Hk).
    pose proof (rows_kept_le k (length (jobs self))) as Hle.
    unfold first_rows, _Data.remove, _JobQueue.remove. cbn.
    rewrite !remove_at_tail by lia. rewrite !Nat.sub_0_r. reflexivity.
Qed.

(** X9.  On a ledger whose three structures have one entry per row,
    [remove_rows_bottom] returns and keeps a prefix of the rows: for a
    positive number the rows but the last [number_of_rows] (none when the
    ledger has fewer), and for a negative number the first
    [- number_of_rows] rows, since the rows to remove come from the slice
    [index[-number_of_rows:]].  The columns, the schema and the file name
    stay. *)
Theorem remove_rows_bottom_keeps_a_prefix (number_of_rows : Z) (self : ExperimentData.t) :
  consistent self →
  ∃ self',
    remove_rows_bottom number_of_rows self = (Return tt, self') ∧
    self' = first_rows (rows_kept number_of_rows (length (jobs self))) self ∧
    consistent self' ∧
    ((0 ≤ number_of_rows)%Z →
       length (jobs self') = (length (jobs self) - Z.to_nat number_of_rows)%nat) ∧
    ((number_of_rows < 0)%Z →
       length (jobs self') = Nat.min (Z.to_nat (- number_of_rows)) (length (jobs self))).
Proof.
  intros Hc. pose proof Hc as [Hin Hout].
  exists (first_rows (rows_kept number_of_rows (length (jobs self))) self).
  split; [exact (remove_rows_bottom_eq number_of_rows self Hc)|]. split; [reflexivity|].
  pose proof (rows_kept_le number_of_rows (length (jobs self))) as Hle.
  unfold consistent, first_rows. cbn. rewrite !length_take.
  split; [lia|]. unfold rows_kept.
  split; intros Hk; destruct (Z.ltb_spec number_of_rows 0); lia.
Qed.

Lemma remove_rows_bottom_keeps_a_prefix_witness :
  ∃ self',
    remove_rows_bottom (-1) (ledger_of [OPEN; FINISHED; ERROR]) = (Return tt, self') ∧
    jobs self' = [OPEN].
Proof.
  destruct (remove_rows_bottom_keeps_a_prefix (-1) (ledger_of [OPEN; FINISHED; ERROR]))
    as (self' & Hrun & Heq & _).
  - split; reflexivity.
  - exists self'. split; [exact Hrun|]. rewrite Heq. reflexivity.
Defined.

(** X10.  Appending a batch with [add_experiments] and removing as many
    rows from the bottom as the batch has gives back the job statuses and
    the number of rows of the ledger. *)
Theorem add_then_remove_restores_the_rows (batch self : ExperimentData.t) :
  consistent self → consistent batch →
  ∃ self',
    (add_experiments batch >>
     remove_rows_bottom (Z.of_nat (length (jobs batch)))) self = (Return tt, self') ∧
    jobs self' = jobs self ∧
    consistent self' ∧
    filename self' = filename self ∧ domain self' = domain self.
Proof.
  intros Hself Hbatch.
  destruct (add_experiments_spec batch self Hself Hbatch) as (self1 & Hadd & Hc1 & Hlen1).
  exists (first_rows (rows_kept (Z.of_nat (length (jobs batch))) (length (jobs self1))) self1).
  split.
  { rewrite (bind_Return _ _ _ _ _ Hadd). apply remove_rows_bottom_eq, Hc1. }
  assert (Hkept : rows_kept (Z.of_nat (length (jobs batch))) (length (jobs self1))
                  = length (jobs self)).
  { unfold rows_kept. destruct (Z.ltb_spec (Z.of_nat (length (jobs batch))) 0); lia. }
  rewrite Hkept. clear Hkept.
  assert (Hjobs1 : jobs self1 = jobs self ++ jobs batch).
  { injection Hadd as <-. reflexivity. }
  assert (Hmeta : filename self1 = filename self ∧ domain self1 = domain self).
  { injection Hadd as <-. split; reflexivity. }
  destruct Hc1 as [Hin1 Hout1].
  unfold consistent, first_rows. cbn. rewrite !length_take, Hin1, Hout1.
  rewrite Hjobs1, take_app_length.
  split; [reflexivity|]. split; [split; reflexivity|]. exact Hmeta.
Qed.

Lemma add_then_remove_restores_the_rows_witness :
  ∃ self',
    (add_experiments three_rows >> remove_rows_bottom 3) (ledger_of [FINISHED; ERROR])
      = (Return tt, self') ∧
    jobs self' = [FINISHED; ERROR].
Proof.
  destruct (add_then_remove_restores_the_rows three_rows (ledger_of [FINISHED; ERROR]))
    as (self' & Hrun & Hjobs & _).
  - split; reflexivity.
  - split; reflexivity.
  - exists self'. split; [exact Hrun|exact Hjobs].
Defined.

(** ** The sum of two ledgers and the construction from data frames *)

(** X11.  The sum [self + other] of two ledgers raises [ValueError] when
    the schemas differ, and is otherwise the ledger that [self] becomes by
    [add_experiments(other)]; the sum is a new object and no file is
    read. *)
Theorem sum_is_add_experiments `{ExperimentData.Helpers} (fs : filesystem)
    (self other : ExperimentData.t) :
  __add__ fs self other =
  if decide (domain self = domain other)
  then Return (add_experiments other self).2
  else Raise (ValueError "Cannot add ExperimentData objects with different domains").
Proof.
  unfold __add__. destruct (decide (domain self = domain other)) as [Heq|Hne].
  - rewrite bool_decide_eq_false_2 by (intros Hne; exact (Hne Heq)).
    unfold _from_object. rewrite init_from_domain. reflexivity.
  - rewrite bool_decide_eq_true_2 by exact Hne. reflexivity.
Qed.

(** X13.  For a non-empty input frame and an output frame that is absent
    or non-empty, [from_dataframe] with a schema builds the ledger that
    the constructor builds from the same schema and frames. *)
Theorem from_dataframe_agrees_with_init `{ExperimentData.Helpers}
    (Domain_from_dataframe : _Data.t → outcome Domain.t) (fs : filesystem)
    (dataframe_input : _Data.t) (dataframe_output : option _Data.t)
    (domain : Domain.t) (filename : string) :
  _Data.is_empty dataframe_input = false →
  (∀ output, dataframe_output = Some output → _Data.is_empty output = false) →
  from_dataframe Domain_from_dataframe fs dataframe_input dataframe_output
    (Some domain) filename
  = __init__ fs (Some (of_Domain domain)) (Some (of_DataFrame dataframe_input))
      (of_DataFrame <$> dataframe_output) None filename.
Proof.
  intros Hin Hout. unfold from_dataframe. cbn [mbind outcome_bind].
  rewrite init_from_domain. unfold __init__.
  cbn [mbind outcome_bind _construct_data _construct_domain fmap option_fmap option_map].
  destruct dataframe_output as [output|]; cbn.
  - rewrite (Hout output eq_refl), Hin. reflexivity.
  - rewrite Hin. reflexivity.
Qed.

Lemma from_dataframe_agrees_with_init_witness :
  from_dataframe (H := plain_helpers) (λ _, Return []) ∅
    (_Data.mk ["x"] [[Num 1]]) (Some (_Data.mk ["y"] [[Num 2]]))
    (Some [("x", ContinuousParameter)]) "experimentdata"
  = Return (ExperimentData.mk "experimentdata" (_Data.mk ["x"] [[Num 1]])
              (_Data.mk ["y"] [[Num 2]]) [("x", ContinuousParameter)] [FINISHED]).
Proof.
  rewrite (from_dataframe_agrees_with_init (H := plain_helpers) (λ _, Return []) ∅
             (_Data.mk ["x"] [[Num 1]]) (Some (_Data.mk ["y"] [[Num 2]]))
             [("x", ContinuousParameter)] "experimentdata").
  - reflexivity.
  - reflexivity.
  - intros output [= <-]. reflexivity.
Defined.

(** ** Loading with a file missing, and from the original working directory *)

(** X14.  Of the files that [store] has written, the [_jobs] file and the
    [_domain] file are needed: without either of them the load raises
    [FileNotFoundError], and the message names the [_data.csv] file
    whichever file is missing. *)
Theorem load_without_jobs_or_domain_file `{ExperimentData.Helpers} (L : ExperimentData.t)
    (name : string) (fs : filesystem) :
  _from_file_attempt (delete (name +:+ "_jobs") (store L (Some name) fs)) name
    = Raise (FileNotFoundError ("Cannot find the file " +:+ name +:+ "_data.csv.")) ∧
  _from_file_attempt (delete (name +:+ "_domain") (store L (Some name) fs)) name
    = Raise (FileNotFoundError ("Cannot find the file " +:+ name +:+ "_data.csv.")).
Proof.
  destruct (store_lookup L name fs) as (Hdomain & Hjobs & Houtput & Hdata).
  assert (H1 : name +:+ "_jobs" ≠ name +:+ "_domain") by (apply suffix_ne; discriminate).
  assert (H2 : name +:+ "_jobs" ≠ name +:+ "_data") by (apply suffix_ne; discriminate).
  assert (H3 : name +:+ "_jobs" ≠ name +:+ "_output") by (apply suffix_ne; discriminate).
  unfold _from_file_attempt, Domain_from_file, _Data_from_file, _JobQueue_from_file.
  split.
  - rewrite (lookup_delete_ne _ (name +:+ "_jobs") (name +:+ "_domain")) by assumption.
    rewrite (lookup_delete_ne _ (name +:+ "_jobs") (name +:+ "_data")) by assumption.
    rewrite (lookup_delete_ne _ (name +:+ "_jobs") (name +:+ "_output")) by assumption.
    rewrite lookup_delete_eq.
    rewrite Hdomain. cbn [mbind outcome_bind].
    rewrite init_from_domain. cbn [mbind outcome_bind].
    rewrite Hdata. cbn [mbind outcome_bind].
    rewrite Houtput. reflexivity.
  - rewrite lookup_delete_eq. reflexivity.
Qed.

(** X15.  When the [_domain] file is not found under the given name,
    [from_file] looks under the directory that hydra was started in: the
    result is that of the attempt at [get_original_cwd() / filename], and
    when hydra is not initialised the [ValueError] of [get_original_cwd]
    becomes a [FileNotFoundError] that names the file. *)
Theorem from_file_falls_back_to_original_cwd `{ExperimentData.Helpers} (fs : filesystem)
    (name : string) :
  fs !! (name +:+ "_domain") = None →
  (∀ cwd, get_original_cwd = Return cwd →
          from_file fs name = _from_file_attempt fs (Path_div cwd name)) ∧
  (∀ msg, get_original_cwd = Raise (ValueError msg) →
          from_file fs name
          = Raise (FileNotFoundError ("Cannot find the file " +:+ name +:+ " !"))).
Proof.
  intros Hnone.
  assert (Hfirst : _from_file_attempt fs name
                   = Raise (FileNotFoundError
                              ("Cannot find the file " +:+ name +:+ "_data.csv."))).
  { unfold _from_file_attempt, Domain_from_file. rewrite Hnone. reflexivity. }
  unfold from_file. rewrite Hfirst. cbn [except_FileNotFoundError].
  split; [intros cwd -> | intros msg ->]; reflexivity.
Qed.

Lemma from_file_falls_back_to_original_cwd_witness :
  from_file (H := hydra_helpers)
    (store (ledger_of [OPEN]) (Some "/home/user/experimentdata") ∅) "experimentdata"
  = Return (set_filename "/home/user/experimentdata" (ledger_of [OPEN])).
Proof.
  assert (Hnone : store (ledger_of [OPEN]) (Some "/home/user/experimentdata") ∅
                  !! ("experimentdata" +:+ "_domain") = None)
    by (vm_compute; reflexivity).
  rewrite (proj1 (from_file_falls_back_to_original_cwd (H := hydra_helpers)
                    (store (ledger_of [OPEN]) (Some "/home/user/experimentdata") ∅)
                    "experimentdata" Hnone)
             "/home/user" eq_refl).
  vm_compute. reflexivity.
Defined.

(** ** Operations on the files of a ledger *)

(** X16.  An operation under [_access_file] runs on the ledger that the
    files hold, not on the object of the caller.  When it returns, the
    files hold the ledger as the operation has left it (loading them gives
    that ledger); when it raises, the files are as before. *)
Theorem access_file_commits_or_leaves `{ExperimentData.Helpers} {A}
    (operation : M ExperimentData.t A) (self L : ExperimentData.t) (fs : filesystem) :
  from_file fs (filename self) = Return L →
  (∀ value L', operation L = (Return value, L') →
     ∃ fs', _access_file operation self fs = (Return value, fs') ∧
            from_file fs' (filename L') = Return L') ∧
  (∀ e L', operation L = (Raise e, L') → _access_file operation self fs = (Raise e, fs)).
Proof.
  intros Hload. pose proof (_access_file_eq operation self L fs Hload) as Hop.
  split.
  - intros value L' Hrun. rewrite Hrun in Hop.
    exists (store L' (Some (filename L')) fs). split; [exact Hop|].
    apply from_file_stored.
  - intros e L' Hrun. rewrite Hrun in Hop. exact Hop.
Qed.

Lemma access_file_commits_or_leaves_witness :
  ∃ fs' L',
    _access_file (H := plain_helpers) (set_error 0) (ledger_of [FINISHED])
      (store (ledger_of [OPEN; OPEN]) None ∅) = (Return tt, fs') ∧
    from_file (H := plain_helpers) fs' "experimentdata" = Return L' ∧
    jobs L' = [ERROR; OPEN].
Proof.
  assert (Hfiles : from_file (H := plain_helpers) (store (ledger_of [OPEN; OPEN]) None ∅)
                     (filename (ledger_of [FINISHED])) = Return (ledger_of [OPEN; OPEN]))
    by (vm_compute; reflexivity).
  destruct (proj1 (access_file_commits_or_leaves (H := plain_helpers) (set_error 0)
                     (ledger_of [FINISHED]) (ledger_of [OPEN; OPEN])
                     (store (ledger_of [OPEN; OPEN]) None ∅) Hfiles)
              tt (set_error 0 (ledger_of [OPEN; OPEN])).2 eq_refl)
    as (fs' & Hrun & Hload).
  exists fs', (set_error 0 (ledger_of [OPEN; OPEN])).2.
  split; [exact Hrun|]. split; [exact Hload|reflexivity].
Defined.

(** ** The iteration controller: what stops it *)

(** X17.  When [_check_number_of_datapoints] of the optimizer raises,
    [_iterate] raises the same exception before any update step: the
    ledger and the files are as before, and the optimizer is as the check
    has left it. *)
Theorem iterate_stops_at_the_check `{ExperimentData.Helpers} {O : Type} `{_Optimizer O}
    (fuel : nat) (data_generator : _DataGenerator) (iterations : Z)
    (self : ExperimentData.t) (fs : filesystem) (o o1 o2 : O) (e : Exception) :
  set_x0 self o = (Return tt, o1) →
  _check_number_of_datapoints o1 = (Raise e, o2) →
  _iterate fuel data_generator iterations (self, fs, o) = (Raise e, (self, fs, o2)).
Proof.
  intros Hx0 Hcheck. unfold _iterate, bind, the_ledger, on_optimizer. cbn.
  rewrite Hx0, Hcheck. reflexivity.
Qed.

Lemma iterate_stops_at_the_check_witness :
  @_iterate plain_helpers _ checking_optimizer 5 fails_on_row_0 10
    (ledger_of [OPEN], ∅, ledger_of [])
  = (Raise (ValueError "There are too few datapoints available for update step!"),
     (ledger_of [OPEN], ∅, ledger_of [OPEN])).
Proof.
  apply (@iterate_stops_at_the_check plain_helpers _ checking_optimizer 5 fails_on_row_0 10
           (ledger_of [OPEN]) ∅ (ledger_of []) (ledger_of [OPEN]) (ledger_of [OPEN])).
  - reflexivity.
  - reflexivity.
Defined.

(** X18.  With an optimizer of population 0 whose methods return,
    [_iterate] raises [ZeroDivisionError] when it computes the number of
    updates: no update step has run, and the ledger and the files are as
    before. *)
Theorem iterate_with_population_zero `{ExperimentData.Helpers} {O : Type} `{_Optimizer O}
    (fuel : nat) (data_generator : _DataGenerator) (iterations : Z)
    (self : ExperimentData.t) (fs : filesystem) (o : O) :
  cooperative 0 →
  ∃ o', _iterate fuel data_generator iterations (self, fs, o)
        = (Raise ZeroDivisionError, (self, fs, o')).
Proof.
  intros Hcoop.
  destruct (coop_set_x0 _ Hcoop self o) as [o1 Hx0].
  destruct (coop_check _ Hcoop o1) as [o2 Hcheck].
  destruct (coop_construct_model _ Hcoop data_generator o2) as [o3 Hmodel].
  exists o3. unfold _iterate, bind, the_ledger, the_population, on_optimizer, lift. cbn.
  rewrite Hx0, Hcheck, Hmodel. cbn. rewrite (coop_population _ Hcoop). reflexivity.
Qed.

Lemma iterate_with_population_zero_witness :
  ∃ o', @_iterate plain_helpers _ idle_optimizer 5 fails_on_row_0 10
          (ledger_of [OPEN], ∅, tt)
        = (Raise ZeroDivisionError, (ledger_of [OPEN], ∅, o')).
Proof.
  apply (@iterate_with_population_zero plain_helpers _ idle_optimizer 5 fails_on_row_0 10
           (ledger_of [OPEN]) ∅ tt).
  exact idle_optimizer_cooperative.
Defined.

(** X19.  For a positive population [P], the number of updates times [P]
    is the number of iterations plus the number of overiterations, and
    there are fewer overiterations than [P]: the updates propose the least
    multiple of [P] that is not below the iterations. *)
Theorem updates_cover_the_iterations (iterations population : Z) :
  (0 < population)%Z →
  ∃ updates overiterations,
    _number_of_updates iterations population = Return updates ∧
    _number_of_overiterations iterations population = Return overiterations ∧
    (updates * population = iterations + overiterations)%Z ∧
    (0 ≤ overiterations < population)%Z.
Proof.
  intros HP. unfold _number_of_updates, _number_of_overiterations.
  destruct (Z.eqb_spec population 0) as [->|_]; [lia|].
  pose proof (updates_times_population iterations population HP) as Hcover.
  pose proof (Z.mod_pos_bound iterations population HP) as Hmod.
  destruct (Z.eqb_spec (iterations mod population) 0) as [Hzero|Hrest].
  - eexists _, _. split; [reflexivity|]. split; [reflexivity|].
    rewrite Hzero in Hcover |- *. split; [exact Hcover|lia].
  - eexists _, _. split; [reflexivity|]. split; [reflexivity|].
    split; [exact Hcover|lia].
Qed.

Lemma updates_cover_the_iterations_witness :
  ∃ updates overiterations,
    _number_of_updates 10 3 = Return updates ∧
    _number_of_overiterations 10 3 = Return overiterations ∧
    (updates * 3 = 10 + overiterations)%Z ∧
    (0 ≤ overiterations < 3)%Z.
Proof. apply (updates_cover_the_iterations 10 3). lia. Defined.

(** ** Loading objects: [_io.py] *)

Lemma save_object_registered (object : IO.pyobject) (path experimentdata_directory : string)
    (store_type : IO.Store) (w : IO.world) :
  assoc (IO.type_of object) IO.STORE_TYPE_MAPPING = Some store_type →
  IO.save_object object path experimentdata_directory None w
  = (Return (Some (IO.suffix store_type)),
     IO.mk_world
       (<[IO.Path_with_suffix (Path_div experimentdata_directory path) (IO.suffix store_type)
          := (store_type, object)]> (IO.files w))
       (IO.log w)).
Proof. intros Hassoc. unfold IO.save_object. rewrite Hassoc. reflexivity. Qed.

Lemma save_object_unregistered (object : IO.pyobject) (path experimentdata_directory : string)
    (w : IO.world) :
  assoc (IO.type_of object) IO.STORE_TYPE_MAPPING = None →
  IO.save_object object path experimentdata_directory None w
  = (Return (Some ".pkl"),
     IO.mk_world
       (<[IO.Path_with_suffix (Path_div experimentdata_directory path) ".pkl"
          := (IO.PickleStore, object)]> (IO.files w))
       (IO.log w ++ [("DEBUG", IO.not_supported (IO.type_of object))])).
Proof. intros Hassoc. unfold IO.save_object. rewrite Hassoc. reflexivity. Qed.

Lemma registered_store_is_not_pickle (ty : IO.pytype) (store_type : IO.Store) :
  assoc ty IO.STORE_TYPE_MAPPING = Some store_type → IO.suffix store_type ≠ ".pkl".
Proof.
  intros Hassoc. destruct ty; cbn in Hassoc; try discriminate;
    injection Hassoc as <-; discriminate.
Qed.

(** X20.  [load_object] with its default store method reads the [.pkl]
    file.  After [save_object] without a store method it returns what
    pickle reads back when the class of the object is not registered; for
    an object of a registered class, which [save_object] has written with
    the suffix of its own store, it raises [FileNotFoundError] unless a
    [.pkl] file was there before. *)
Theorem default_load_after_save
    (read_back : IO.Store → IO.Store * IO.pyobject → Exception + IO.pyobject)
    (object : IO.pyobject) (path experimentdata_directory : string) (w : IO.world) :
  IO.files w !! IO.Path_with_suffix (Path_div experimentdata_directory path) ".pkl" = None →
  (IO.save_object object path experimentdata_directory None >>
   IO.load_object read_back path experimentdata_directory (Some IO.PickleStore)) w
  = (match assoc (IO.type_of object) IO.STORE_TYPE_MAPPING with
     | None =>
         match read_back IO.PickleStore (IO.PickleStore, object) with
         | inr loaded => Return (Some loaded)
         | inl e => Raise e
         end
     | Some _ =>
         Raise (FileNotFoundError
                  (IO.Path_with_suffix (Path_div experimentdata_directory path) ".pkl"))
     end,
     (IO.save_object object path experimentdata_directory None w).2).
Proof.
  intros Hnone.
  destruct (assoc (IO.type_of object) IO.STORE_TYPE_MAPPING) as [store_type|] eqn:Hassoc.
  - pose proof (save_object_registered object path experimentdata_directory store_type w Hassoc)
      as Hsave.
    rewrite (bind_Return _ _ _ _ _ Hsave), Hsave. cbn [snd].
    unfold IO.load_object, IO.storage_load, bind, get. cbn [IO.files IO.suffix].
    rewrite lookup_insert_ne
      by (apply suffix_ne, (registered_store_is_not_pickle _ _ Hassoc)).
    rewrite Hnone. reflexivity.
  - pose proof (save_object_unregistered object path experimentdata_directory w Hassoc)
      as Hsave.
    rewrite (bind_Return _ _ _ _ _ Hsave), Hsave. cbn [snd].
    unfold IO.load_object, IO.storage_load, bind, get. cbn [IO.files IO.suffix].
    rewrite lookup_insert_eq. unfold call.
    destruct (read_back IO.PickleStore (IO.PickleStore, object)); reflexivity.
Qed.

Lemma default_load_after_save_witness :
  (IO.save_object an_array "out" "dir" None >>
   IO.load_object reads_what_was_written "out" "dir" (Some IO.PickleStore))
    (IO.mk_world ∅ [])
  = (Raise (FileNotFoundError "dir/out.pkl"),
     IO.mk_world {[ "dir/out.npy" := (IO.NumpyStore, an_array) ]} []).
Proof.
  rewrite (default_load_after_save reads_what_was_written an_array "out" "dir"
             (IO.mk_world ∅ [])).
  - reflexivity.
  - reflexivity.
Defined.



Lemma append_String (c : ascii) (a b : string) : String c a +:+ b = String c (a +:+ b).
Proof. reflexivity. Qed.

Lemma length_append (a b : string) :
  String.length (a +:+ b) = (String.length a + String.length b)%nat.
Proof.
  induction a as [|c a IH]; [reflexivity|].
  rewrite append_String. cbn [String.length]. rewrite IH. reflexivity.
Qed.

Lemma substring_prefix (a b : string) : substring 0 (String.length a) (a +:+ b) = a.
Proof.
  induction a as [|c a IH].
  - destruct b; reflexivity.
  - rewrite append_String. cbn [String.length substring]. rewrite IH. reflexivity.
Qed.

Lemma append_empty_r (a : string) : a +:+ EmptyString = a.
Proof.
  induction a as [|c a IH]; [reflexivity|]. rewrite append_String, IH. reflexivity.
Qed.

Lemma append_assoc (a b c : string) : (a +:+ b) +:+ c = a +:+ (b +:+ c).
Proof.
  induction a as [|x a IH]; [reflexivity|]. rewrite !append_String, IH. reflexivity.
Qed.

Lemma last_dot_tail (name suffix : string) :
  last_dot name = Some suffix → ∃ stem, name = stem +:+ suffix.
Proof.
  revert suffix. induction name as [|c name IH]; intros suffix Hdot; [discriminate|].
  cbn [last_dot] in Hdot. destruct (last_dot name) as [suffix'|].
  - injection Hdot as <-. destruct (IH suffix' eq_refl) as [stem ->].
    exists (String c stem). reflexivity.
  - destruct (Ascii.eqb c "."); [|discriminate]. injection Hdot as <-.
    exists EmptyString. reflexivity.
Qed.

Lemma last_component_tail (path : string) : ∃ parent, path = parent +:+ last_component path.
Proof.
  induction path as [|c path [parent IH]]; [exists EmptyString; reflexivity|].
  cbn [last_component].
  destruct (existsb (Ascii.eqb "/") (list_ascii_of_string path)).
  - exists (String c parent). rewrite append_String, <- IH. reflexivity.
  - destruct (Ascii.eqb c "/").
    + exists (String c EmptyString). reflexivity.
    + exists EmptyString. reflexivity.
Qed.

Lemma Path_suffix_tail (path : string) : ∃ stem, path = stem +:+ Path_suffix path.
Proof.
  unfold Path_suffix. destruct (last_component_tail path) as [parent Hparent].
  destruct (last_dot (last_component path)) as [suffix|] eqn:Hdot.
  - destruct (_ || _).
    + exists path. symmetry. apply append_empty_r.
    + destruct (last_dot_tail _ _ Hdot) as [stem Hstem].
      exists (parent +:+ stem). rewrite append_assoc, <- Hstem. exact Hparent.
  - exists path. symmetry. apply append_empty_r.
Qed.

(** [path.with_suffix(path.suffix)] is [path]. *)
Lemma Path_with_its_suffix (path : string) :
  IO.Path_with_suffix path (Path_suffix path) = path.
Proof.
  unfold IO.Path_with_suffix. destruct (Path_suffix_tail path) as [stem Hstem].
  rewrite Hstem at 1 3. rewrite length_append, Nat.add_sub, substring_prefix.
  symmetry. exact Hstem.
Qed.

Lemma matched_store_type_of_suffix (store_type : IO.Store) :
  store_type ∈ [IO.PickleStore; IO.NumpyStore; IO.PandasStore; IO.XarrayStore] →
  IO.matched_store_type (IO.suffix store_type) = store_type.
Proof.
  intros Hin. repeat (apply elem_of_cons in Hin as [->|Hin]); try reflexivity.
  inversion Hin.
Qed.

(** X22.  [load_object] with [store_method=None] returns [None] when
    there is no file at the path.  A file whose suffix is that of one of
    the four stores of the module is read back by that store from that
    very file. *)
Theorem load_infers_the_store_from_the_suffix
    (read_back : IO.Store → IO.Store * IO.pyobject → Exception + IO.pyobject)
    (path experimentdata_directory : string) (store_type : IO.Store) (w : IO.world) :
  store_type ∈ [IO.PickleStore; IO.NumpyStore; IO.PandasStore; IO.XarrayStore] →
  Path_suffix (Path_div experimentdata_directory path) = IO.suffix store_type →
  IO.load_object read_back path experimentdata_directory None w
  = (match IO.files w !! Path_div experimentdata_directory path with
     | None => Return None
     | Some written =>
         match read_back store_type written with
         | inr loaded => Return (Some loaded)
         | inl e => Raise e
         end
     end, w).
Proof.
  intros Hin Hsuffix. unfold IO.load_object, bind, get.
  destruct (IO.files w !! Path_div experimentdata_directory path) as [written|] eqn:Hfile.
  - rewrite bool_decide_eq_true_2 by eauto.
    rewrite Hsuffix, (matched_store_type_of_suffix store_type Hin).
    unfold IO.storage_load, bind, get. rewrite <- Hsuffix, Path_with_its_suffix, Hfile.
    unfold call. destruct (read_back store_type written); reflexivity.
  - rewrite bool_decide_eq_false_2 by (intros [? ?]; discriminate). reflexivity.
Qed.

Lemma load_infers_the_store_from_the_suffix_witness :
  IO.load_object reads_what_was_written "out.npy" "dir" None
    (IO.mk_world {[ "dir/out.npy" := (IO.NumpyStore, an_array) ]} [])
  = (Return (Some an_array),
     IO.mk_world {[ "dir/out.npy" := (IO.NumpyStore, an_array) ]} []).
Proof.
  rewrite (load_infers_the_store_from_the_suffix reads_what_was_written "out.npy" "dir"
             IO.NumpyStore
             (IO.mk_world {[ "dir/out.npy" := (IO.NumpyStore, an_array) ]} [])).
  - reflexivity.
  - apply list_elem_of_further, list_elem_of_here.
  - reflexivity.
Defined.

(** * Several drivers under the file lock *)

(** ** The steps of one driver are the loop of [_run_cluster] *)

Lemma steps_alone_add `{Helpers} (n m : nat) (data_generator : _DataGenerator)
    (self : ExperimentData.t) (at_ : position) (fs : filesystem) :
  steps_alone (n + m) data_generator self at_ fs
  = steps_alone m data_generator self
      (steps_alone n data_generator self at_ fs).1
      (steps_alone n data_generator self at_ fs).2.
Proof.
  revert at_ fs. induction n as [|n IH]; intros at_ fs; [reflexivity|].
  cbn [Nat.add steps_alone].
  destruct (cluster_step data_generator self at_ fs) as [at' fs']. apply IH.
Qed.

Ltac step H := cbn [steps_alone cluster_step fst snd]; rewrite H; cbn [fst snd].

(** Whatever the loop of [_run_cluster] ends with, the steps of the driver
    end with, on the same files. *)
Lemma _run_cluster_loop_in_steps `{Helpers} (data_generator : _DataGenerator)
    (self : ExperimentData.t) (fuel : nat) :
  ∀ (fs fs' : filesystem) (r : outcome unit),
    _run_cluster_loop fuel data_generator self fs = (r, fs') → r ≠ OutOfFuel →
    ∃ n, steps_alone n data_generator self claiming fs = (ended r, fs').
Proof.
  induction fuel as [|fuel IH]; intros fs fs' r Hloop Hr.
  - cbn in Hloop. injection Hloop as <- <-. contradiction.
  - cbn [_run_cluster_loop] in Hloop. unfold bind at 1, try_except at 1, bind at 1 in Hloop.
    destruct (get_open_job_data self fs) as [[s|e|] fs1] eqn:Hclaim.
    + cbn in Hloop.
      assert (Hturn : ∀ fs2, _run_cluster_loop fuel data_generator self fs2 = (r, fs') →
                ∃ n, steps_alone n data_generator self claiming fs2 = (ended r, fs')).
      { intros fs2 Hrest. exact (IH fs2 fs' r Hrest Hr). }
      unfold bind at 1, try_except, bind, call in Hloop.
      destruct (data_generator s) as [e|s'] eqn:Hrun.
      * cbn in Hloop.
        destruct (write_error (ExperimentSample._jobnumber s) self fs1) as [[[]|e'|] fs3]
          eqn:Herror.
        -- destruct (Hturn fs3 Hloop) as [n Hn]. exists (3 + n)%nat.
           rewrite steps_alone_add. step Hclaim. step Hrun. step Herror. exact Hn.
        -- injection Hloop as <- <-. exists 3%nat. step Hclaim. step Hrun. step Herror. reflexivity.
        -- injection Hloop as <- <-. contradiction.
      * destruct (write_experiment_sample s' self fs1) as [[[]|e'|] fs2] eqn:Hwrite.
        -- destruct (Hturn fs2 Hloop) as [n Hn]. exists (2 + n)%nat.
           rewrite steps_alone_add. step Hclaim. step Hrun. step Hwrite. exact Hn.
        -- cbn in Hloop.
           destruct (write_error (ExperimentSample._jobnumber s) self fs2) as [[[]|e''|] fs3]
             eqn:Herror.
           ++ destruct (Hturn fs3 Hloop) as [n Hn]. exists (3 + n)%nat.
              rewrite steps_alone_add. step Hclaim. step Hrun. step Hwrite. step Herror. exact Hn.
           ++ injection Hloop as <- <-. exists 3%nat. step Hclaim. step Hrun. step Hwrite. step Herror. reflexivity.
           ++ injection Hloop as <- <-. contradiction.
        -- injection Hloop as <- <-. contradiction.
    + exists 1%nat. step Hclaim.
      destruct e; cbn in Hloop; injection Hloop as <- <-; reflexivity.
    + injection Hloop as <- <-. contradiction.
Qed.

(** ** What a step does to the coordination of the drivers *)

Lemma lookup_driver_insert (ds : list driver) (p q : nat) (d dq : driver) :
  <[p := d]> ds !! q = Some dq →
  (q = p ∧ dq = d) ∨ (q ≠ p ∧ ds !! q = Some dq).
Proof.
  intros Hq. destruct (decide (q = p)) as [->|Hne].
  - left. split; [reflexivity|].
    pose proof (lookup_lt_Some _ _ _ Hq) as Hlt. rewrite length_insert in Hlt.
    rewrite list_lookup_insert_eq in Hq by exact Hlt. congruence.
  - right. split; [exact Hne|]. rewrite list_lookup_insert_ne in Hq by congruence. exact Hq.
Qed.

Lemma lookup_status_insert (now : _JobQueue.t) (i j : nat) (st st' : Status) :
  (i < length now)%nat →
  <[i := st]> now !! j = Some st' ↔ (j = i ∧ st' = st) ∨ (j ≠ i ∧ now !! j = Some st').
Proof.
  intros Hi. destruct (decide (j = i)) as [->|Hne].
  - rewrite list_lookup_insert_eq by exact Hi. split.
    + intros [= <-]. left. auto.
    + intros [[_ ->]|[Hne _]]; [reflexivity|contradiction].
  - rewrite list_lookup_insert_ne by congruence. split.
    + intros Hj. right. auto.
    + intros [[-> _]|[_ Hj]]; [contradiction|exact Hj].
Qed.

(** A driver claims the OPEN row [i]. *)
Lemma coordinated_claim (before now : _JobQueue.t) (ds : list driver) (cl : list nat)
    (p i : nat) (d : driver) (at' : position) :
  coordinated before now ds cl →
  ds !! p = Some d → driver_at d = claiming →
  now !! i = Some OPEN → held at' = Some i →
  coordinated before (<[i := IN_PROGRESS]> now) (<[p := mk_driver (driver_self d) at']> ds)
    (cl ++ [i]).
Proof.
  intros [Hlen Hkept Hheld Hexcl Hholder Hended Honce Hclaims] Hp Hat Hi Hat'.
  pose proof (lookup_lt_Some _ _ _ Hi) as Hlt.
  assert (Hbefore : before !! i = Some OPEN).
  { destruct (lookup_lt_is_Some_2 before i) as [st Hst]; [lia|].
    destruct (decide (st = OPEN)) as [->|Hne]; [exact Hst|].
    rewrite (Hkept i st Hst Hne) in Hi. congruence. }
  assert (Hidle : held (driver_at d) = None) by (rewrite Hat; reflexivity).
  split.
  - rewrite length_insert. exact Hlen.
  - intros j st Hj Hst. apply lookup_status_insert; [exact Hlt|]. right.
    split; [intros ->; congruence|]. exact (Hkept j st Hj Hst).
  - intros q dq j Hq Hj. apply lookup_driver_insert in Hq as [[-> ->]|[Hne Hq]].
    + cbn in Hj. rewrite Hat' in Hj. injection Hj as <-.
      split; [apply list_lookup_insert_eq, Hlt|exact Hbefore].
    + destruct (Hheld q dq j Hq Hj) as [Hnow Hb]. split; [|exact Hb].
      apply lookup_status_insert; [exact Hlt|]. right. split; [intros ->; congruence|exact Hnow].
  - intros q1 q2 d1 d2 j H1 H2 Hj1 Hj2.
    apply lookup_driver_insert in H1 as [[-> ->]|[Hne1 H1]];
      apply lookup_driver_insert in H2 as [[-> ->]|[Hne2 H2]].
    + reflexivity.
    + cbn in Hj1. rewrite Hat' in Hj1. injection Hj1 as <-.
      destruct (Hheld q2 d2 i H2 Hj2) as [Hnow _]. congruence.
    + cbn in Hj2. rewrite Hat' in Hj2. injection Hj2 as <-.
      destruct (Hheld q1 d1 i H1 Hj1) as [Hnow _]. congruence.
    + exact (Hexcl q1 q2 d1 d2 j H1 H2 Hj1 Hj2).
  - intros j Hj Hnow.
    apply (proj1 (lookup_status_insert _ _ _ _ _ Hlt)) in Hnow as [[-> _]|[Hne Hnow]].
    + exists p, (mk_driver (driver_self d) at'). split; [|exact Hat'].
      apply list_lookup_insert_eq. exact (lookup_lt_Some _ _ _ Hp).
    + destruct (Hholder j Hj Hnow) as (q & dq & Hq & Hheldq). exists q, dq.
      split; [|exact Hheldq]. rewrite list_lookup_insert_ne; [exact Hq|].
      intros ->. congruence.
  - intros q dq r Hq Hr. apply lookup_driver_insert in Hq as [[-> ->]|[Hne Hq]].
    + cbn in Hr. rewrite Hr in Hat'. discriminate.
    + destruct (Hended q dq r Hq Hr) as [_ Hnone]. exfalso. exact (Hnone i Hi).
  - apply NoDup_app. split; [exact Honce|]. split; [|apply NoDup_singleton].
    intros j Hj Hj'. apply list_elem_of_singleton in Hj' as ->.
    apply Hclaims in Hj as [_ Hnot]. contradiction.
  - intros j. rewrite elem_of_app, list_elem_of_singleton, Hclaims. split.
    + intros [[Hb Hnot]| ->].
      * split; [exact Hb|]. intros Hopen.
        apply (proj1 (lookup_status_insert _ _ _ _ _ Hlt)) in Hopen as [[_ [=]]|[_ Hopen]].
        contradiction.
      * split; [exact Hbefore|]. rewrite list_lookup_insert_eq by exact Hlt. discriminate.
    + intros [Hb Hnot]. destruct (decide (j = i)) as [->|Hne]; [right; reflexivity|].
      left. split; [exact Hb|]. intros Hopen. apply Hnot.
      apply lookup_status_insert; [exact Hlt|]. right. auto.
Qed.

(** A driver settles the row [i] that it holds. *)
Lemma coordinated_settle (before now : _JobQueue.t) (ds : list driver) (cl : list nat)
    (p i : nat) (d : driver) (st : Status) :
  coordinated before now ds cl →
  ds !! p = Some d → held (driver_at d) = Some i →
  st = FINISHED ∨ st = ERROR →
  coordinated before (<[i := st]> now) (<[p := mk_driver (driver_self d) claiming]> ds) cl.
Proof.
  intros [Hlen Hkept Hheld Hexcl Hholder Hended Honce Hclaims] Hp Hi Hst.
  destruct (Hheld p d i Hp Hi) as [Hnow Hbefore].
  pose proof (lookup_lt_Some _ _ _ Hnow) as Hlt.
  assert (Hst' : st ≠ OPEN ∧ st ≠ IN_PROGRESS) by (destruct Hst as [-> | ->]; split; discriminate).
  destruct Hst' as [Hopen Hprogress].
  split.
  - rewrite length_insert. exact Hlen.
  - intros j st0 Hj Hst0. apply lookup_status_insert; [exact Hlt|]. right.
    split; [intros ->; congruence|]. exact (Hkept j st0 Hj Hst0).
  - intros q dq j Hq Hj. apply lookup_driver_insert in Hq as [[-> ->]|[Hne Hq]]; [discriminate|].
    destruct (Hheld q dq j Hq Hj) as [Hnowj Hb]. split; [|exact Hb].
    apply lookup_status_insert; [exact Hlt|]. right. split; [|exact Hnowj].
    intros ->. apply Hne. exact (Hexcl q p dq d i Hq Hp Hj Hi).
  - intros q1 q2 d1 d2 j H1 H2 Hj1 Hj2.
    apply lookup_driver_insert in H1 as [[-> ->]|[Hne1 H1]]; [discriminate|].
    apply lookup_driver_insert in H2 as [[-> ->]|[Hne2 H2]]; [discriminate|].
    exact (Hexcl q1 q2 d1 d2 j H1 H2 Hj1 Hj2).
  - intros j Hj Hnowj.
    apply (proj1 (lookup_status_insert _ _ _ _ _ Hlt)) in Hnowj as [[_ [= <-]]|[Hne Hnowj]];
      [contradiction|].
    destruct (Hholder j Hj Hnowj) as (q & dq & Hq & Hheldq). exists q, dq.
    split; [|exact Hheldq]. rewrite list_lookup_insert_ne; [exact Hq|].
    intros ->. rewrite Hp in Hq. injection Hq as <-. congruence.
  - intros q dq r Hq Hr. apply lookup_driver_insert in Hq as [[-> ->]|[Hne Hq]]; [discriminate|].
    destruct (Hended q dq r Hq Hr) as [Hreturn Hnone]. split; [exact Hreturn|].
    intros j Hj.
    apply (proj1 (lookup_status_insert _ _ _ _ _ Hlt)) in Hj as [[_ [= <-]]|[_ Hj]];
      [contradiction|exact (Hnone j Hj)].
  - exact Honce.
  - intros j. rewrite Hclaims. split; intros [Hb Hnot]; (split; [exact Hb|]); intros Hj.
    + apply (proj1 (lookup_status_insert _ _ _ _ _ Hlt)) in Hj as [[_ [= <-]]|[_ Hj]];
        contradiction.
    + destruct (decide (j = i)) as [->|Hne]; [congruence|].
      apply Hnot. apply lookup_status_insert; [exact Hlt|]. right. auto.
Qed.

(** A driver moves on without a change of the ledger: from the evaluation
    to the handler with the same row, or out of the loop when no row is
    OPEN. *)
Lemma coordinated_move (before now : _JobQueue.t) (ds : list driver) (cl : list nat)
    (p : nat) (d : driver) (at' : position) :
  coordinated before now ds cl →
  ds !! p = Some d → held at' = held (driver_at d) →
  (∀ r, at' = ended r → r = Return tt ∧ ∀ i, now !! i ≠ Some OPEN) →
  coordinated before now (<[p := mk_driver (driver_self d) at']> ds) cl.
Proof.
  intros [Hlen Hkept Hheld Hexcl Hholder Hended Honce Hclaims] Hp Hsame Hend.
  split; try assumption.
  - intros q dq j Hq Hj. apply lookup_driver_insert in Hq as [[-> ->]|[Hne Hq]].
    + cbn in Hj. rewrite Hsame in Hj. exact (Hheld p d j Hp Hj).
    + exact (Hheld q dq j Hq Hj).
  - intros q1 q2 d1 d2 j H1 H2 Hj1 Hj2.
    apply lookup_driver_insert in H1 as [[-> ->]|[Hne1 H1]];
      apply lookup_driver_insert in H2 as [[-> ->]|[Hne2 H2]].
    + reflexivity.
    + cbn in Hj1. rewrite Hsame in Hj1. exact (Hexcl p q2 d d2 j Hp H2 Hj1 Hj2).
    + cbn in Hj2. rewrite Hsame in Hj2. exact (Hexcl q1 p d1 d j H1 Hp Hj1 Hj2).
    + exact (Hexcl q1 q2 d1 d2 j H1 H2 Hj1 Hj2).
  - intros j Hj Hnow. destruct (Hholder j Hj Hnow) as (q & dq & Hq & Hheldq).
    destruct (decide (q = p)) as [->|Hne].
    + exists p, (mk_driver (driver_self d) at'). split.
      * apply list_lookup_insert_eq. exact (lookup_lt_Some _ _ _ Hp).
      * cbn. rewrite Hsame. rewrite Hp in Hq. injection Hq as <-. exact Hheldq.
    + exists q, dq. split; [|exact Hheldq]. rewrite list_lookup_insert_ne by congruence.
      exact Hq.
  - intros q dq r Hq Hr. apply lookup_driver_insert in Hq as [[-> ->]|[Hne Hq]].
    + exact (Hend r Hr).
    + exact (Hended q dq r Hq Hr).
Qed.

Lemma calls_left_insert (now : _JobQueue.t) (ds : list driver) (p : nat) (d : driver)
    (at' : position) :
  ds !! p = Some d →
  (sum_list (weight ∘ driver_at <$> <[p := mk_driver (driver_self d) at']> ds)
   + weight (driver_at d)
   = sum_list (weight ∘ driver_at <$> ds) + weight at')%nat.
Proof.
  revert p. induction ds as [|d0 ds IH]; intros [|p] Hp; try discriminate.
  - injection Hp as ->. cbn. unfold compose. cbn.
    generalize (weight at'), (weight (driver_at d)),
      (sum_list ((λ x : driver, weight (driver_at x)) <$> ds)).
    intros a b c. lia.
  - cbn in Hp. specialize (IH p Hp).
    change (<[S p := mk_driver (driver_self d) at']> (d0 :: ds))
      with (d0 :: <[p := mk_driver (driver_self d) at']> ds).
    rewrite !fmap_cons. cbn [sum_list].
    revert IH.
    generalize (weight at'), (weight (driver_at d)), ((weight ∘ driver_at) d0),
      (sum_list (weight ∘ driver_at <$> ds)),
      (sum_list (weight ∘ driver_at <$> <[p := mk_driver (driver_self d) at']> ds)).
    intros a b c e f. lia.
Qed.

(** ** What a step does to the files *)

Lemma set_error_marked (i : nat) (Lc : ExperimentData.t) :
  set_error i Lc
  = (Return tt,
     marked i ERROR
       (_Data.mk (_Data.names (output_data Lc))
          (alter (map (λ _, ERROR_SENTINEL)) i (_Data.data (output_data Lc)))) Lc).
Proof. destruct Lc. reflexivity. Qed.

(** A step of a driver on files that hold the ledger [Lc]: a claim of the
    lowest OPEN row, the end of the loop when no row is OPEN, a commit or
    a failure of the held row, or the way into the handler. *)
Lemma cluster_step_cases `{Helpers} (data_generator : _DataGenerator)
    (self Lc : ExperimentData.t) (at_ : position) (fs : filesystem) :
  returns_its_row data_generator →
  from_file fs (filename self) = Return Lc → consistent Lc →
  match at_ with
  | claiming =>
      (∃ s, jobs Lc !! ExperimentSample._jobnumber s = Some OPEN ∧
            cluster_step data_generator self at_ fs
            = (evaluating s,
               store (marked (ExperimentSample._jobnumber s) IN_PROGRESS (output_data Lc) Lc)
                 (Some (filename Lc)) fs))
      ∨ ((∀ i, jobs Lc !! i ≠ Some OPEN) ∧
         cluster_step data_generator self at_ fs = (ended (Return tt), fs))
  | evaluating s =>
      cluster_step data_generator self at_ fs = (failing (ExperimentSample._jobnumber s), fs)
      ∨ ∃ out, length (_Data.data out) = length (_Data.data (output_data Lc)) ∧
               cluster_step data_generator self at_ fs
               = (claiming,
                  store (marked (ExperimentSample._jobnumber s) FINISHED out Lc)
                    (Some (filename Lc)) fs)
  | failing i =>
      ∃ out, length (_Data.data out) = length (_Data.data (output_data Lc)) ∧
             cluster_step data_generator self at_ fs
             = (claiming, store (marked i ERROR out Lc) (Some (filename Lc)) fs)
  | ended r => cluster_step data_generator self at_ fs = (ended r, fs)
  end.
Proof.
  intros Hrow Hload Hc. destruct at_ as [|s|i|r]; cbn [cluster_step].
  - unfold get_open_job_data. rewrite (_access_file_eq _ _ _ _ Hload).
    destruct (_JobQueue.get_open_job (jobs Lc)) as [i|e|] eqn:Hopen.
    + destruct (access_open_job_data_claims Lc i Hc Hopen) as (s & Hview & Hclaim).
      rewrite Hclaim. left. exists s.
      rewrite (row_view_jobnumber _ _ _ Hview).
      apply get_open_job_lowest in Hopen as [Hi _]. split; [exact Hi|].
      unfold marked. rewrite set_output_data_same. reflexivity.
    + assert (Hnone : OPEN ∉ jobs Lc).
      { apply index_of_None. unfold _JobQueue.get_open_job in Hopen.
        destruct (index_of OPEN (jobs Lc)); [discriminate|reflexivity]. }
      rewrite (access_open_job_data_no_open _ Hnone). right. split; [|reflexivity].
      intros i Hi. apply Hnone. exact (list_elem_of_lookup_2 _ _ _ Hi).
    + unfold _JobQueue.get_open_job in Hopen. destruct (index_of OPEN (jobs Lc)); discriminate.
  - destruct (data_generator s) as [e|s'] eqn:Hrun; [left; reflexivity|].
    unfold write_experiment_sample. rewrite (_access_file_eq _ _ _ _ Hload).
    destruct (set_experiment_sample_spec s' Lc) as (out & [Hok|Hko] & _ & Hlen & _).
    + rewrite Hok. right. exists out. split; [exact Hlen|].
      rewrite (Hrow _ _ Hrun). reflexivity.
    + rewrite Hko. left. reflexivity.
  - unfold write_error. rewrite (_access_file_eq _ _ _ _ Hload), set_error_marked.
    eexists. split; [|reflexivity]. cbn. apply length_alter.
  - reflexivity.
Qed.

Lemma invariant_marked `{Helpers} (L Lc : ExperimentData.t) (s : system)
    (i : nat) (st : Status) (out : _Data.t) (ds : list driver) (cl : list nat) :
  invariant L Lc s →
  length (_Data.data out) = length (_Data.data (output_data Lc)) →
  (∀ p d, ds !! p = Some d → filename (driver_self d) = filename L) →
  coordinated (jobs L) (<[i := st]> (jobs Lc)) ds cl →
  invariant L (marked i st out Lc)
    (mk_system (store (marked i st out Lc) (Some (filename Lc)) (shared_files s)) ds cl).
Proof.
  intros [Hfiles Hname [Hin Hout] Hselves Hco] Hlen Hselves' Hco'. split; cbn.
  - rewrite <- Hname. exact (from_file_stored (marked i st out Lc) (shared_files s)).
  - exact Hname.
  - unfold consistent, marked. cbn. rewrite length_insert. split; [exact Hin|].
    rewrite Hlen. exact Hout.
  - exact Hselves'.
  - exact Hco'.
Qed.

Lemma selves_insert `{Helpers} (L : ExperimentData.t) (ds : list driver) (p : nat)
    (d : driver) (at' : position) :
  (∀ q dq, ds !! q = Some dq → filename (driver_self dq) = filename L) →
  ds !! p = Some d →
  ∀ q dq, <[p := mk_driver (driver_self d) at']> ds !! q = Some dq →
          filename (driver_self dq) = filename L.
Proof.
  intros Hselves Hp q dq Hq. apply lookup_driver_insert in Hq as [[-> ->]|[_ Hq]].
  - exact (Hselves p d Hp).
  - exact (Hselves q dq Hq).
Qed.

(** A step keeps the invariant and brings the end nearer, unless the
    driver has ended; drivers that have ended stay as they are. *)
Lemma turn_invariant `{Helpers} (data_generator : _DataGenerator)
    (L Lc : ExperimentData.t) (s : system) (p : nat) :
  returns_its_row data_generator → invariant L Lc s →
  ∃ Lc',
    invariant L Lc' (turn data_generator p s) ∧
    length (drivers (turn data_generator p s)) = length (drivers s) ∧
    (calls_left (jobs Lc') (drivers (turn data_generator p s))
     ≤ calls_left (jobs Lc) (drivers s))%nat ∧
    (∀ d, drivers s !! p = Some d → (∀ r, driver_at d ≠ ended r) →
          (calls_left (jobs Lc') (drivers (turn data_generator p s))
           < calls_left (jobs Lc) (drivers s))%nat) ∧
    (∀ q d r, drivers s !! q = Some d → driver_at d = ended r →
              drivers (turn data_generator p s) !! q = Some d).
Proof.
  intros Hrow Hinv. pose proof Hinv as [Hfiles Hname Hc Hselves Hco].
  unfold turn. destruct (drivers s !! p) as [d|] eqn:Hp.
  2:{ exists Lc. split; [exact Hinv|]. split; [reflexivity|]. split; [lia|].
      split; [intros d [=]|auto]. }
  assert (Hload : from_file (shared_files s) (filename (driver_self d)) = Return Lc).
  { rewrite (Hselves p d Hp). exact Hfiles. }
  pose proof (cluster_step_cases data_generator (driver_self d) Lc (driver_at d)
                (shared_files s) Hrow Hload Hc) as Hstep.
  pose proof (calls_left_insert (jobs Lc) (drivers s) p d) as Hsum.
  assert (Hothers : ∀ at' q dq r, drivers s !! q = Some dq → driver_at dq = ended r →
            (∀ r', driver_at d ≠ ended r') →
            <[p := mk_driver (driver_self d) at']> (drivers s) !! q = Some dq).
  { intros at' q dq r Hq Hr Hactive. rewrite list_lookup_insert_ne; [exact Hq|].
    intros ->. rewrite Hp in Hq. injection Hq as <-. exact (Hactive r Hr). }
  destruct (driver_at d) as [|e|i|r] eqn:Hat.
  - destruct Hstep as [(e & Hi & ->)|[Hnone ->]].
    + exists (marked (ExperimentSample._jobnumber e) IN_PROGRESS (output_data Lc) Lc).
      assert (Hco' := coordinated_claim _ _ _ _ p _ d (evaluating e) Hco Hp Hat Hi eq_refl).
      split.
      { apply (invariant_marked L Lc s); [exact Hinv|reflexivity| |exact Hco'].
        exact (selves_insert L _ p d _ Hselves Hp). }
      split; [cbn; apply length_insert|].
      specialize (Hsum (evaluating e) Hp). try rewrite Hat in Hsum. cbn [weight] in Hsum.
      assert (Hopen := open_rows_claim (jobs Lc) _ IN_PROGRESS Hi ltac:(discriminate)).
      unfold calls_left, marked. cbn [drivers jobs set_jobs].
      split; [lia|]. split; [intros _ _ _; lia|].
      intros q dq r Hq Hr. apply (Hothers _ q dq r Hq Hr). try rewrite Hat. intros r'. discriminate.
    + exists Lc.
      assert (Hco' := coordinated_move _ _ _ _ p d (ended (Return tt)) Hco Hp).
      rewrite Hat in Hco'. specialize (Hco' eq_refl).
      split.
      { split; cbn; try assumption.
        - exact (selves_insert L _ p d _ Hselves Hp).
        - apply Hco'. intros r [= <-]. auto. }
      split; [cbn; apply length_insert|].
      specialize (Hsum (ended (Return tt)) Hp). try rewrite Hat in Hsum. cbn [weight] in Hsum.
      unfold calls_left. cbn [drivers].
      split; [lia|]. split; [intros _ _ _; lia|].
      intros q dq r Hq Hr. apply (Hothers _ q dq r Hq Hr). try rewrite Hat. intros r'. discriminate.
  - destruct Hstep as [-> | (out & Hlen & ->)].
    + exists Lc.
      assert (Hco' := coordinated_move _ _ _ _ p d (failing (ExperimentSample._jobnumber e))
                        Hco Hp).
      rewrite Hat in Hco'. specialize (Hco' eq_refl).
      split.
      { split; cbn; try assumption.
        - exact (selves_insert L _ p d _ Hselves Hp).
        - apply Hco'. intros r [=]. }
      split; [cbn; apply length_insert|].
      specialize (Hsum (failing (ExperimentSample._jobnumber e)) Hp).
      try rewrite Hat in Hsum. cbn [weight] in Hsum.
      unfold calls_left. cbn [drivers].
      split; [lia|]. split; [intros _ _ _; lia|].
      intros q dq r Hq Hr. apply (Hothers _ q dq r Hq Hr). try rewrite Hat. intros r'. discriminate.
    + exists (marked (ExperimentSample._jobnumber e) FINISHED out Lc).
      assert (Hheld : held (driver_at d) = Some (ExperimentSample._jobnumber e))
        by (rewrite Hat; reflexivity).
      assert (Hco' := coordinated_settle _ _ _ _ p _ d FINISHED Hco Hp Hheld (or_introl eq_refl)).
      split.
      { apply (invariant_marked L Lc s); [exact Hinv|exact Hlen| |exact Hco'].
        exact (selves_insert L _ p d _ Hselves Hp). }
      split; [cbn; apply length_insert|].
      specialize (Hsum claiming Hp). try rewrite Hat in Hsum. cbn [weight] in Hsum.
      assert (Hopen := open_rows_mark_le (jobs Lc) (ExperimentSample._jobnumber e) FINISHED
                         ltac:(discriminate)).
      unfold calls_left, marked. cbn [drivers jobs set_jobs].
      split; [lia|]. split; [intros _ _ _; lia|].
      intros q dq r Hq Hr. apply (Hothers _ q dq r Hq Hr). try rewrite Hat. intros r'. discriminate.
  - destruct Hstep as (out & Hlen & ->).
    exists (marked i ERROR out Lc).
    assert (Hheld : held (driver_at d) = Some i) by (rewrite Hat; reflexivity).
    assert (Hco' := coordinated_settle _ _ _ _ p _ d ERROR Hco Hp Hheld (or_intror eq_refl)).
    split.
    { apply (invariant_marked L Lc s); [exact Hinv|exact Hlen| |exact Hco'].
      exact (selves_insert L _ p d _ Hselves Hp). }
    split; [cbn; apply length_insert|].
    specialize (Hsum claiming Hp). try rewrite Hat in Hsum. cbn [weight] in Hsum.
    assert (Hopen := open_rows_mark_le (jobs Lc) i ERROR ltac:(discriminate)).
    unfold calls_left, marked. cbn [drivers jobs set_jobs].
    split; [lia|]. split; [intros _ _ _; lia|].
    intros q dq r Hq Hr. apply (Hothers _ q dq r Hq Hr). try rewrite Hat. intros r'. discriminate.
  - rewrite Hstep. exists Lc.
    assert (Hsame : <[p := mk_driver (driver_self d) (ended r)]> (drivers s) = drivers s).
    { apply list_insert_id. rewrite Hp. destruct d. cbn in *. congruence. }
    cbn. rewrite Hsame. split; [destruct s; exact Hinv|]. split; [reflexivity|].
    split; [lia|]. split; [|auto]. intros d' [= <-] Hactive. exfalso.
    exact (Hactive r Hat).
Qed.

(** ** Every schedule *)

Lemma interleave_cons `{Helpers} (data_generator : _DataGenerator) (p : nat)
    (schedule : list nat) (s : system) :
  interleave data_generator (p :: schedule) s
  = interleave data_generator schedule (turn data_generator p s).
Proof. reflexivity. Qed.

Lemma interleave_invariant `{Helpers} (data_generator : _DataGenerator) (L : ExperimentData.t)
    (schedule : list nat) :
  returns_its_row data_generator →
  ∀ (s : system) (Lc : ExperimentData.t),
    invariant L Lc s →
    ∃ Lc',
      invariant L Lc' (interleave data_generator schedule s) ∧
      length (drivers (interleave data_generator schedule s)) = length (drivers s) ∧
      (∀ q d r, drivers s !! q = Some d → driver_at d = ended r →
                drivers (interleave data_generator schedule s) !! q = Some d) ∧
      (∀ p d, drivers (interleave data_generator schedule s) !! p = Some d →
              (∀ r, driver_at d ≠ ended r) →
              (turns_of p schedule
               + calls_left (jobs Lc') (drivers (interleave data_generator schedule s))
               ≤ calls_left (jobs Lc) (drivers s))%nat) ∧
      (calls_left (jobs Lc') (drivers (interleave data_generator schedule s))
       ≤ calls_left (jobs Lc) (drivers s))%nat.
Proof.
  intros Hrow. induction schedule as [|q schedule IH]; intros s Lc Hinv.
  - exists Lc. split; [exact Hinv|]. split; [reflexivity|]. split; [auto|].
    split; [|reflexivity]. intros p d _ _. cbn. lia.
  - rewrite interleave_cons.
    destruct (turn_invariant data_generator L Lc s q Hrow Hinv)
      as (Lc1 & Hinv1 & Hlen1 & Hle1 & Hlt1 & Hended1).
    destruct (IH _ Lc1 Hinv1) as (Lc' & Hinv' & Hlen' & Hended' & Hturns' & Hle').
    exists Lc'. split; [exact Hinv'|]. split; [congruence|].
    split; [intros p d r Hp Hr; exact (Hended' p d r (Hended1 p d r Hp Hr) Hr)|].
    split; [|lia]. intros p d Hp Hactive. specialize (Hturns' p d Hp Hactive).
    unfold turns_of in *. rewrite filter_cons.
    destruct (decide (q = p)) as [->|Hne]; [|lia]. cbn [length].
    destruct (drivers s !! p) as [dp|] eqn:Hdp.
    + assert (Hdp' : ∀ r, driver_at dp ≠ ended r).
      { intros r Hr. pose proof (Hended' p dp r (Hended1 p dp r Hdp Hr) Hr) as Hstill.
        rewrite Hp in Hstill. injection Hstill as ->. exact (Hactive r Hr). }
      specialize (Hlt1 dp eq_refl Hdp'). lia.
    + apply lookup_ge_None in Hdp. apply lookup_lt_Some in Hp. lia.
Qed.

Lemma start_invariant `{Helpers} (L : ExperimentData.t) (fs : filesystem)
    (selves : list ExperimentData.t) :
  from_file fs (filename L) = Return L → consistent L →
  Forall (λ self, filename self = filename L) selves →
  invariant L L (start fs selves) ∧
  calls_left (jobs L) (drivers (start fs selves))
  = (3 * open_rows (jobs L) + length selves)%nat.
Proof.
  intros Hload Hc Hselves.
  assert (Hat : ∀ p d, drivers (start fs selves) !! p = Some d →
            driver_at d = claiming ∧ filename (driver_self d) = filename L).
  { intros p d Hp. cbn in Hp. rewrite list_lookup_fmap in Hp.
    destruct (selves !! p) as [self|] eqn:Hself; [|discriminate]. injection Hp as <-.
    split; [reflexivity|]. rewrite Forall_forall in Hselves.
    exact (Hselves self (list_elem_of_lookup_2 _ _ _ Hself)). }
  split.
  - split; cbn [shared_files claims]; try assumption; try reflexivity.
    + intros p d Hp. exact (proj2 (Hat p d Hp)).
    + split.
      * reflexivity.
      * auto.
      * intros p d i Hp Hi. rewrite (proj1 (Hat p d Hp)) in Hi. discriminate.
      * intros p q d d' i Hp _ Hi. rewrite (proj1 (Hat p d Hp)) in Hi. discriminate.
      * intros i Hopen Hprogress. congruence.
      * intros p d r Hp Hr. rewrite (proj1 (Hat p d Hp)) in Hr. discriminate.
      * apply NoDup_nil_2.
      * intros i. split; [intros Hi; inversion Hi|]. intros [Hopen Hnot]. contradiction.
  - unfold calls_left, start. cbn [drivers]. f_equal. clear.
    induction selves as [|self selves IH]; [reflexivity|].
    cbn. f_equal. exact IH.
Qed.

(** A ledger stored with a row IN_PROGRESS: one driver settles the OPEN
    row and leaves the loop, and the stranded row is as it was. *)
Lemma stranded_row_survives_drivers : ¬ drivers_settle_every_ledger.
Proof.
  intros Hclaim.
  destruct (Hclaim plain_helpers fails_on_row_0 (ledger_of [IN_PROGRESS; OPEN])
              (store (ledger_of [IN_PROGRESS; OPEN]) None ∅)
              [ledger_of [IN_PROGRESS; OPEN]] [0; 0; 0]%nat)
    as (L' & Hload & _ & Hnone).
  - vm_compute. reflexivity.
  - split; reflexivity.
  - repeat constructor.
  - discriminate.
  - assert (Hdrivers :
      drivers (interleave (H := plain_helpers) fails_on_row_0 [0; 0; 0]%nat
                 (start (store (ledger_of [IN_PROGRESS; OPEN]) None ∅)
                    [ledger_of [IN_PROGRESS; OPEN]]))
      = [mk_driver (ledger_of [IN_PROGRESS; OPEN]) (ended (Return tt))])
      by (vm_compute; reflexivity).
    rewrite Hdrivers. repeat constructor. eexists. reflexivity.
  - vm_compute in Hload. injection Hload as <-. apply Hnone. vm_compute.
    apply list_elem_of_here.
Qed.

(** C9 (amended).  Drivers that enter the loop of [_run_cluster] on files
    that hold a ledger with one entry per row in its three structures,
    with an evaluator that answers with a view of the row it was given,
    and that take the file lock in any order: no row is claimed twice,
    only rows that were OPEN are claimed, no row is held by two drivers
    at a time, and a row that was not OPEN keeps its status.  A schedule
    that gives every driver more turns than three times the number of
    OPEN rows plus the number of drivers ends them all at the [break].
    When all drivers have ended, every row that was OPEN has been claimed
    and is FINISHED or ERROR, and a row is IN_PROGRESS only if it was
    IN_PROGRESS at the start. *)
Theorem drivers_under_the_lock `{Helpers} (data_generator : _DataGenerator)
    (L : ExperimentData.t) (fs : filesystem) (selves : list ExperimentData.t)
    (schedule : list nat) :
  from_file fs (filename L) = Return L → consistent L →
  returns_its_row data_generator →
  Forall (λ self, filename self = filename L) selves →
  ∃ L',
    from_file (shared_files (interleave data_generator schedule (start fs selves)))
      (filename L) = Return L' ∧
    NoDup (claims (interleave data_generator schedule (start fs selves))) ∧
    (∀ i, i ∈ claims (interleave data_generator schedule (start fs selves)) →
          jobs L !! i = Some OPEN) ∧
    (∀ p q d d' i,
       drivers (interleave data_generator schedule (start fs selves)) !! p = Some d →
       drivers (interleave data_generator schedule (start fs selves)) !! q = Some d' →
       held (driver_at d) = Some i → held (driver_at d') = Some i → p = q) ∧
    (∀ i st, jobs L !! i = Some st → st ≠ OPEN → jobs L' !! i = Some st) ∧
    ((∀ p, (p < length selves)%nat →
           (3 * open_rows (jobs L) + length selves < turns_of p schedule)%nat) →
     Forall (λ d, driver_at d = ended (Return tt))
       (drivers (interleave data_generator schedule (start fs selves)))) ∧
    (selves ≠ [] →
     Forall (λ d, driver_at d = ended (Return tt))
       (drivers (interleave data_generator schedule (start fs selves))) →
     (∀ i, jobs L !! i = Some OPEN →
           i ∈ claims (interleave data_generator schedule (start fs selves)) ∧
           (jobs L' !! i = Some FINISHED ∨ jobs L' !! i = Some ERROR)) ∧
     (∀ i, jobs L' !! i = Some IN_PROGRESS → jobs L !! i = Some IN_PROGRESS)).
Proof.
  intros Hload Hc Hrow Hselves.
  destruct (start_invariant L fs selves Hload Hc Hselves) as [Hstart Hcalls].
  destruct (interleave_invariant data_generator L schedule Hrow _ L Hstart)
    as (L' & Hinv & Hlen & _ & Hturns & _).
  set (s := interleave data_generator schedule (start fs selves)) in *.
  destruct Hinv as [Hfiles _ _ _ [Hlength Hkept Hheld Hexcl Hholder Hended Honce Hclaims]].
  assert (Hdrivers : length (drivers s) = length selves).
  { rewrite Hlen. cbn. apply length_map. }
  exists L'. split; [exact Hfiles|]. split; [exact Honce|].
  split; [intros i Hi; exact (proj1 (proj1 (Hclaims i) Hi))|].
  split; [exact Hexcl|]. split; [exact Hkept|]. split.
  - intros Henough. apply Forall_lookup. intros p d Hp.
    destruct (driver_at d) as [|e|i|r] eqn:Hat.
    1-3: exfalso;
      assert (Hactive : ∀ r, driver_at d ≠ ended r) by (intros r; rewrite Hat; discriminate);
      pose proof (Hturns p d Hp Hactive) as Hbound;
      pose proof (lookup_lt_Some _ _ _ Hp) as Hlt; rewrite Hdrivers in Hlt;
      specialize (Henough p Hlt); rewrite Hcalls in Hbound; lia.
    f_equal. exact (proj1 (Hended p d r Hp Hat)).
  - intros Hsome Hall.
    assert (Hnone : ∀ i, jobs L' !! i ≠ Some OPEN).
    { destruct (drivers s) as [|d ds] eqn:Hds.
      - destruct selves; [contradiction|discriminate].
      - apply Forall_cons_1 in Hall as [Hd _].
        exact (proj2 (Hended 0%nat d (Return tt) eq_refl Hd)). }
    assert (Hidle : ∀ i, jobs L !! i = Some OPEN → jobs L' !! i ≠ Some IN_PROGRESS).
    { intros i Hi Hprogress. destruct (Hholder i Hi Hprogress) as (p & d & Hp & Hd).
      rewrite Forall_lookup in Hall. rewrite (Hall p d Hp) in Hd. discriminate. }
    split.
    + intros i Hi. split; [apply Hclaims; split; [exact Hi|apply Hnone]|].
      destruct (lookup_lt_is_Some_2 (jobs L') i) as [st Hst].
      { rewrite Hlength. exact (lookup_lt_Some _ _ _ Hi). }
      destruct st; [exfalso; exact (Hnone i Hst)|exfalso; exact (Hidle i Hi Hst)|auto|auto].
    + intros i Hprogress.
      destruct (lookup_lt_is_Some_2 (jobs L) i) as [st Hst].
      { rewrite <- Hlength. exact (lookup_lt_Some _ _ _ Hprogress). }
      destruct (decide (st = OPEN)) as [->|Hne].
      * exfalso. exact (Hidle i Hst Hprogress).
      * rewrite (Hkept i st Hst Hne) in Hprogress. congruence.
Qed.

Lemma drivers_under_the_lock_witness :
  ∃ L',
    from_file (H := plain_helpers)
      (shared_files
         (interleave (H := plain_helpers) fails_on_row_0 [0; 1; 1; 0; 0; 1; 0; 0; 1]%nat
            (start (store (ledger_of [OPEN; OPEN; OPEN]) None ∅)
               [ledger_of [OPEN; OPEN; OPEN]; ledger_of []])))
      "experimentdata" = Return L' ∧
    jobs L' = [ERROR; FINISHED; FINISHED] ∧
    claims
      (interleave (H := plain_helpers) fails_on_row_0 [0; 1; 1; 0; 0; 1; 0; 0; 1]%nat
         (start (store (ledger_of [OPEN; OPEN; OPEN]) None ∅)
            [ledger_of [OPEN; OPEN; OPEN]; ledger_of []])) = [0; 1; 2]%nat ∧
    NoDup (claims
      (interleave (H := plain_helpers) fails_on_row_0 [0; 1; 1; 0; 0; 1; 0; 0; 1]%nat
         (start (store (ledger_of [OPEN; OPEN; OPEN]) None ∅)
            [ledger_of [OPEN; OPEN; OPEN]; ledger_of []]))).
Proof.
  destruct (drivers_under_the_lock (H := plain_helpers) fails_on_row_0
              (ledger_of [OPEN; OPEN; OPEN]) (store (ledger_of [OPEN; OPEN; OPEN]) None ∅)
              [ledger_of [OPEN; OPEN; OPEN]; ledger_of []]
              [0; 1; 1; 0; 0; 1; 0; 0; 1]%nat)
    as (L' & Hload & Honce & _).
  - vm_compute. reflexivity.
  - split; reflexivity.
  - exact fails_on_row_0_returns_its_row.
  - repeat constructor.
  - exists L'. split; [exact Hload|]. split; [|split; [vm_compute; reflexivity|exact Honce]].
    pose proof Hload as Hload'. vm_compute in Hload'. injection Hload' as <-. reflexivity.
Defined.
